(** * Kitchen Remix: the two API routes and the transcript builder

    A shallow embedding of
      - [src/app/api/generate/route.ts]  (Generation Service),
      - [src/app/api/whatsapp/route.ts]  (Delivery Service),
      - [combinedMessage] of [src/app/page.tsx] (transcript),
    together with the properties the specification states about them.

    JavaScript strings are sequences of UTF-16 code units, values are the
    JSON fragment of JavaScript values plus [undefined], and the routes
    run in a small monad that records every interaction with the outside
    (reading the request body, outbound calls, console output). *)

From Stdlib Require Import Ascii String DecimalString.
From Stdlib Require Import List Bool Arith NArith ZArith QArith Lia.
Import ListNotations.

Set Warnings "-register-all".

Local Open Scope nat_scope.
Local Open Scope list_scope.

(** ** JavaScript strings *)

Module JsString.

(** A string is its list of UTF-16 code units; [length] is the JS
    [.length]. *)
Definition jsstring := list N.

Definition ch (c : ascii) : N := N_of_ascii c.

(** An ASCII literal of the source. *)
Definition lit (s : string) : jsstring := List.map ch (list_ascii_of_string s).
Arguments lit s%_string.

Fixpoint eqb (a b : jsstring) : bool :=
  match a, b with
  | [], [] => true
  | x :: a', y :: b' => N.eqb x y && eqb a' b'
  | _, _ => false
  end.

(** [s.startsWith(p)], returning what follows the prefix. *)
Fixpoint dropPrefix (p s : jsstring) : option jsstring :=
  match p, s with
  | [], _ => Some s
  | x :: p', y :: s' => if N.eqb x y then dropPrefix p' s' else None
  | _ :: _, [] => None
  end.

Fixpoint dropWhile (f : N -> bool) (s : jsstring) : jsstring :=
  match s with
  | c :: s' => if f c then dropWhile f s' else s
  | [] => []
  end.

(** ECMAScript WhiteSpace and LineTerminator code points, the ones
    [String.prototype.trim] strips. *)
Definition isWhiteSpace (c : N) : bool :=
  List.existsb (N.eqb c)
    [9; 10; 11; 12; 13; 32; 160; 5760; 8232; 8233; 8239; 8287; 12288; 65279]%N
  || (N.leb 8192 c && N.leb c 8202).

Definition trimStart (s : jsstring) : jsstring := dropWhile isWhiteSpace s.
Definition trimEnd (s : jsstring) : jsstring := rev (dropWhile isWhiteSpace (rev s)).
Definition trim (s : jsstring) : jsstring := trimEnd (trimStart s).

Definition newline : jsstring := [10%N].

(** [lines.join(sep)] *)
Fixpoint join (sep : jsstring) (parts : list jsstring) : jsstring :=
  match parts with
  | [] => []
  | [p] => p
  | p :: rest => p ++ sep ++ join sep rest
  end.

(** [String(n)] / template interpolation of a non-negative integer. *)
Definition ofNat (n : nat) : jsstring :=
  lit (NilEmpty.string_of_uint (Nat.to_uint n)).

End JsString.
Import JsString.

(** ** JavaScript values (the JSON fragment, plus [undefined]) *)

(** Numbers are IEEE doubles in the source.  The routes only test a number
    for truthiness and pass it through, so the model keeps its numeric
    value as a rational (JSON text cannot denote NaN). *)
Inductive JsValue :=
| JUndefined
| JNull
| JBool (b : bool)
| JNum (q : Q)
| JStr (s : jsstring)
| JArr (items : list JsValue)
| JObj (fields : list (jsstring * JsValue)).

Fixpoint lookup (k : jsstring) (fields : list (jsstring * JsValue)) : option JsValue :=
  match fields with
  | [] => None
  | (k', v) :: rest => if JsString.eqb k k' then Some v else lookup k rest
  end.

(** [k in obj] and [obj[k]] on a plain object. *)
Definition hasKey (k : jsstring) (fields : list (jsstring * JsValue)) : bool :=
  match lookup k fields with Some _ => true | None => false end.

Definition getField (k : jsstring) (fields : list (jsstring * JsValue)) : JsValue :=
  match lookup k fields with Some v => v | None => JUndefined end.

(** ToBoolean *)
Definition truthy (v : JsValue) : bool :=
  match v with
  | JUndefined | JNull => false
  | JBool b => b
  | JNum q => negb (Z.eqb (Qnum q) 0)
  | JStr s => match s with [] => false | _ => true end
  | JArr _ | JObj _ => true
  end.

Definition nullish (v : JsValue) : bool :=
  match v with JUndefined | JNull => true | _ => false end.

Definition isUndefined (v : JsValue) : bool :=
  match v with JUndefined => true | _ => false end.

(** [a ?? b] *)
Definition coalesce (a b : JsValue) : JsValue := if nullish a then b else a.

(** [v?.name] for a property name that is neither an index nor [length]
    nor a built-in of a prototype (here: [messages], [id]): only a plain
    object can hold it. *)
Definition optMember (v : JsValue) (name : jsstring) : JsValue :=
  match v with
  | JObj fields => getField name fields
  | _ => JUndefined
  end.

(** [v?.[i]] for a non-negative integer [i]: an array element, a one-unit
    substring, or the property whose name is the decimal numeral. *)
Definition optIndex (v : JsValue) (i : nat) : JsValue :=
  match v with
  | JArr items => nth i items JUndefined
  | JStr s => match nth_error s i with Some c => JStr [c] | None => JUndefined end
  | JObj fields => getField (ofNat i) fields
  | _ => JUndefined
  end.

(** [process.env]: names bound to strings; an unbound name reads as
    [undefined]. *)
Definition EnvVar := option jsstring.

Definition ProcessEnv := list (jsstring * jsstring).

Fixpoint getenv (process_env : ProcessEnv) (name : jsstring) : EnvVar :=
  match process_env with
  | [] => None
  | (k, v) :: rest => if JsString.eqb name k then Some v else getenv rest name
  end.

Definition envValue (e : EnvVar) : JsValue :=
  match e with Some s => JStr s | None => JUndefined end.

(** ** [JSON.parse]

    The ECMA-404 grammar on code units.  [None] stands for the thrown
    [SyntaxError].  A number keeps the exact value of its decimal
    numeral. *)

Module JSON.

Definition isWs (c : N) : bool :=
  N.eqb c 32 || N.eqb c 9 || N.eqb c 10 || N.eqb c 13.

Definition isDigit (c : N) : bool := N.leb 48 c && N.leb c 57.

Definition skipWs (s : jsstring) : jsstring := dropWhile isWs s.

Fixpoint span (f : N -> bool) (s : jsstring) : jsstring * jsstring :=
  match s with
  | c :: r => if f c then let (a, b) := span f r in (c :: a, b) else ([], s)
  | [] => ([], [])
  end.

Definition hexDigit (c : N) : option N :=
  if isDigit c then Some (c - 48)%N
  else if N.leb 65 c && N.leb c 70 then Some (c - 55)%N
  else if N.leb 97 c && N.leb c 102 then Some (c - 87)%N
  else None.

Definition hex4 (a b c d : N) : option N :=
  match hexDigit a, hexDigit b, hexDigit c, hexDigit d with
  | Some a, Some b, Some c, Some d => Some (((a * 16 + b) * 16 + c) * 16 + d)%N
  | _, _, _, _ => None
  end.

(** The character after a backslash, other than [u]. *)
Definition escape (e : N) : option N :=
  if N.eqb e 34 then Some 34%N          (* quote *)
  else if N.eqb e 92 then Some 92%N     (* backslash *)
  else if N.eqb e 47 then Some 47%N     (* slash *)
  else if N.eqb e 98 then Some 8%N      (* b *)
  else if N.eqb e 102 then Some 12%N    (* f *)
  else if N.eqb e 110 then Some 10%N    (* n *)
  else if N.eqb e 114 then Some 13%N    (* r *)
  else if N.eqb e 116 then Some 9%N     (* t *)
  else None.

(** The characters of a string after its opening quote, up to and
    including the closing quote. *)
Fixpoint parseChars (s : jsstring) (acc : jsstring) : option (jsstring * jsstring) :=
  match s with
  | [] => None
  | c :: r =>
      if N.eqb c 34 then Some (rev acc, r)
      else if N.eqb c 92 then
        match r with
        | [] => None
        | e :: r1 =>
            if N.eqb e 117 then
              match r1 with
              | a :: r2 =>
                  match r2 with
                  | b :: r3 =>
                      match r3 with
                      | c' :: r4 =>
                          match r4 with
                          | d :: r5 =>
                              match hex4 a b c' d with
                              | Some u => parseChars r5 (u :: acc)
                              | None => None
                              end
                          | [] => None
                          end
                      | [] => None
                      end
                  | [] => None
                  end
              | [] => None
              end
            else
              match escape e with
              | Some u => parseChars r1 (u :: acc)
              | None => None
              end
        end
      else if N.ltb c 32 then None
      else parseChars r (c :: acc)
  end.

Definition digitsValue (ds : jsstring) : Z :=
  fold_left (fun acc d => (acc * 10 + Z.of_N (d - 48))%Z) ds 0%Z.

Definition decimal (neg : bool) (mantissa exponent : Z) : Q :=
  let m := if neg then (- mantissa)%Z else mantissa in
  if (0 <=? exponent)%Z then Qmake (m * 10 ^ exponent) 1
  else Qmake m (Z.to_pos (10 ^ (- exponent))).

Definition parseNumber (s : jsstring) : option (Q * jsstring) :=
  let (neg, s1) := match s with 45%N :: r => (true, r) | _ => (false, s) end in
  let (ip, s2) := span isDigit s1 in
  match ip with
  | [] => None
  | 48%N :: _ :: _ => None
  | _ =>
      let frac :=
        match s2 with
        | 46%N :: r =>
            let (fp, s3) := span isDigit r in
            match fp with [] => None | _ => Some (fp, s3) end
        | _ => Some ([], s2)
        end in
      match frac with
      | None => None
      | Some (fp, s3) =>
          let expo :=
            match s3 with
            | c :: r =>
                if N.eqb c 101 || N.eqb c 69 then
                  let (eneg, r1) :=
                    match r with
                    | 45%N :: r' => (true, r')
                    | 43%N :: r' => (false, r')
                    | _ => (false, r)
                    end in
                  let (ep, s4) := span isDigit r1 in
                  match ep with
                  | [] => None
                  | _ => Some (if eneg then (- digitsValue ep)%Z else digitsValue ep, s4)
                  end
                else Some (0%Z, s3)
            | [] => Some (0%Z, s3)
            end in
          match expo with
          | None => None
          | Some (e, s4) =>
              Some (decimal neg (digitsValue (ip ++ fp)) (e - Z.of_nat (length fp)), s4)
          end
      end
  end.

(** A later member with the same name replaces the earlier value. *)
Fixpoint setField (k : jsstring) (v : JsValue) (fields : list (jsstring * JsValue))
  : list (jsstring * JsValue) :=
  match fields with
  | [] => [(k, v)]
  | (k', v') :: rest =>
      if JsString.eqb k k' then (k', v) :: rest else (k', v') :: setField k v rest
  end.

Fixpoint parseValue (fuel : nat) (s : jsstring) : option (JsValue * jsstring) :=
  match fuel with
  | 0 => None
  | S fuel' =>
      match skipWs s with
      | [] => None
      | c :: r =>
          if N.eqb c 123 then
            match skipWs r with
            | 125%N :: r' => Some (JObj [], r')
            | _ => parseMembers fuel' r []
            end
          else if N.eqb c 91 then
            match skipWs r with
            | 93%N :: r' => Some (JArr [], r')
            | _ => parseElements fuel' r []
            end
          else if N.eqb c 34 then
            match parseChars r [] with
            | Some (str, r') => Some (JStr str, r')
            | None => None
            end
          else
            match dropPrefix (lit "true") (c :: r) with
            | Some r' => Some (JBool true, r')
            | None =>
            match dropPrefix (lit "false") (c :: r) with
            | Some r' => Some (JBool false, r')
            | None =>
            match dropPrefix (lit "null") (c :: r) with
            | Some r' => Some (JNull, r')
            | None =>
            match parseNumber (c :: r) with
            | Some (q, r') => Some (JNum q, r')
            | None => None
            end end end end
      end
  end
with parseElements (fuel : nat) (s : jsstring) (acc : list JsValue)
  : option (JsValue * jsstring) :=
  match fuel with
  | 0 => None
  | S fuel' =>
      match parseValue fuel' s with
      | None => None
      | Some (v, r) =>
          match skipWs r with
          | 44%N :: r' => parseElements fuel' r' (acc ++ [v])
          | 93%N :: r' => Some (JArr (acc ++ [v]), r')
          | _ => None
          end
      end
  end
with parseMembers (fuel : nat) (s : jsstring) (acc : list (jsstring * JsValue))
  : option (JsValue * jsstring) :=
  match fuel with
  | 0 => None
  | S fuel' =>
      match skipWs s with
      | 34%N :: r =>
          match parseChars r [] with
          | None => None
          | Some (k, r1) =>
              match skipWs r1 with
              | 58%N :: r2 =>
                  match parseValue fuel' r2 with
                  | None => None
                  | Some (v, r3) =>
                      match skipWs r3 with
                      | 44%N :: r4 => parseMembers fuel' r4 (setField k v acc)
                      | 125%N :: r4 => Some (JObj (setField k v acc), r4)
                      | _ => None
                      end
                  end
              | _ => None
              end
          end
      | _ => None
      end
  end.

Definition parse (text : jsstring) : option JsValue :=
  match parseValue (2 * length text + 2) text with
  | Some (v, r) => match skipWs r with [] => Some v | _ => None end
  | None => None
  end.

End JSON.

(** ** The schema validator (zod)

    The routes declare their schemas with [z.object], [z.string],
    [z.array], [.min], [.max], [.regex] and [.optional].  The validator is
    a dependency of the repository; this is its behaviour on those
    combinators: a value of the wrong type yields [invalid_type], every
    failed check adds an issue, an object schema strips the keys it does
    not declare, and validation succeeds exactly when no issue was
    raised. *)

Inductive ParsedType :=
| PTundefined | PTnull | PTboolean | PTnumber | PTstring | PTarray | PTobject.

Definition getParsedType (v : JsValue) : ParsedType :=
  match v with
  | JUndefined => PTundefined
  | JNull => PTnull
  | JBool _ => PTboolean
  | JNum _ => PTnumber
  | JStr _ => PTstring
  | JArr _ => PTarray
  | JObj _ => PTobject
  end.

Inductive PathSegment := PathKey (k : jsstring) | PathIndex (i : nat).

Inductive IssueCode :=
| invalid_type (expected received : ParsedType)
| too_small (minimum : nat) (type : ParsedType)
| too_big (maximum : nat) (type : ParsedType)
| invalid_string_regex.

Record ZodIssue := {
  code : IssueCode;
  path : list PathSegment;
  message : option jsstring   (* the custom message given to the check *)
}.

Inductive StringCheck :=
| CheckMin (value : nat) (message : option jsstring)
| CheckRegex (test : jsstring -> bool) (message : option jsstring).

Inductive ZodType :=
| ZodString (checks : list StringCheck)
| ZodOptional (inner : ZodType)
| ZodArray (element : ZodType) (minLength maxLength : option nat)
| ZodObject (shape : list (jsstring * ZodType)).

Module z.

Definition string_ : ZodType := ZodString [].
Definition array (element : ZodType) : ZodType := ZodArray element None None.
Definition object (shape : list (jsstring * ZodType)) : ZodType := ZodObject shape.
Definition optional (t : ZodType) : ZodType := ZodOptional t.

(** [.min(n, message?)] on a string or an array schema. *)
Definition min (n : nat) (message : option jsstring) (t : ZodType) : ZodType :=
  match t with
  | ZodString checks => ZodString (checks ++ [CheckMin n message])
  | ZodArray element _ hi => ZodArray element (Some n) hi
  | _ => t
  end.

(** [.max(n)] on an array schema. *)
Definition max (n : nat) (t : ZodType) : ZodType :=
  match t with
  | ZodArray element lo _ => ZodArray element lo (Some n)
  | _ => t
  end.

(** [.regex(re, message?)] on a string schema. *)
Definition regex (test : jsstring -> bool) (message : option jsstring) (t : ZodType)
  : ZodType :=
  match t with
  | ZodString checks => ZodString (checks ++ [CheckRegex test message])
  | _ => t
  end.

End z.

(** Method chaining: [t |> z.min 3 None] reads [t.min(3)]. *)
Notation "t |> f" := (f t) (at level 45, left associativity, only parsing).

Definition invalidType (expected : ParsedType) (p : list PathSegment) (v : JsValue)
  : list ZodIssue * JsValue :=
  ([{| code := invalid_type expected (getParsedType v); path := p; message := None |}],
   JUndefined).

Definition runStringCheck (p : list PathSegment) (s : jsstring) (c : StringCheck)
  : list ZodIssue :=
  match c with
  | CheckMin n msg =>
      if length s <? n
      then [{| code := too_small n PTstring; path := p; message := msg |}] else []
  | CheckRegex test msg =>
      if test s then []
      else [{| code := invalid_string_regex; path := p; message := msg |}]
  end.

Fixpoint mapiFrom {A B : Type} (f : nat -> A -> B) (i : nat) (l : list A) : list B :=
  match l with
  | [] => []
  | x :: rest => f i x :: mapiFrom f (S i) rest
  end.

(** [_parse]: the issues raised and the output value. *)
Fixpoint _parse (t : ZodType) (p : list PathSegment) (v : JsValue) {struct t}
  : list ZodIssue * JsValue :=
  match t with
  | ZodString checks =>
      match v with
      | JStr s => (flat_map (runStringCheck p s) checks, v)
      | _ => invalidType PTstring p v
      end
  | ZodOptional inner =>
      match v with
      | JUndefined => ([], JUndefined)
      | _ => _parse inner p v
      end
  | ZodArray element lo hi =>
      match v with
      | JArr items =>
          let small :=
            match lo with
            | Some n =>
                if length items <? n
                then [{| code := too_small n PTarray; path := p; message := None |}]
                else []
            | None => []
            end in
          let big :=
            match hi with
            | Some n =>
                if n <? length items
                then [{| code := too_big n PTarray; path := p; message := None |}]
                else []
            | None => []
            end in
          let results :=
            mapiFrom (fun i x => _parse element (p ++ [PathIndex i]) x) 0 items in
          (small ++ big ++ concat (map fst results), JArr (map snd results))
      | _ => invalidType PTarray p v
      end
  | ZodObject shape =>
      match v with
      | JObj fields =>
          let fix members (shape : list (jsstring * ZodType))
            : list ZodIssue * list (jsstring * JsValue) :=
            match shape with
            | [] => ([], [])
            | (k, t') :: rest =>
                let (issues, value) := _parse t' (p ++ [PathKey k]) (getField k fields) in
                let (issues', out) := members rest in
                (issues ++ issues',
                 if hasKey k fields || negb (isUndefined value)
                 then (k, value) :: out else out)
            end in
          let (issues, out) := members shape in
          (issues, JObj out)
      | _ => invalidType PTobject p v
      end
  end.

Inductive SafeParseReturn :=
| ParseSuccess (data : JsValue)
| ParseFailure (error : list ZodIssue).

Definition safeParse (t : ZodType) (v : JsValue) : SafeParseReturn :=
  match _parse t [] v with
  | ([], data) => ParseSuccess data
  | (issues, _) => ParseFailure issues
  end.

(** ** Errors, responses and effects *)

(** The [message] of an [Error].  Two messages embed text produced by a
    formatter outside the repository and are kept in structured form:
    the message of the validator's error (its rendering of the issue
    list) and the upstream-failure message, which interpolates
    [JSON.stringify(errorPayload)]. *)
Inductive ErrorMessage :=
| Message (text : jsstring)
| ZodErrorMessage (issues : list ZodIssue)
| WhatsAppApiError (status : Z) (errorPayload : JsValue).

(** What a [throw] or a rejected promise carries. *)
Inductive Thrown :=
| ThrownError (message : ErrorMessage)     (* [instanceof Error] *)
| ThrownOther (v : JsValue).

Inductive ErrorDetails :=
| DetailsString (e : Thrown)                (* [String(error)] *)
| DetailsFlatten (issues : list ZodIssue).  (* [parsed.error.flatten()] *)

Inductive ResponseBody :=
| ErrorBody (error : ErrorMessage) (details : option ErrorDetails)
| DeliveryOutcome (state : jsstring) (id : JsValue)
| GenerationResult (payload : JsValue).

(** [NextResponse.json(body, { status })] *)
Record Response := { status : Z; body : ResponseBody }.

Definition NextResponse_json (b : ResponseBody) (st : Z) : Response :=
  {| status := st; body := b |}.

(** The argument of [openai.responses.create]. *)
Record ResponsesCreateParams := {
  model : jsstring;
  max_output_tokens : Z;
  input_text : jsstring;
  image_url : JsValue;
  detail : jsstring
}.

(** The second argument of [fetch]; [payload] is the object handed to
    [JSON.stringify] for the body. *)
Record RequestInit := {
  method : jsstring;
  headers : list (jsstring * jsstring);
  payload : JsValue
}.

Inductive Effect :=
| RequestJson                                   (* [request.json()] *)
| ResponsesCreate (params : ResponsesCreateParams)
| Fetch (url : jsstring) (init : RequestInit)
| ResponseJson                                  (* [whatsappResponse.json()] *)
| ConsoleError (label : jsstring) (e : Thrown).

(** A computation appends to the trace of effects and either returns or
    throws. *)
Definition Eff (A : Type) : Type := list Effect -> (A + Thrown) * list Effect.

Definition ret {A} (a : A) : Eff A := fun tr => (inl a, tr).

Definition throw {A} (e : Thrown) : Eff A := fun tr => (inr e, tr).

Definition bind {A B} (m : Eff A) (k : A -> Eff B) : Eff B :=
  fun tr =>
    match m tr with
    | (inl a, tr') => k a tr'
    | (inr e, tr') => (inr e, tr')
    end.

(** [try { m } catch (error) { handler error }] *)
Definition tryCatch {A} (m : Eff A) (handler : Thrown -> Eff A) : Eff A :=
  fun tr =>
    match m tr with
    | (inl a, tr') => (inl a, tr')
    | (inr e, tr') => handler e tr'
    end.

(** An interaction with the outside and the answer it got. *)
Definition perform {A} (e : Effect) (answer : A + Thrown) : Eff A :=
  fun tr => (answer, tr ++ [e]).

Notation "x <- m ;; k" := (bind m (fun x => k))
  (at level 61, m at next level, right associativity).
Notation "m ;;; k" := (bind m (fun _ => k))
  (at level 61, right associativity).

(** [m] with a rejection turned into a value, for a [try] whose [catch]
    leaves the function. *)
Definition attempt {A} (m : Eff A) : Eff (A + Thrown) :=
  fun tr => let (r, tr') := m tr in (inl r, tr').

Definition console_error (label : jsstring) (e : Thrown) : Eff unit :=
  perform (ConsoleError label e) (inl tt).

(** [schema.parse(v)]: the data, or a thrown validator error. *)
Definition parse (t : ZodType) (v : JsValue) : Eff JsValue :=
  match safeParse t v with
  | ParseSuccess data => ret data
  | ParseFailure issues => throw (ThrownError (ZodErrorMessage issues))
  end.

Definition run {A} (m : Eff A) : (A + Thrown) * list Effect := m [].

(** An incoming request, as far as the routes look at it: what
    [request.json()] resolves or rejects with. *)
Record Request := { request_json : JsValue + Thrown }.

Definition isOutbound (e : Effect) : bool :=
  match e with
  | ResponsesCreate _ | Fetch _ _ => true
  | _ => false
  end.

Definition outboundCalls (tr : list Effect) : list Effect := filter isOutbound tr.

(** [error instanceof Error ? error.message : fallback] *)
Definition messageOr (fallback : jsstring) (error : Thrown) : ErrorMessage :=
  match error with
  | ThrownError m => m
  | ThrownOther _ => Message fallback
  end.

(** ** The Generation Service: [src/app/api/generate/route.ts] *)

Module Generate.

(** [/^data:image\/[a-zA-Z+]+;base64,/] *)
Definition isSubtypeChar (c : N) : bool :=
  (N.leb 97 c && N.leb c 122) || (N.leb 65 c && N.leb c 90) || N.eqb c 43.

Definition dataUrlRegex (s : jsstring) : bool :=
  match dropPrefix (lit "data:image/") s with
  | None => false
  | Some r =>
      let r' := dropWhile isSubtypeChar r in
      (length r' <? length r) &&
      match dropPrefix (lit ";base64,") r' with Some _ => true | None => false end
  end.

Definition requestSchema : ZodType :=
  z.object [
    (lit "imageDataUrl",
       z.string_
       |> z.min 10 (Some (lit "Image payload missing."))
       |> z.regex dataUrlRegex (Some (lit "Image data URL expected.")));
    (lit "notes", z.string_ |> z.optional)
  ].

Definition systemPrompt : jsstring := newline ++ lit
"You are Kitchen Remix, a culinary assistant. A user uploads a photo of leftover ingredients from their kitchen.
- First, inspect the image and infer the primary ingredients visible.
- Blend that understanding with the provided notes (dietary needs, missing staples, equipment).
- Produce a short summary that explains what you saw and the culinary direction you're taking.
- Generate AT LEAST 3 distinct recipes (max 4). For each recipe provide:
  - name (catchy but clear)
  - description (1-2 sentences)
  - ingredients (bullet array, include quantities using the leftovers plus a few common pantry items)
  - steps (sequential array, concise but actionable)
- Stay within normal home kitchen constraints. Note substitutions for missing items.
- Output valid JSON following this TypeScript type:
  type Payload = {
    summary: string;
    recipes: {
      name: string;
      description: string;
      ingredients: string[];
      steps: string[];
    }[];
  };
- JSON only. No markdown, no code fences.
".

Definition payloadSchema : ZodType :=
  z.object [
    (lit "summary", z.string_ |> z.min 10 None);
    (lit "recipes",
       z.array
         (z.object [
            (lit "name", z.string_ |> z.min 3 None);
            (lit "description", z.string_ |> z.min 10 None);
            (lit "ingredients", z.array (z.string_ |> z.min 2 None) |> z.min 3 None);
            (lit "steps", z.array (z.string_ |> z.min 5 None) |> z.min 3 None)
          ])
       |> z.min 3 None
       |> z.max 5)
  ].

(** The model provider, as the route sees it: what
    [openai.responses.create] resolves or rejects with. *)
Record ModelResponse := { output_text : option jsstring }.

Definition OpenAI := ResponsesCreateParams -> ModelResponse + Thrown.

Definition retakeMessage : jsstring :=
  lit "Model response was not valid JSON. Please retake the photo and try again.".

(** The argument of [openai.responses.create] (lines 68-92), from the
    validated request. *)
Definition createParams (data : JsValue) : ResponsesCreateParams :=
  let notes := optMember data (lit "notes") in
  {| model := lit "gpt-4o-mini";
     max_output_tokens := 1400;
     input_text :=
       join (newline ++ newline)
         [systemPrompt;
          (* [notes] is a string or undefined here *)
          match notes with
          | JStr (c :: s) => lit "Notes from the cook: " ++ c :: s
          | _ => lit "No additional notes provided."
          end];
     image_url := optMember data (lit "imageDataUrl");
     detail := lit "high" |}.

(** The route, given [process.env.OPENAI_API_KEY] and the client built
    from it. *)
Definition POST (OPENAI_API_KEY : EnvVar) (openai : OpenAI) (request : Request)
  : Eff Response :=
  if negb (truthy (envValue OPENAI_API_KEY)) then
    ret (NextResponse_json
           (ErrorBody (Message (lit "OPENAI_API_KEY is not set on the server.")) None)
           500)
  else
  parsedBody <- attempt (perform RequestJson (request_json request)) ;;
  match parsedBody with
  | inr error =>
      ret (NextResponse_json
             (ErrorBody (Message (lit "Invalid JSON body."))
                        (Some (DetailsString error)))
             400)
  | inl body =>
  match safeParse requestSchema body with
  | ParseFailure error =>
      ret (NextResponse_json
             (ErrorBody (Message (lit "Request validation failed."))
                        (Some (DetailsFlatten error)))
             400)
  | ParseSuccess data =>
  tryCatch
    (let params := createParams data in
     response <- perform (ResponsesCreate params) (openai params) ;;
     let raw := match output_text response with Some s => s | None => [] end in
     match raw with
     | [] => throw (ThrownError (Message (lit "Model response was empty.")))
     | _ =>
         payload <-
           match JSON.parse raw with
           | Some v => ret v
           | None => throw (ThrownError (Message retakeMessage))
           end ;;
         parsedPayload <- parse payloadSchema payload ;;
         ret (NextResponse_json (GenerationResult parsedPayload) 200)
     end)
    (fun error =>
       console_error (lit "Recipe generation failed") error ;;;
       ret (NextResponse_json
              (ErrorBody (messageOr (lit "Recipe generation failed unexpectedly.") error)
                         None)
              500))
  end end.

End Generate.

(** ** The Delivery Service: [src/app/api/whatsapp/route.ts] *)

Module WhatsApp.

Definition whatsappSchema : ZodType :=
  z.object [
    (lit "message", z.string_ |> z.min 10 None);
    (lit "phoneNumber", z.string_ |> z.optional)
  ].

Record WhatsAppEnv := {
  token : EnvVar;
  phoneId : EnvVar;
  defaultRecipient : EnvVar
}.

Definition readEnv (process_env : ProcessEnv) : WhatsAppEnv :=
  {| token := getenv process_env (lit "WHATSAPP_ACCESS_TOKEN");
     phoneId := getenv process_env (lit "WHATSAPP_PHONE_NUMBER_ID");
     defaultRecipient := getenv process_env (lit "WHATSAPP_RECIPIENT") |}.

(** What [fetch] resolves with; [ok] is the 2xx range. *)
Record FetchResponse := {
  response_status : Z;
  response_json : JsValue + Thrown
}.

Definition ok (r : FetchResponse) : bool :=
  (200 <=? response_status r)%Z && (response_status r <=? 299)%Z.

Definition Network := jsstring -> RequestInit -> FetchResponse + Thrown.

(** [`${e}`] for an environment variable. *)
Definition template (e : EnvVar) : jsstring :=
  match e with Some s => s | None => lit "undefined" end.

(** [await whatsappResponse.json().catch(() => ({}))] *)
Definition jsonOrEmpty (r : FetchResponse) : Eff JsValue :=
  tryCatch (perform ResponseJson (response_json r)) (fun _ => ret (JObj [])).

(** The two arguments of [fetch] (lines 66-84). *)
Definition messagesUrl (env : WhatsAppEnv) : jsstring :=
  lit "https://graph.facebook.com/v19.0/" ++ template (phoneId env) ++ lit "/messages".

Definition messageInit (env : WhatsAppEnv) (recipient : JsValue) (data : JsValue)
  : RequestInit :=
  {| method := lit "POST";
     headers :=
       [(lit "Content-Type", lit "application/json");
        (lit "Authorization", lit "Bearer " ++ template (token env))];
     payload :=
       JObj [
         (lit "messaging_product", JStr (lit "whatsapp"));
         (lit "to", recipient);
         (lit "type", JStr (lit "text"));
         (lit "text",
            JObj [
              (lit "preview_url", JBool false);
              (lit "body", optMember data (lit "message"))
            ])
       ] |}.

(** The route, given [env], the result of its first statement
    [readEnv()]. *)
Definition POST (env : WhatsAppEnv) (fetch : Network) (request : Request)
  : Eff Response :=
  if negb (truthy (envValue (token env))) || negb (truthy (envValue (phoneId env))) then
    ret (NextResponse_json
           (ErrorBody
              (Message (lit
                 "WhatsApp credentials are not configured. Set WHATSAPP_ACCESS_TOKEN and WHATSAPP_PHONE_NUMBER_ID."))
              None)
           500)
  else
  parsedBody <- attempt (perform RequestJson (request_json request)) ;;
  match parsedBody with
  | inr error =>
      ret (NextResponse_json
             (ErrorBody (Message (lit "Invalid JSON body."))
                        (Some (DetailsString error)))
             400)
  | inl json =>
  match safeParse whatsappSchema json with
  | ParseFailure error =>
      ret (NextResponse_json
             (ErrorBody (Message (lit "Request validation failed."))
                        (Some (DetailsFlatten error)))
             400)
  | ParseSuccess data =>
  let recipient :=
    coalesce (optMember data (lit "phoneNumber")) (envValue (defaultRecipient env)) in
  if negb (truthy recipient) then
    ret (NextResponse_json
           (ErrorBody
              (Message (lit
                 "Provide a phoneNumber in the request or configure WHATSAPP_RECIPIENT."))
              None)
           400)
  else
  tryCatch
    (let url := messagesUrl env in
     let init := messageInit env recipient data in
     whatsappResponse <- perform (Fetch url init) (fetch url init) ;;
     if negb (ok whatsappResponse) then
       errorPayload <- jsonOrEmpty whatsappResponse ;;
       throw (ThrownError
                (WhatsAppApiError (response_status whatsappResponse) errorPayload))
     else
       responseBody <- jsonOrEmpty whatsappResponse ;;
       let messages := optMember responseBody (lit "messages") in
       ret (NextResponse_json
              (DeliveryOutcome
                 (if truthy messages then lit "queued" else lit "sent")
                 (coalesce (optMember (optIndex messages 0) (lit "id")) JNull))
              200))
    (fun error =>
       console_error (lit "WhatsApp send failed") error ;;;
       ret (NextResponse_json
              (ErrorBody (messageOr (lit "WhatsApp delivery failed unexpectedly.") error)
                         None)
              502))
  end end.

End WhatsApp.

(** ** The transcript: [combinedMessage] of [src/app/page.tsx] *)

Module Page.

Record Recipe := {
  name : jsstring;
  description : jsstring;
  ingredients : list jsstring;
  steps : list jsstring
}.

(** [arr.forEach((x, index) => ...)] over a state the callback updates. *)
Fixpoint forEachFrom {A St : Type} (f : A -> nat -> St -> St) (index : nat)
  (arr : list A) (st : St) : St :=
  match arr with
  | [] => st
  | x :: rest => forEachFrom f (S index) rest (f x index st)
  end.

Definition forEach {A St : Type} (f : A -> nat -> St -> St) (arr : list A) (st : St) : St :=
  forEachFrom f 0 arr st.

(** [lines.push(x)] *)
Definition push (x : jsstring) (lines : list jsstring) : list jsstring := lines ++ [x].

(** U+1F373 as its surrogate pair, and U+2022. *)
Definition fryingPan : jsstring := [55356; 57203]%N.
Definition bullet : jsstring := [8226]%N.

Definition title : jsstring := fryingPan ++ lit " *Kitchen Remix AI Recipes*".

Definition combinedMessage (recipes : list Recipe) (summary : option jsstring)
  : jsstring :=
  if length recipes =? 0 then []
  else
    let lines : list jsstring :=
      [title;
       match summary with
       | Some (c :: s) => (c :: s) ++ newline
       | _ => []
       end] in
    let lines :=
      forEach
        (fun recipe index lines =>
           let lines :=
             push (lit "*" ++ ofNat (index + 1) ++ lit ". " ++ name recipe ++ lit "*")
                  lines in
           let lines := push (description recipe) lines in
           let lines := push (lit "_Ingredients_:") lines in
           let lines :=
             forEach (fun ingredient _ lines => push (bullet ++ lit " " ++ ingredient) lines)
                     (ingredients recipe) lines in
           let lines := push (lit "_Steps_:") lines in
           let lines :=
             forEach (fun step stepIndex lines =>
                        push (ofNat (stepIndex + 1) ++ lit ". " ++ step) lines)
                     (steps recipe) lines in
           push [] lines)
        recipes lines in
    trim (join newline lines).

End Page.

(** ** The page: state and handlers of [HomePage] in [src/app/page.tsx]

    The component keeps its state in ten [useState] cells.  A handler
    reads the cells as they were when it was created and writes them
    through the setters; its network calls are recorded like those of
    the routes. *)

Module GenerateResponse.

(** [type GenerateResponse] *)
Record t := {
  recipes : list Page.Recipe;
  summary : jsstring
}.

End GenerateResponse.

Module HomePage.

(** The text of an error: a message, or the string form of a value that
    is not a string, or the engine's complaint about reading a property
    of [null] or [undefined]. *)
Inductive Shown :=
| Said (m : ErrorMessage)
| StringOf (v : JsValue)
| CannotRead (property : jsstring) (base : JsValue).

Record State := {
  imagePreview : option jsstring;
  imageDataUrl : option jsstring;
  notes : jsstring;
  recipes : list Page.Recipe;
  summary : option jsstring;
  loading : bool;
  error : option Shown;
  sendPhone : jsstring;
  sendingToWhatsApp : bool;
  whatsAppResult : option jsstring
}.

(** The initial values of the [useState] calls. *)
Definition initialState : State :=
  {| imagePreview := None; imageDataUrl := None; notes := [];
     recipes := []; summary := None; loading := false; error := None;
     sendPhone := []; sendingToWhatsApp := false; whatsAppResult := None |}.

Definition setImagePreview (v : option jsstring) (st : State) : State :=
  {| imagePreview := v; imageDataUrl := imageDataUrl st; notes := notes st;
     recipes := recipes st; summary := summary st; loading := loading st;
     error := error st; sendPhone := sendPhone st;
     sendingToWhatsApp := sendingToWhatsApp st; whatsAppResult := whatsAppResult st |}.

Definition setImageDataUrl (v : option jsstring) (st : State) : State :=
  {| imagePreview := imagePreview st; imageDataUrl := v; notes := notes st;
     recipes := recipes st; summary := summary st; loading := loading st;
     error := error st; sendPhone := sendPhone st;
     sendingToWhatsApp := sendingToWhatsApp st; whatsAppResult := whatsAppResult st |}.

Definition setNotes (v : jsstring) (st : State) : State :=
  {| imagePreview := imagePreview st; imageDataUrl := imageDataUrl st; notes := v;
     recipes := recipes st; summary := summary st; loading := loading st;
     error := error st; sendPhone := sendPhone st;
     sendingToWhatsApp := sendingToWhatsApp st; whatsAppResult := whatsAppResult st |}.

Definition setRecipes (v : list Page.Recipe) (st : State) : State :=
  {| imagePreview := imagePreview st; imageDataUrl := imageDataUrl st; notes := notes st;
     recipes := v; summary := summary st; loading := loading st;
     error := error st; sendPhone := sendPhone st;
     sendingToWhatsApp := sendingToWhatsApp st; whatsAppResult := whatsAppResult st |}.

Definition setSummary (v : option jsstring) (st : State) : State :=
  {| imagePreview := imagePreview st; imageDataUrl := imageDataUrl st; notes := notes st;
     recipes := recipes st; summary := v; loading := loading st;
     error := error st; sendPhone := sendPhone st;
     sendingToWhatsApp := sendingToWhatsApp st; whatsAppResult := whatsAppResult st |}.

Definition setLoading (v : bool) (st : State) : State :=
  {| imagePreview := imagePreview st; imageDataUrl := imageDataUrl st; notes := notes st;
     recipes := recipes st; summary := summary st; loading := v;
     error := error st; sendPhone := sendPhone st;
     sendingToWhatsApp := sendingToWhatsApp st; whatsAppResult := whatsAppResult st |}.

Definition setError (v : option Shown) (st : State) : State :=
  {| imagePreview := imagePreview st; imageDataUrl := imageDataUrl st; notes := notes st;
     recipes := recipes st; summary := summary st; loading := loading st;
     error := v; sendPhone := sendPhone st;
     sendingToWhatsApp := sendingToWhatsApp st; whatsAppResult := whatsAppResult st |}.

Definition setSendPhone (v : jsstring) (st : State) : State :=
  {| imagePreview := imagePreview st; imageDataUrl := imageDataUrl st; notes := notes st;
     recipes := recipes st; summary := summary st; loading := loading st;
     error := error st; sendPhone := v;
     sendingToWhatsApp := sendingToWhatsApp st; whatsAppResult := whatsAppResult st |}.

Definition setSendingToWhatsApp (v : bool) (st : State) : State :=
  {| imagePreview := imagePreview st; imageDataUrl := imageDataUrl st; notes := notes st;
     recipes := recipes st; summary := summary st; loading := loading st;
     error := error st; sendPhone := sendPhone st;
     sendingToWhatsApp := v; whatsAppResult := whatsAppResult st |}.

Definition setWhatsAppResult (v : option jsstring) (st : State) : State :=
  {| imagePreview := imagePreview st; imageDataUrl := imageDataUrl st; notes := notes st;
     recipes := recipes st; summary := summary st; loading := loading st;
     error := error st; sendPhone := sendPhone st;
     sendingToWhatsApp := sendingToWhatsApp st; whatsAppResult := v |}.

(** A literal error text. *)
Definition text (s : string) : Shown := Said (Message (lit s)).
Arguments text s%_string.

(** What a [throw] carries in the page. *)
Inductive Raised :=
| RaisedError (message : Shown)        (* [instanceof Error] *)
| RaisedOther (v : JsValue).

Definition ofThrown (e : Thrown) : Raised :=
  match e with
  | ThrownError m => RaisedError (Said m)
  | ThrownOther v => RaisedOther v
  end.

(** [new Error(v)] for a [v] that is neither [null] nor [undefined]. *)
Definition newError (v : JsValue) : Raised :=
  match v with
  | JStr s => RaisedError (Said (Message s))
  | _ => RaisedError (StringOf v)
  end.

(** A handler: it updates the state, appends to the trace of effects
    and either returns or throws; what it wrote to the state before a
    throw stays written. *)
Definition UI (A : Type) : Type :=
  State -> list Effect -> (A + Raised) * State * list Effect.

Definition pure {A} (a : A) : UI A := fun st tr => (inl a, st, tr).

Definition raise {A} (e : Raised) : UI A := fun st tr => (inr e, st, tr).

Definition andThen {A B} (m : UI A) (k : A -> UI B) : UI B :=
  fun st tr =>
    match m st tr with
    | (inl a, st', tr') => k a st' tr'
    | (inr e, st', tr') => (inr e, st', tr')
    end.

(** A call of a setter. *)
Definition set (f : State -> State) : UI unit := fun st tr => (inl tt, f st, tr).

(** [try { m } catch (err) { handler err } finally { cleanup }] *)
Definition tryCatchFinally {A} (m : UI A) (handler : Raised -> UI A)
  (cleanup : UI unit) : UI A :=
  fun st tr =>
    let '(r, st1, tr1) :=
      match m st tr with
      | (inl a, st', tr') => (inl a, st', tr')
      | (inr e, st', tr') => handler e st' tr'
      end in
    match cleanup st1 tr1 with
    | (inl _, st2, tr2) => (r, st2, tr2)
    | (inr e, st2, tr2) => (inr e, st2, tr2)
    end.

(** [await] of a platform call and the answer it got. *)
Definition await {A} (e : Effect) (answer : A + Thrown) : UI A :=
  fun st tr =>
    (match answer with inl a => inl a | inr err => inr (ofThrown err) end,
     st, tr ++ [e]).

Notation "x <~ m ;; k" := (andThen m (fun x => k))
  (at level 61, m at next level, right associativity).
Notation "m >> k" := (andThen m (fun _ => k))
  (at level 61, right associativity).

(** What [fetch] resolves with, as the handlers look at it: a response
    outside the 2xx range, whose body they read as any JSON, or a 2xx
    response, whose body they read at the type [Data]. *)
Inductive Fetched (Data : Type) :=
| Refused (st : Z) (json : JsValue + Thrown)
| Accepted (json : Data + Thrown).
Arguments Refused {Data} st json.
Arguments Accepted {Data} json.

Definition Api (Data : Type) : Type :=
  jsstring -> RequestInit -> Fetched Data + Thrown.

(** [await response.json().catch(() => ({}))] *)
Definition jsonOrEmpty (json : JsValue + Thrown) : UI JsValue :=
  fun st tr =>
    (inl (match json with inl v => v | inr _ => JObj [] end), st, tr ++ [ResponseJson]).

Definition jsonHeaders : list (jsstring * jsstring) :=
  [(lit "Content-Type", lit "application/json")].

(** A selected file, as [handleFileChange] looks at it. *)
Record File := { type : jsstring }.

(** [handleFileChange]: the new state, and the file handed to
    [reader.readAsDataURL] when there is one. *)
Definition handleFileChange (file : option File) (st : State) : State * option File :=
  match file with
  | None => (setImagePreview None (setImageDataUrl None st), None)
  | Some f =>
      match dropPrefix (lit "image/") (type f) with
      | None => (setError (Some (text "Please choose an image file.")) st, None)
      | Some _ => (st, Some f)
      end
  end.

(** [reader.onload], with [reader.result] when it is a string. *)
Definition onload (result : option jsstring) (st : State) : State :=
  match result with
  | Some s => setImageDataUrl (Some s) (setImagePreview (Some s) st)
  | None => st
  end.

(** [err instanceof Error ? err.message : fallback] *)
Definition messageOf (fallback : string) (err : Raised) : Shown :=
  match err with
  | RaisedError m => m
  | RaisedOther _ => text fallback
  end.
Arguments messageOf fallback%_string err.

Definition handleGenerate (fetch : Api GenerateResponse.t) : UI unit :=
  fun st0 =>
  (match imageDataUrl st0 with
   | None | Some [] =>
       set (setError (Some (text "Upload a photo of your leftovers first.")))
   | Some image =>
       set (setLoading true) >>
       set (setError None) >>
       set (setRecipes []) >>
       set (setSummary None) >>
       set (setWhatsAppResult None) >>
       tryCatchFinally
         (let url := lit "/api/generate" in
          let init :=
            {| method := lit "POST";
               headers := jsonHeaders;
               payload := JObj [(lit "imageDataUrl", JStr image);
                                (lit "notes", JStr (trim (notes st0)))] |} in
          response <~ await (Fetch url init) (fetch url init) ;;
          match response with
          | Refused _ json =>
              body <~ jsonOrEmpty json ;;
              raise (newError (coalesce (optMember body (lit "error"))
                                        (JStr (lit "Unable to generate recipes."))))
          | Accepted json =>
              data <~ await ResponseJson json ;;
              set (setRecipes (GenerateResponse.recipes data)) >>
              set (setSummary (Some (GenerateResponse.summary data)))
          end)
         (fun err =>
            set (setError
                   (Some (messageOf "Something went wrong while generating recipes." err))))
         (set (setLoading false))
   end) st0.

(** [combinedMessage], the memo of the current recipes and summary. *)
Definition combinedMessage (st : State) : jsstring :=
  Page.combinedMessage (recipes st) (summary st).

(** [data.status]: reading a property of [null] or [undefined] throws. *)
Definition member (v : JsValue) (name : jsstring) : UI JsValue :=
  if nullish v then raise (RaisedError (CannotRead name v))
  else pure (optMember v name).

Definition handleSendToWhatsApp (fetch : Api JsValue) : UI unit :=
  fun st0 =>
  (match combinedMessage st0 with
   | [] => pure tt
   | message =>
       set (setSendingToWhatsApp true) >>
       set (setWhatsAppResult None) >>
       set (setError None) >>
       tryCatchFinally
         (let url := lit "/api/whatsapp" in
          let init :=
            {| method := lit "POST";
               headers := jsonHeaders;
               payload :=
                 JObj [(lit "message", JStr message);
                       (lit "phoneNumber",
                        match trim (sendPhone st0) with
                        | [] => JUndefined
                        | phone => JStr phone
                        end)] |} in
          response <~ await (Fetch url init) (fetch url init) ;;
          match response with
          | Refused _ json =>
              body <~ jsonOrEmpty json ;;
              raise (newError (coalesce (optMember body (lit "error"))
                                        (JStr (lit "Failed to send WhatsApp message."))))
          | Accepted json =>
              data <~ await ResponseJson json ;;
              status <~ member data (lit "status") ;;
              set (setWhatsAppResult
                     (Some (match status with
                            | JStr s =>
                                if JsString.eqb s (lit "queued")
                                then lit "WhatsApp message queued successfully!"
                                else lit "WhatsApp message sent."
                            | _ => lit "WhatsApp message sent."
                            end)))
          end)
         (fun err =>
            set (setError
                   (Some (messageOf "Something went wrong while sending WhatsApp message."
                            err))))
         (set (setSendingToWhatsApp false))
   end) st0.

(** A handler run from a state, with an empty trace. *)
Definition runFrom {A} (m : UI A) (st : State) : (A + Raised) * State * list Effect :=
  m st [].

End HomePage.

(** ** Vocabulary of the specification *)

(** *** The validator without its issue report

    [validate t v] is the output of the schema [t] on [v] when no issue
    is raised, and [None] otherwise.  It does not depend on the path at
    which the value sits; [safeParse_validate] relates it to
    [safeParse]. *)

Definition passes (s : jsstring) (c : StringCheck) : bool :=
  match c with
  | CheckMin n _ => n <=? length s
  | CheckRegex test _ => test s
  end.

Definition sizeWithin (lo hi : option nat) (n : nat) : bool :=
  match lo with Some l => l <=? n | None => true end &&
  match hi with Some h => n <=? h | None => true end.

Fixpoint traverse {A B : Type} (f : A -> option B) (l : list A) : option (list B) :=
  match l with
  | [] => Some []
  | x :: rest =>
      match f x, traverse f rest with
      | Some y, Some ys => Some (y :: ys)
      | _, _ => None
      end
  end.

Fixpoint validate (t : ZodType) (v : JsValue) {struct t} : option JsValue :=
  match t with
  | ZodString checks =>
      match v with
      | JStr s => if forallb (passes s) checks then Some v else None
      | _ => None
      end
  | ZodOptional inner =>
      match v with
      | JUndefined => Some JUndefined
      | _ => validate inner v
      end
  | ZodArray element lo hi =>
      match v with
      | JArr items =>
          if sizeWithin lo hi (length items)
          then option_map JArr (traverse (validate element) items)
          else None
      | _ => None
      end
  | ZodObject shape =>
      match v with
      | JObj fields =>
          option_map JObj
            ((fix members (shape : list (jsstring * ZodType))
                : option (list (jsstring * JsValue)) :=
                match shape with
                | [] => Some []
                | (k, t') :: rest =>
                    match validate t' (getField k fields), members rest with
                    | Some value, Some out =>
                        Some (if hasKey k fields || negb (isUndefined value)
                              then (k, value) :: out else out)
                    | _, _ => None
                    end
                end) shape)
      | _ => None
      end
  end.

(** The outcome of [_parse], read as an optional output. *)
Definition outcome (r : list ZodIssue * JsValue) : option JsValue :=
  match r with
  | ([], d) => Some d
  | (_ :: _, _) => None
  end.

(** Structural induction on schemas, through the shape of an object. *)
Definition ZodType_nested_ind (P : ZodType -> Prop)
  (Hstring : forall checks, P (ZodString checks))
  (Hoptional : forall inner, P inner -> P (ZodOptional inner))
  (Harray : forall element lo hi, P element -> P (ZodArray element lo hi))
  (Hobject : forall shape, Forall (fun kt => P (snd kt)) shape -> P (ZodObject shape))
  : forall t, P t :=
  fix F (t : ZodType) : P t :=
    match t with
    | ZodString checks => Hstring checks
    | ZodOptional inner => Hoptional inner (F inner)
    | ZodArray element lo hi => Harray element lo hi (F element)
    | ZodObject shape =>
        Hobject shape
          ((fix G (l : list (jsstring * ZodType)) : Forall (fun kt => P (snd kt)) l :=
              match l with
              | [] => Forall_nil _
              | kt :: rest => Forall_cons kt (F (snd kt)) (G rest)
              end) shape)
    end.

(** *** Bounds of the data model (specification, section 3) *)

Definition stringAtLeast (n : nat) (v : JsValue) : bool :=
  match v with JStr s => n <=? length s | _ => false end.

Definition arrayAtLeast (n : nat) (each : JsValue -> bool) (v : JsValue) : bool :=
  match v with
  | JArr items => (n <=? length items) && forallb each items
  | _ => false
  end.

(** Recipe: name of 3 characters or more, description of 10 or more, 3
    ingredients or more of 2 characters or more each, 3 steps or more of
    5 characters or more each. *)
Definition recipeWithinBounds (v : JsValue) : bool :=
  match v with
  | JObj f =>
      stringAtLeast 3 (getField (lit "name") f)
      && stringAtLeast 10 (getField (lit "description") f)
      && arrayAtLeast 3 (stringAtLeast 2) (getField (lit "ingredients") f)
      && arrayAtLeast 3 (stringAtLeast 5) (getField (lit "steps") f)
  | _ => false
  end.

(** GenerationResult: summary of 10 characters or more, 3 to 5 recipes. *)
Definition resultWithinBounds (v : JsValue) : bool :=
  match v with
  | JObj f =>
      stringAtLeast 10 (getField (lit "summary") f)
      && match getField (lit "recipes") f with
         | JArr recipes =>
             (3 <=? length recipes) && (length recipes <=? 5)
             && forallb recipeWithinBounds recipes
         | _ => false
         end
  | _ => false
  end.

(** The element schema of [payloadSchema], with its chained calls applied. *)
Definition recipeSchema : ZodType :=
  ZodObject [
    (lit "name", ZodString [CheckMin 3 None]);
    (lit "description", ZodString [CheckMin 10 None]);
    (lit "ingredients", ZodArray (ZodString [CheckMin 2 None]) (Some 3) None);
    (lit "steps", ZodArray (ZodString [CheckMin 5 None]) (Some 3) None)
  ].

(** A reply restricted to the fields the data model declares. *)
Definition declaredRecipe (v : JsValue) : JsValue :=
  match v with
  | JObj f =>
      JObj [(lit "name", getField (lit "name") f);
            (lit "description", getField (lit "description") f);
            (lit "ingredients", getField (lit "ingredients") f);
            (lit "steps", getField (lit "steps") f)]
  | _ => v
  end.

Definition declaredResult (v : JsValue) : JsValue :=
  match v with
  | JObj f =>
      JObj [(lit "summary", getField (lit "summary") f);
            (lit "recipes",
               match getField (lit "recipes") f with
               | JArr recipes => JArr (map declaredRecipe recipes)
               | other => other
               end)]
  | _ => v
  end.

(** *** Runs of the Generation Service

    [GenerateRun key openai request response trace]: the route answers
    [response] and leaves [trace], one constructor per path through
    [Generate.POST]. *)

Definition errorResponse (st : Z) (m : ErrorMessage) (details : option ErrorDetails)
  : Response :=
  {| status := st; body := ErrorBody m details |}.

Definition generationFailed : jsstring := lit "Recipe generation failed".

Inductive ReplyOutcome : Generate.ModelResponse + Thrown -> Response -> list Effect -> Prop :=
| ReplyRejected error :
    ReplyOutcome (inr error)
      (errorResponse 500
         (messageOr (lit "Recipe generation failed unexpectedly.") error) None)
      [ConsoleError generationFailed error]
| ReplyEmpty response :
    Generate.output_text response = None \/ Generate.output_text response = Some [] ->
    ReplyOutcome (inl response)
      (errorResponse 500 (Message (lit "Model response was empty.")) None)
      [ConsoleError generationFailed
         (ThrownError (Message (lit "Model response was empty.")))]
| ReplyNotJson response raw :
    Generate.output_text response = Some raw -> raw <> [] ->
    JSON.parse raw = None ->
    ReplyOutcome (inl response)
      (errorResponse 500 (Message Generate.retakeMessage) None)
      [ConsoleError generationFailed (ThrownError (Message Generate.retakeMessage))]
| ReplyOutOfSchema response raw payload issues :
    Generate.output_text response = Some raw -> raw <> [] ->
    JSON.parse raw = Some payload ->
    validate Generate.payloadSchema payload = None -> issues <> [] ->
    ReplyOutcome (inl response)
      (errorResponse 500 (ZodErrorMessage issues) None)
      [ConsoleError generationFailed (ThrownError (ZodErrorMessage issues))]
| ReplyAccepted response raw payload data :
    Generate.output_text response = Some raw -> raw <> [] ->
    JSON.parse raw = Some payload ->
    validate Generate.payloadSchema payload = Some data ->
    ReplyOutcome (inl response)
      {| status := 200; body := GenerationResult data |} [].

Inductive GenerateRun (key : EnvVar) (openai : Generate.OpenAI) (request : Request)
  : Response -> list Effect -> Prop :=
| GenUnconfigured :
    truthy (envValue key) = false ->
    GenerateRun key openai request
      (errorResponse 500 (Message (lit "OPENAI_API_KEY is not set on the server.")) None)
      []
| GenInvalidJson error :
    truthy (envValue key) = true ->
    request_json request = inr error ->
    GenerateRun key openai request
      (errorResponse 400 (Message (lit "Invalid JSON body."))
         (Some (DetailsString error)))
      [RequestJson]
| GenInvalidRequest body issues :
    truthy (envValue key) = true ->
    request_json request = inl body ->
    validate Generate.requestSchema body = None -> issues <> [] ->
    GenerateRun key openai request
      (errorResponse 400 (Message (lit "Request validation failed."))
         (Some (DetailsFlatten issues)))
      [RequestJson]
| GenCalled body data response log :
    truthy (envValue key) = true ->
    request_json request = inl body ->
    validate Generate.requestSchema body = Some data ->
    ReplyOutcome (openai (Generate.createParams data)) response log ->
    GenerateRun key openai request response
      ([RequestJson; ResponsesCreate (Generate.createParams data)] ++ log).

(** *** Requests to the Generation Service *)

(** The [imageDataUrl] a request carries ([undefined] when the body is
    not an object holding one). *)
Definition imagePayload (request : Request) : JsValue :=
  match request_json request with
  | inl (JObj f) => getField (lit "imageDataUrl") f
  | _ => JUndefined
  end.

(** The prefix [data:image/*;base64,]. *)
Definition hasDataUrlPrefix (s : jsstring) : Prop :=
  exists subtype rest,
    s = lit "data:image/" ++ subtype ++ lit ";base64," ++ rest.

(** The image payload is empty, or its prefix is not
    [data:image/*;base64,]. *)
Definition malformedImage (request : Request) : Prop :=
  forall s, imagePayload request = JStr s -> s = [] \/ ~ hasDataUrlPrefix s.

(** The model was called and answered with the text [raw]. *)
Definition modelReplied (openai : Generate.OpenAI) (trace : list Effect) (raw : jsstring)
  : Prop :=
  exists params reply,
    In (ResponsesCreate params) trace /\
    openai params = inl reply /\
    Generate.output_text reply = Some raw.

(** A literal written with ['] in place of the double quote. *)
Definition litq (s : string) : jsstring :=
  map (fun c => if N.eqb c 39 then 34%N else c) (lit s).
Arguments litq s%_string.

(** Sample inputs. *)
Definition sampleKey : EnvVar :=
  getenv [(lit "OPENAI_API_KEY", lit "sk-test")] (lit "OPENAI_API_KEY").

Definition sampleImage : jsstring := lit "data:image/png;base64,iVBORw0KGgo=".

Definition sampleRequest : Request :=
  {| request_json := inl (JObj [(lit "imageDataUrl", JStr sampleImage)]) |}.

Definition sampleReply : jsstring := litq
"{'summary':'Detected tomatoes, pasta, basil',
  'recipes':[
   {'name':'Quick Tomato Basil Pasta','description':'A fast weeknight pasta.',
    'ingredients':['200g pasta','2 tomatoes','basil'],
    'steps':['Boil pasta','Saute tomatoes','Combine']},
   {'name':'Tomato Bruschetta','description':'Toasted bread with tomato.',
    'ingredients':['4 slices bread','2 tomatoes','olive oil'],
    'steps':['Toast bread','Dice tomatoes','Top and serve'],'minutes':10},
   {'name':'Basil Pesto','description':'A quick pesto for the pasta.',
    'ingredients':['basil','olive oil','garlic'],
    'steps':['Chop basil','Blend with oil','Season']}]}".

(** Valid JSON with only two recipes. *)
Definition shortReply : jsstring := litq
"{'summary':'Detected tomatoes, pasta, basil',
  'recipes':[
   {'name':'Quick Tomato Basil Pasta','description':'A fast weeknight pasta.',
    'ingredients':['200g pasta','2 tomatoes','basil'],
    'steps':['Boil pasta','Saute tomatoes','Combine']},
   {'name':'Tomato Bruschetta','description':'Toasted bread with tomato.',
    'ingredients':['4 slices bread','2 tomatoes','olive oil'],
    'steps':['Toast bread','Dice tomatoes','Top and serve']}]}".

(** A provider that always answers with the same text. *)
Definition replying (raw : jsstring) : Generate.OpenAI :=
  fun _ => inl {| Generate.output_text := Some raw |}.

(** *** Runs of the Delivery Service *)

(** Both messaging credentials are set (and not empty). *)
Definition configured (env : WhatsApp.WhatsAppEnv) : bool :=
  truthy (envValue (WhatsApp.token env)) && truthy (envValue (WhatsApp.phoneId env)).

(** The [phoneNumber] a request carries ([undefined] when the body is not
    an object holding one). *)
Definition suppliedRecipient (request : Request) : JsValue :=
  match request_json request with
  | inl (JObj f) => getField (lit "phoneNumber") f
  | _ => JUndefined
  end.

(** [parsed.data.phoneNumber ?? env.defaultRecipient] *)
Definition resolvedRecipient (env : WhatsApp.WhatsAppEnv) (data : JsValue) : JsValue :=
  coalesce (optMember data (lit "phoneNumber")) (envValue (WhatsApp.defaultRecipient env)).

(** The body read from the messaging API's response, [{}] when it cannot
    be read. *)
Definition bodyOf (r : WhatsApp.FetchResponse) : JsValue :=
  match WhatsApp.response_json r with inl v => v | inr _ => JObj [] end.

Definition credentialsMessage : jsstring :=
  lit "WhatsApp credentials are not configured. Set WHATSAPP_ACCESS_TOKEN and WHATSAPP_PHONE_NUMBER_ID.".

Definition sendFailed : jsstring := lit "WhatsApp send failed".

(** [responseBody?.messages ? "queued" : "sent"] and
    [responseBody?.messages?.[0]?.id ?? null] *)
Definition reportedState (responseBody : JsValue) : jsstring :=
  if truthy (optMember responseBody (lit "messages")) then lit "queued" else lit "sent".

Definition reportedId (responseBody : JsValue) : JsValue :=
  coalesce (optMember (optIndex (optMember responseBody (lit "messages")) 0) (lit "id"))
           JNull.

Inductive SendOutcome : WhatsApp.FetchResponse + Thrown -> Response -> list Effect -> Prop :=
| SendRejected error :
    SendOutcome (inr error)
      (errorResponse 502
         (messageOr (lit "WhatsApp delivery failed unexpectedly.") error) None)
      [ConsoleError sendFailed error]
| SendRefused r :
    WhatsApp.ok r = false ->
    SendOutcome (inl r)
      (errorResponse 502 (WhatsAppApiError (WhatsApp.response_status r) (bodyOf r)) None)
      [ResponseJson;
       ConsoleError sendFailed
         (ThrownError (WhatsAppApiError (WhatsApp.response_status r) (bodyOf r)))]
| SendAccepted r :
    WhatsApp.ok r = true ->
    SendOutcome (inl r)
      {| status := 200;
         body := DeliveryOutcome (reportedState (bodyOf r)) (reportedId (bodyOf r)) |}
      [ResponseJson].

Inductive DeliverRun (env : WhatsApp.WhatsAppEnv) (fetch : WhatsApp.Network)
  (request : Request) : Response -> list Effect -> Prop :=
| DelUnconfigured :
    configured env = false ->
    DeliverRun env fetch request
      (errorResponse 500 (Message credentialsMessage) None) []
| DelInvalidJson error :
    configured env = true ->
    request_json request = inr error ->
    DeliverRun env fetch request
      (errorResponse 400 (Message (lit "Invalid JSON body."))
         (Some (DetailsString error)))
      [RequestJson]
| DelInvalidRequest json issues :
    configured env = true ->
    request_json request = inl json ->
    validate WhatsApp.whatsappSchema json = None -> issues <> [] ->
    DeliverRun env fetch request
      (errorResponse 400 (Message (lit "Request validation failed."))
         (Some (DetailsFlatten issues)))
      [RequestJson]
| DelNoRecipient json data :
    configured env = true ->
    request_json request = inl json ->
    validate WhatsApp.whatsappSchema json = Some data ->
    truthy (resolvedRecipient env data) = false ->
    DeliverRun env fetch request
      (errorResponse 400
         (Message (lit "Provide a phoneNumber in the request or configure WHATSAPP_RECIPIENT."))
         None)
      [RequestJson]
| DelSent json data response log :
    configured env = true ->
    request_json request = inl json ->
    validate WhatsApp.whatsappSchema json = Some data ->
    truthy (resolvedRecipient env data) = true ->
    SendOutcome
      (fetch (WhatsApp.messagesUrl env)
             (WhatsApp.messageInit env (resolvedRecipient env data) data))
      response log ->
    DeliverRun env fetch request response
      ([RequestJson;
        Fetch (WhatsApp.messagesUrl env)
              (WhatsApp.messageInit env (resolvedRecipient env data) data)] ++ log).

(** The [to] field of the outbound messaging payload. *)
Definition outboundTo (init : RequestInit) : JsValue :=
  optMember (payload init) (lit "to").

(** The messaging API was called and answered with [r]. *)
Definition messagingAnswered (fetch : WhatsApp.Network) (trace : list Effect)
  (r : WhatsApp.FetchResponse) : Prop :=
  exists url init, In (Fetch url init) trace /\ fetch url init = inl r.

(** The outcome as the specification words it: [queued] when the body
    holds a [messages] array and [sent] otherwise; the identifier of the
    first message of that array when there is one, else [null]. *)
Definition isArray (v : JsValue) : bool :=
  match v with JArr _ => true | _ => false end.

Definition specifiedState (responseBody : JsValue) : jsstring :=
  if isArray (optMember responseBody (lit "messages")) then lit "queued" else lit "sent".

Definition specifiedId (responseBody : JsValue) : JsValue :=
  match optMember responseBody (lit "messages") with
  | JArr (first :: _) => coalesce (optMember first (lit "id")) JNull
  | _ => JNull
  end.

(** Sample configuration and requests of the Delivery Service. *)
Definition sampleEnv : WhatsApp.WhatsAppEnv :=
  WhatsApp.readEnv
    [(lit "WHATSAPP_ACCESS_TOKEN", lit "EAAG-token");
     (lit "WHATSAPP_PHONE_NUMBER_ID", lit "106540352242922");
     (lit "WHATSAPP_RECIPIENT", lit "15550001111")].

Definition noDefault : WhatsApp.WhatsAppEnv :=
  WhatsApp.readEnv
    [(lit "WHATSAPP_ACCESS_TOKEN", lit "EAAG-token");
     (lit "WHATSAPP_PHONE_NUMBER_ID", lit "106540352242922")].

Definition noCredentials : WhatsApp.WhatsAppEnv := WhatsApp.readEnv [].

Definition sampleMessage : JsValue := JStr (lit "Three recipes for tonight").

Definition deliveryRequest (fields : list (jsstring * JsValue)) : Request :=
  {| request_json := inl (JObj fields) |}.

(** A messaging API that always answers 200 with the given body. *)
Definition answering (responseBody : JsValue) : WhatsApp.Network :=
  fun _ _ => inl {| WhatsApp.response_status := 200;
                    WhatsApp.response_json := inl responseBody |}.

Definition queuedBody : JsValue :=
  JObj [(lit "messaging_product", JStr (lit "whatsapp"));
        (lit "messages", JArr [JObj [(lit "id", JStr (lit "wamid.HBgL"))]])].

(** *** The transcript, as the specification describes it

    A title line, the summary, then for each recipe in order: its name
    under its 1-based index, its description, one bullet per ingredient,
    one numbered line per step, and an empty line. *)

Definition heading (i : nat) (r : Page.Recipe) : jsstring :=
  lit "*" ++ ofNat i ++ lit ". " ++ Page.name r ++ lit "*".

Definition bulleted (ingredient : jsstring) : jsstring :=
  Page.bullet ++ lit " " ++ ingredient.

Fixpoint numbered (k : nat) (steps : list jsstring) : list jsstring :=
  match steps with
  | [] => []
  | step :: rest => (ofNat k ++ lit ". " ++ step) :: numbered (S k) rest
  end.

Definition recipeBlock (i : nat) (r : Page.Recipe) : list jsstring :=
  [heading i r; Page.description r; lit "_Ingredients_:"]
  ++ map bulleted (Page.ingredients r)
  ++ [lit "_Steps_:"]
  ++ numbered 1 (Page.steps r)
  ++ [[]].

Fixpoint recipeBlocks (i : nat) (recipes : list Page.Recipe) : list jsstring :=
  match recipes with
  | [] => []
  | r :: rest => recipeBlock i r ++ recipeBlocks (S i) rest
  end.

Definition summaryLine (summary : option jsstring) : jsstring :=
  match summary with
  | Some (c :: s) => (c :: s) ++ newline
  | _ => []
  end.

Definition transcriptLines (recipes : list Page.Recipe) (summary : option jsstring)
  : list jsstring :=
  Page.title :: summaryLine summary :: recipeBlocks 1 recipes.

(** The example of the specification, section 8. *)
Definition pasta : Page.Recipe :=
  {| Page.name := lit "Quick Tomato Basil Pasta";
     Page.description := lit "A fast weeknight pasta.";
     Page.ingredients := [lit "200g pasta"; lit "2 tomatoes"; lit "basil"];
     Page.steps := [lit "Boil pasta"; lit "Saute tomatoes"; lit "Combine"] |}.

Definition bruschetta : Page.Recipe :=
  {| Page.name := lit "Tomato Bruschetta";
     Page.description := lit "Toasted bread with tomato.";
     Page.ingredients := [lit "4 slices bread"; lit "2 tomatoes"; lit "olive oil"];
     Page.steps := [lit "Toast bread"; lit "Dice tomatoes"; lit "Top and serve"] |}.

Definition pesto : Page.Recipe :=
  {| Page.name := lit "Basil Pesto";
     Page.description := lit "A quick pesto for the pasta.";
     Page.ingredients := [lit "basil"; lit "olive oil"; lit "garlic"];
     Page.steps := [lit "Chop basil"; lit "Blend with oil"; lit "Season"] |}.

(** *** Further vocabulary of the two routes *)

(** The model provider was called and answered (or rejected). *)
Definition modelAnswered (openai : Generate.OpenAI) (trace : list Effect)
  (answer : Generate.ModelResponse + Thrown) : Prop :=
  exists params, In (ResponsesCreate params) trace /\ openai params = answer.

(** The [notes] a request carries. *)
Definition requestNotes (request : Request) : JsValue :=
  match request_json request with
  | inl (JObj f) => getField (lit "notes") f
  | _ => JUndefined
  end.

(** A string, or nothing at all. *)
Definition stringOrAbsent (v : JsValue) : bool :=
  match v with JUndefined | JStr _ => true | _ => false end.

(** The request body is an object whose image matches the data-URL
    pattern and whose notes, when present, are a string. *)
Definition acceptableRequest (request : Request) : bool :=
  match request_json request with
  | inl (JObj f) =>
      match getField (lit "imageDataUrl") f with
      | JStr s => Generate.dataUrlRegex s
      | _ => false
      end
      && stringOrAbsent (getField (lit "notes") f)
  | _ => false
  end.

(** The line of the instruction passage that carries the notes. *)
Definition notesLine (notes : JsValue) : jsstring :=
  match notes with
  | JStr (c :: s) => lit "Notes from the cook: " ++ c :: s
  | _ => lit "No additional notes provided."
  end.

Definition isConsoleError (e : Effect) : bool :=
  match e with ConsoleError _ _ => true | _ => false end.

(** What a run wrote with [console.error]. *)
Definition logged (trace : list Effect) : list Effect := filter isConsoleError trace.

(** The [message] a delivery request carries. *)
Definition requestMessage (request : Request) : JsValue :=
  match request_json request with
  | inl (JObj f) => getField (lit "message") f
  | _ => JUndefined
  end.

(** The recipient a delivery request resolves to under [env]. *)
Definition requestRecipient (env : WhatsApp.WhatsAppEnv) (request : Request) : JsValue :=
  coalesce (suppliedRecipient request) (envValue (WhatsApp.defaultRecipient env)).

(** The body is an object with a message of 10 code units or more and a
    [phoneNumber] that is a string or absent. *)
Definition wellFormedDelivery (request : Request) : bool :=
  match request_json request with
  | inl (JObj _) =>
      stringAtLeast 10 (requestMessage request)
      && stringOrAbsent (suppliedRecipient request)
  | _ => false
  end.

(** The messaging API was called and answered (or the call failed). *)
Definition messagingResult (fetch : WhatsApp.Network) (trace : list Effect)
  (answer : WhatsApp.FetchResponse + Thrown) : Prop :=
  exists url init, In (Fetch url init) trace /\ fetch url init = answer.

(** An environment variable that is missing or set to the empty string. *)
Definition unset (e : EnvVar) : Prop := e = None \/ e = Some [].

(** *** The page: events, and the wire to the routes *)

(** What can happen to the page: a file is chosen, the reader finishes,
    the notes or the phone field are edited, the form is submitted, the
    send control is clicked.  The last two carry the network they meet. *)
Inductive Event :=
| FileChosen (file : option HomePage.File)
| FileLoaded (result : option jsstring)
| NotesEdited (value : jsstring)
| PhoneEdited (value : jsstring)
| Submitted (fetch : HomePage.Api GenerateResponse.t)
| SendClicked (fetch : HomePage.Api JsValue).

Definition finalState {A} (r : (A + HomePage.Raised) * HomePage.State * list Effect)
  : HomePage.State := snd (fst r).

Definition react (st : HomePage.State) (e : Event) : HomePage.State :=
  match e with
  | FileChosen file => fst (HomePage.handleFileChange file st)
  | FileLoaded result => HomePage.onload result st
  | NotesEdited value => HomePage.setNotes value st
  | PhoneEdited value => HomePage.setSendPhone value st
  | Submitted fetch => finalState (HomePage.runFrom (HomePage.handleGenerate fetch) st)
  | SendClicked fetch => finalState (HomePage.runFrom (HomePage.handleSendToWhatsApp fetch) st)
  end.

(** The state after a sequence of events, from the initial one. *)
Definition after (events : list Event) : HomePage.State :=
  fold_left react events HomePage.initialState.

(** The request of the page to the Generation Service, and to the
    Delivery Service. *)
Definition generateInit (image notes : jsstring) : RequestInit :=
  {| method := lit "POST";
     headers := [(lit "Content-Type", lit "application/json")];
     payload := JObj [(lit "imageDataUrl", JStr image);
                      (lit "notes", JStr (trim notes))] |}.

Definition phoneField (sendPhone : jsstring) : JsValue :=
  match trim sendPhone with
  | [] => JUndefined
  | phone => JStr phone
  end.

Definition sendInit (message sendPhone : jsstring) : RequestInit :=
  {| method := lit "POST";
     headers := [(lit "Content-Type", lit "application/json")];
     payload := JObj [(lit "message", JStr message);
                      (lit "phoneNumber", phoneField sendPhone)] |}.

(** What [JSON.parse] reads back from the text [JSON.stringify] wrote:
    a property whose value is [undefined] is gone, an [undefined] array
    element has become [null]. *)
Fixpoint wire (v : JsValue) : JsValue :=
  match v with
  | JArr items =>
      JArr (map (fun x => match x with JUndefined => JNull | _ => wire x end) items)
  | JObj fields =>
      JObj ((fix members (fs : list (jsstring * JsValue)) : list (jsstring * JsValue) :=
               match fs with
               | [] => []
               | (k, x) :: rest =>
                   match x with
                   | JUndefined => members rest
                   | _ => (k, wire x) :: members rest
                   end
               end) fields)
  | _ => v
  end.

(** The request a route receives when the page fetches with [init]. *)
Definition received (init : RequestInit) : Request :=
  {| request_json := inl (wire (payload init)) |}.

(** A JSON value read at the type [GenerateResponse]. *)
Definition asString (v : JsValue) : option jsstring :=
  match v with JStr s => Some s | _ => None end.

Definition asStrings (v : JsValue) : option (list jsstring) :=
  match v with
  | JArr items => traverse asString items
  | _ => None
  end.

Definition asRecipe (v : JsValue) : option Page.Recipe :=
  match v with
  | JObj f =>
      match asString (getField (lit "name") f),
            asString (getField (lit "description") f),
            asStrings (getField (lit "ingredients") f),
            asStrings (getField (lit "steps") f) with
      | Some n, Some d, Some i, Some s =>
          Some {| Page.name := n; Page.description := d;
                  Page.ingredients := i; Page.steps := s |}
      | _, _, _, _ => None
      end
  | _ => None
  end.

Definition asGenerateResponse (v : JsValue) : option GenerateResponse.t :=
  match v with
  | JObj f =>
      match asString (getField (lit "summary") f), getField (lit "recipes") f with
      | Some s, JArr items =>
          option_map (fun rs => {| GenerateResponse.recipes := rs;
                                   GenerateResponse.summary := s |})
                     (traverse asRecipe items)
      | _, _ => None
      end
  | _ => None
  end.

(** A provider of the page's Generation call that always answers the
    same way. *)
Definition always {Data : Type} (answer : HomePage.Fetched Data + Thrown)
  : HomePage.Api Data := fun _ _ => answer.

Definition withImage (image : jsstring) : HomePage.State :=
  HomePage.onload (Some image) HomePage.initialState.

(** The bounds of the data model on a typed recipe. *)
Definition recipeBounds (r : Page.Recipe) : Prop :=
  3 <= length (Page.name r) /\
  10 <= length (Page.description r) /\
  3 <= length (Page.ingredients r) /\
  Forall (fun s => 2 <= length s) (Page.ingredients r) /\
  3 <= length (Page.steps r) /\
  Forall (fun s => 5 <= length s) (Page.steps r).

(** * Properties *)

(** ** Strings *)

Lemma jsstring_eqb_eq (a b : jsstring) : JsString.eqb a b = true <-> a = b.
Proof.
  revert b; induction a as [|x a IH]; intros [|y b]; simpl;
    try (split; [discriminate | discriminate]); try tauto.
  rewrite andb_true_iff, N.eqb_eq, IH.
  split; [intros [-> ->]; reflexivity | intros H; inversion H; auto].
Qed.

Lemma jsstring_eqb_refl (a : jsstring) : JsString.eqb a a = true.
Proof. apply jsstring_eqb_eq; reflexivity. Qed.

Lemma dropPrefix_app (p s r : jsstring) :
  dropPrefix p s = Some r -> s = p ++ r.
Proof.
  revert s; induction p as [|x p IH]; intros s; simpl.
  - intros H; inversion H; reflexivity.
  - destruct s as [|y s]; [discriminate|].
    destruct (N.eqb x y) eqn:E; [|discriminate].
    apply N.eqb_eq in E; subst y.
    intros H; apply IH in H; subst s; reflexivity.
Qed.

Lemma dropWhile_suffix (f : N -> bool) (s : jsstring) :
  exists t, s = t ++ dropWhile f s /\ forallb f t = true.
Proof.
  induction s as [|c s [t [IH Hall]]]; simpl.
  - exists []; split; reflexivity.
  - destruct (f c) eqn:Hc.
    + exists (c :: t); simpl; rewrite Hc, Hall; split; [f_equal; exact IH | reflexivity].
    + exists []; split; reflexivity.
Qed.

(** [trimEnd] removes whitespace from the end and nothing else. *)
Lemma trimEnd_suffix (s : jsstring) :
  exists trailing,
    s = trimEnd s ++ trailing /\ forallb isWhiteSpace trailing = true.
Proof.
  unfold trimEnd.
  destruct (dropWhile_suffix isWhiteSpace (rev s)) as [t [Heq Hall]].
  exists (rev t). split.
  - rewrite <- rev_app_distr, <- Heq, rev_involutive. reflexivity.
  - rewrite forallb_forall in *. intros c Hc. apply Hall.
    apply in_rev. exact Hc.
Qed.

(** ** [JSON.parse] and the image pattern on sample texts *)

Example parse_object :
  JSON.parse (litq " { 'a' : [1, true, null], 'b' : 'x\u0041' , 'a' : 'last' } ")
  = Some (JObj [(lit "a", JStr (lit "last")); (lit "b", JStr (lit "xA"))]).
Proof. vm_compute. reflexivity. Qed.

Example parse_rejects_trailing_comma : JSON.parse (litq "[1,2,]") = None.
Proof. vm_compute. reflexivity. Qed.

Example parse_rejects_prose : JSON.parse (litq "Sure! {'summary':'...'}") = None.
Proof. vm_compute. reflexivity. Qed.

Example parse_rejects_code_fence : JSON.parse (lit "```json {} ```") = None.
Proof. vm_compute. reflexivity. Qed.

Example dataUrl_png : Generate.dataUrlRegex sampleImage = true.
Proof. vm_compute. reflexivity. Qed.

Example dataUrl_svg : Generate.dataUrlRegex (lit "data:image/svg+xml;base64,PHN2Zz4=") = true.
Proof. vm_compute. reflexivity. Qed.

Example dataUrl_no_subtype : Generate.dataUrlRegex (lit "data:image/;base64,AAAA") = false.
Proof. vm_compute. reflexivity. Qed.

Example dataUrl_text : Generate.dataUrlRegex (lit "data:text/plain;base64,aGVsbG8=") = false.
Proof. vm_compute. reflexivity. Qed.

(** ** The validator *)

Lemma flat_map_checks_nil (p : list PathSegment) (s : jsstring) (checks : list StringCheck) :
  flat_map (runStringCheck p s) checks = [] <-> forallb (passes s) checks = true.
Proof.
  induction checks as [|c checks IH]; simpl.
  - tauto.
  - rewrite andb_true_iff, <- IH.
    assert (Hc : runStringCheck p s c = [] <-> passes s c = true).
    { destruct c as [n msg | test msg]; simpl.
      - destruct (length s <? n) eqn:E.
        + apply Nat.ltb_lt in E. split; [discriminate|].
          intros H; apply Nat.leb_le in H; lia.
        + apply Nat.ltb_ge in E. split; [|reflexivity].
          intros _; apply Nat.leb_le; exact E.
      - destruct (test s); split; try reflexivity; discriminate. }
    rewrite <- Hc. split.
    + intros H; apply app_eq_nil in H; exact H.
    + intros [-> ->]; reflexivity.
Qed.

Lemma outcome_items (element : ZodType) (items : list JsValue) :
  (forall p v, outcome (_parse element p v) = validate element v) ->
  forall p i,
    let results := mapiFrom (fun i x => _parse element (p ++ [PathIndex i]) x) i items in
    match concat (map fst results) with
    | [] => traverse (validate element) items = Some (map snd results)
    | _ :: _ => traverse (validate element) items = None
    end.
Proof.
  intros IH p. induction items as [|x items IHitems]; intros i; simpl.
  - reflexivity.
  - specialize (IHitems (S i)). simpl in IHitems.
    rewrite <- (IH (p ++ [PathIndex i]) x).
    destruct (_parse element (p ++ [PathIndex i]) x) as [[|iss1 issr] d]; simpl.
    + destruct (concat _); rewrite IHitems; reflexivity.
    + reflexivity.
Qed.

Lemma outcome_parse (t : ZodType) :
  forall p v, outcome (_parse t p v) = validate t v.
Proof.
  induction t as [checks | inner IH | element lo hi IH | shape IH]
    using ZodType_nested_ind; intros p v.
  - destruct v; try reflexivity. simpl.
    destruct (forallb (passes s) checks) eqn:E.
    + apply (flat_map_checks_nil p) in E. rewrite E. reflexivity.
    + destruct (flat_map (runStringCheck p s) checks) eqn:F; [|reflexivity].
      apply flat_map_checks_nil in F. congruence.
  - destruct v; simpl; try apply IH. reflexivity.
  - destruct v; try reflexivity. simpl.
    pose proof (outcome_items element items IH p 0) as Hitems. simpl in Hitems.
    unfold sizeWithin.
    destruct lo as [l|], hi as [h|]; simpl;
      repeat match goal with
      | |- context [?a <? ?b] =>
          let E := fresh "E" in
          destruct (a <? b) eqn:E;
          [apply Nat.ltb_lt in E | apply Nat.ltb_ge in E]
      | |- context [?a <=? ?b] =>
          let E := fresh "E" in
          destruct (a <=? b) eqn:E;
          [apply Nat.leb_le in E | apply Nat.leb_gt in E]
      end; simpl; try lia; try reflexivity;
      destruct (concat _); rewrite Hitems; reflexivity.
  - destruct v; try reflexivity. simpl.
    induction IH as [|[k t'] rest Hkt Hrest IHrest]; simpl.
    + reflexivity.
    + simpl in Hkt. rewrite <- (Hkt (p ++ [PathKey k]) (getField k fields)).
      destruct (_parse t' (p ++ [PathKey k]) (getField k fields)) as [[|i1 ir] value];
        simpl.
      * match type of IHrest with
        | outcome (let (_, _) := ?mp in _) = option_map JObj ?mv =>
            destruct mp as [[|j1 jr] out]; destruct mv as [out'|];
              simpl in IHrest |- *; try discriminate; try reflexivity
        end.
        inversion IHrest; reflexivity.
      * match type of IHrest with
        | outcome (let (_, _) := ?mp in _) = _ => destruct mp as [js out]
        end.
        reflexivity.
Qed.

Lemma safeParse_success (t : ZodType) (v d : JsValue) :
  safeParse t v = ParseSuccess d <-> validate t v = Some d.
Proof.
  unfold safeParse. rewrite <- (outcome_parse t [] v).
  destruct (_parse t [] v) as [[|i iss] d']; simpl; split; intros H;
    try discriminate; inversion H; reflexivity.
Qed.

Lemma safeParse_failure (t : ZodType) (v : JsValue) :
  validate t v = None ->
  exists issues, issues <> [] /\ safeParse t v = ParseFailure issues.
Proof.
  unfold safeParse. rewrite <- (outcome_parse t [] v).
  destruct (_parse t [] v) as [[|i iss] d']; simpl; intros H; [discriminate|].
  exists (i :: iss). split; [discriminate | reflexivity].
Qed.

Lemma safeParse_cases (t : ZodType) (v : JsValue) :
  (exists d, validate t v = Some d /\ safeParse t v = ParseSuccess d) \/
  (exists issues, validate t v = None /\ issues <> [] /\
                  safeParse t v = ParseFailure issues).
Proof.
  destruct (validate t v) as [d|] eqn:E.
  - left. exists d. split; [reflexivity | apply safeParse_success; exact E].
  - right. destruct (safeParse_failure t v E) as [issues [Hne Hf]].
    exists issues. auto.
Qed.

Lemma validate_object_nil (fields : list (jsstring * JsValue)) :
  validate (ZodObject []) (JObj fields) = Some (JObj []).
Proof. reflexivity. Qed.

Lemma validate_object_cons (k : jsstring) (t : ZodType)
  (rest : list (jsstring * ZodType)) (fields : list (jsstring * JsValue)) :
  validate (ZodObject ((k, t) :: rest)) (JObj fields) =
  match validate t (getField k fields), validate (ZodObject rest) (JObj fields) with
  | Some value, Some (JObj out) =>
      Some (JObj (if hasKey k fields || negb (isUndefined value)
                  then (k, value) :: out else out))
  | _, _ => None
  end.
Proof.
  simpl. destruct (validate t (getField k fields)) as [value|]; [|reflexivity].
  match goal with |- context [option_map JObj (match ?m with _ => _ end)] =>
    destruct m as [out|] end; reflexivity.
Qed.

Lemma validate_string_min (n : nat) (msg : option jsstring) (v : JsValue) :
  validate (ZodString [CheckMin n msg]) v = if stringAtLeast n v then Some v else None.
Proof.
  destruct v; try reflexivity. simpl. rewrite andb_true_r. reflexivity.
Qed.

Lemma traverse_each (f : JsValue -> option JsValue) (good : JsValue -> bool)
  (norm : JsValue -> JsValue) (items : list JsValue) :
  (forall x, f x = if good x then Some (norm x) else None) ->
  traverse f items = if forallb good items then Some (map norm items) else None.
Proof.
  intros Hf. induction items as [|x items IH]; simpl; [reflexivity|].
  rewrite Hf, IH. destruct (good x), (forallb good items); reflexivity.
Qed.

Lemma validate_array (element : ZodType) (lo hi : option nat)
  (good : JsValue -> bool) (norm : JsValue -> JsValue) (v : JsValue) :
  (forall x, validate element x = if good x then Some (norm x) else None) ->
  validate (ZodArray element lo hi) v =
  match v with
  | JArr items =>
      if sizeWithin lo hi (length items) && forallb good items
      then Some (JArr (map norm items)) else None
  | _ => None
  end.
Proof.
  intros Hel. destruct v; try reflexivity. simpl.
  rewrite (traverse_each _ good norm items Hel).
  destruct (sizeWithin lo hi (length items)), (forallb good items); reflexivity.
Qed.

Lemma validate_array_min (element : ZodType) (n : nat) (good : JsValue -> bool)
  (norm : JsValue -> JsValue) (v : JsValue) :
  (forall x, validate element x = if good x then Some (norm x) else None) ->
  validate (ZodArray element (Some n) None) v =
  if arrayAtLeast n good v
  then Some (match v with JArr items => JArr (map norm items) | _ => v end)
  else None.
Proof.
  intros Hel. rewrite (validate_array _ _ _ good norm v Hel).
  destruct v; try reflexivity. unfold sizeWithin, arrayAtLeast.
  rewrite andb_true_r. reflexivity.
Qed.

Lemma map_id_ext {A} (f : A -> A) (l : list A) :
  (forall x, f x = x) -> map f l = l.
Proof. intros H. induction l; simpl; congruence. Qed.

Lemma validate_string_array (n m : nat) (v : JsValue) :
  validate (ZodArray (ZodString [CheckMin m None]) (Some n) None) v =
  if arrayAtLeast n (stringAtLeast m) v then Some v else None.
Proof.
  rewrite (validate_array_min _ n (stringAtLeast m) (fun x => x)).
  - destruct v; try reflexivity. rewrite map_id_ext; reflexivity.
  - intros x. apply validate_string_min.
Qed.

Lemma payloadSchema_unfold :
  Generate.payloadSchema =
  ZodObject [
    (lit "summary", ZodString [CheckMin 10 None]);
    (lit "recipes", ZodArray recipeSchema (Some 3) (Some 5))
  ].
Proof. reflexivity. Qed.

Ltac bool_cases b :=
  let E := fresh "E" in
  destruct b eqn:E; cbn [andb]; [|try rewrite !andb_false_r; reflexivity].

Lemma validate_recipe (v : JsValue) :
  validate recipeSchema v =
  if recipeWithinBounds v then Some (declaredRecipe v) else None.
Proof.
  destruct v as [| | | | |items|f]; try reflexivity.
  unfold recipeSchema.
  rewrite !validate_object_cons, validate_object_nil,
    !validate_string_min, !validate_string_array.
  unfold recipeWithinBounds, declaredRecipe.
  bool_cases (stringAtLeast 3 (getField (lit "name") f)).
  bool_cases (stringAtLeast 10 (getField (lit "description") f)).
  bool_cases (arrayAtLeast 3 (stringAtLeast 2) (getField (lit "ingredients") f)).
  bool_cases (arrayAtLeast 3 (stringAtLeast 5) (getField (lit "steps") f)).
  destruct (getField (lit "name") f); try discriminate.
  destruct (getField (lit "description") f); try discriminate.
  destruct (getField (lit "ingredients") f); try discriminate.
  destruct (getField (lit "steps") f); try discriminate.
  simpl. rewrite !orb_true_r. reflexivity.
Qed.

Lemma validate_payload (v : JsValue) :
  validate Generate.payloadSchema v =
  if resultWithinBounds v then Some (declaredResult v) else None.
Proof.
  rewrite payloadSchema_unfold.
  destruct v as [| | | | |items|f]; try reflexivity.
  rewrite !validate_object_cons, validate_object_nil, validate_string_min.
  rewrite (validate_array _ _ _ recipeWithinBounds declaredRecipe _ validate_recipe).
  unfold resultWithinBounds, declaredResult.
  bool_cases (stringAtLeast 10 (getField (lit "summary") f)).
  destruct (getField (lit "summary") f); try discriminate.
  destruct (getField (lit "recipes") f) as [| | | | |items|f']; try reflexivity.
  unfold sizeWithin.
  destruct (3 <=? length items), (length items <=? 5),
    (forallb recipeWithinBounds items); simpl; try reflexivity.
  rewrite !orb_true_r. reflexivity.
Qed.

Lemma getField_hit (k : jsstring) (v : JsValue) (rest : list (jsstring * JsValue)) :
  getField k ((k, v) :: rest) = v.
Proof. unfold getField; simpl. rewrite jsstring_eqb_refl. reflexivity. Qed.

Lemma declaredRecipe_within (v : JsValue) :
  recipeWithinBounds v = true -> recipeWithinBounds (declaredRecipe v) = true.
Proof.
  destruct v; try discriminate. intros H. exact H.
Qed.

Lemma declaredResult_within (v : JsValue) :
  resultWithinBounds v = true -> resultWithinBounds (declaredResult v) = true.
Proof.
  destruct v as [| | | | |items|f]; try discriminate.
  unfold resultWithinBounds, declaredResult.
  change (getField (lit "summary") ((lit "summary", ?x) :: ?r)) with x.
  change (getField (lit "recipes") [(lit "summary", ?x); (lit "recipes", ?y)]) with y.
  destruct (getField (lit "recipes") f); try (rewrite andb_false_r; discriminate).
  intros H. rewrite List.length_map.
  apply andb_true_iff in H. destruct H as [Hs H].
  apply andb_true_iff in H. destruct H as [Hn Hall].
  rewrite Hs, Hn. simpl.
  rewrite forallb_forall in *. intros x Hx.
  apply in_map_iff in Hx. destruct Hx as [y [<- Hy]].
  apply declaredRecipe_within. auto.
Qed.

(** ** The Generation Service *)

Lemma Generate_POST_run (key : EnvVar) (openai : Generate.OpenAI) (request : Request) :
  exists response trace,
    run (Generate.POST key openai request) = (inl response, trace) /\
    GenerateRun key openai request response trace.
Proof.
  unfold Generate.POST, run.
  destruct (truthy (envValue key)) eqn:Hkey; simpl.
  - unfold bind, attempt, perform; simpl.
    destruct (request_json request) as [body|error] eqn:Hreq.
    + destruct (safeParse_cases Generate.requestSchema body)
        as [[data [Hv Hs]] | [issues [Hv [Hne Hs]]]]; rewrite Hs.
      * unfold tryCatch, bind, perform.
        destruct (openai (Generate.createParams data)) as [response|error] eqn:Hcall.
        -- destruct (Generate.output_text response) as [[|c raw]|] eqn:Hout; simpl.
           ++ eexists _, _. split; [reflexivity|].
              eapply (GenCalled _ _ _ body data); eauto.
              rewrite Hcall. apply ReplyEmpty. auto.
           ++ destruct (JSON.parse (c :: raw)) as [payload|] eqn:Hparse; simpl.
              ** unfold parse.
                 destruct (safeParse_cases Generate.payloadSchema payload)
                   as [[d [Hpv Hps]] | [issues [Hpv [Hne Hps]]]]; rewrite Hps; simpl.
                 --- eexists _, _. split; [reflexivity|].
                     eapply (GenCalled _ _ _ body data); eauto.
                     rewrite Hcall. eapply ReplyAccepted; eauto. discriminate.
                 --- eexists _, _. split; [reflexivity|].
                     eapply (GenCalled _ _ _ body data); eauto.
                     rewrite Hcall. eapply ReplyOutOfSchema; eauto. discriminate.
              ** eexists _, _. split; [reflexivity|].
                 eapply (GenCalled _ _ _ body data); eauto.
                 rewrite Hcall. eapply ReplyNotJson; eauto. discriminate.
           ++ eexists _, _. split; [reflexivity|].
              eapply (GenCalled _ _ _ body data); eauto.
              rewrite Hcall. apply ReplyEmpty. auto.
        -- simpl. eexists _, _. split; [reflexivity|].
           eapply (GenCalled _ _ _ body data); eauto.
           rewrite Hcall. apply ReplyRejected.
      * eexists _, _. split; [reflexivity|].
        eapply GenInvalidRequest; eauto.
    + eexists _, _. split; [reflexivity|]. eapply GenInvalidJson; eauto.
  - eexists _, _. split; [reflexivity|]. apply GenUnconfigured. exact Hkey.
Qed.

Lemma dataUrlRegex_prefix (s : jsstring) :
  Generate.dataUrlRegex s = true -> hasDataUrlPrefix s.
Proof.
  unfold Generate.dataUrlRegex, hasDataUrlPrefix.
  destruct (dropPrefix (lit "data:image/") s) as [r|] eqn:Hp; [|discriminate].
  apply dropPrefix_app in Hp.
  intros H. apply andb_true_iff in H. destruct H as [_ H].
  destruct (dropPrefix (lit ";base64,") (dropWhile Generate.isSubtypeChar r))
    as [rest|] eqn:Hb; [|discriminate].
  apply dropPrefix_app in Hb.
  destruct (dropWhile_suffix Generate.isSubtypeChar r) as [subtype [Hsub _]].
  exists subtype, rest. rewrite Hp, Hsub at 1. rewrite Hb. reflexivity.
Qed.

Lemma validate_request (body data : JsValue) :
  validate Generate.requestSchema body = Some data ->
  exists f s,
    body = JObj f /\ getField (lit "imageDataUrl") f = JStr s /\
    10 <= length s /\ Generate.dataUrlRegex s = true.
Proof.
  destruct body as [| | | | |items|f]; try discriminate.
  unfold Generate.requestSchema, z.object.
  rewrite validate_object_cons.
  destruct (getField (lit "imageDataUrl") f) as [| | | |s| |] eqn:E;
    try discriminate.
  cbn [validate z.regex z.min z.string_ app forallb passes].
  destruct (10 <=? length s) eqn:Hlen; [|discriminate].
  destruct (Generate.dataUrlRegex s) eqn:Hre; [|discriminate].
  intros _. exists f, s. apply Nat.leb_le in Hlen. auto.
Qed.

Lemma malformed_request_invalid (request : Request) (body : JsValue) :
  malformedImage request -> request_json request = inl body ->
  validate Generate.requestSchema body = None.
Proof.
  intros Hbad Hreq.
  destruct (validate Generate.requestSchema body) as [data|] eqn:Hv; [|reflexivity].
  apply validate_request in Hv. destruct Hv as [f [s [-> [Hf [Hlen Hre]]]]].
  destruct (Hbad s) as [Hempty | Hprefix].
  - unfold imagePayload. rewrite Hreq. exact Hf.
  - subst s. simpl in Hlen. lia.
  - exfalso. apply Hprefix. apply dataUrlRegex_prefix. exact Hre.
Qed.

Lemma run_functional {A} (m : Eff A) (r1 r2 : A + Thrown) (t1 t2 : list Effect) :
  run m = (r1, t1) -> run m = (r2, t2) -> r1 = r2 /\ t1 = t2.
Proof. intros H1 H2. rewrite H1 in H2. inversion H2. auto. Qed.

Lemma Generate_POST_inv (key : EnvVar) (openai : Generate.OpenAI) (request : Request)
  (response : Response) (trace : list Effect) :
  run (Generate.POST key openai request) = (inl response, trace) ->
  GenerateRun key openai request response trace.
Proof.
  intros H.
  destruct (Generate_POST_run key openai request) as [r [t [Hrun Hrel]]].
  destruct (run_functional _ _ _ _ _ Hrun H) as [Hr Ht].
  inversion Hr. subst. exact Hrel.
Qed.

Lemma ReplyOutcome_log (answer : Generate.ModelResponse + Thrown)
  (response : Response) (log : list Effect) :
  ReplyOutcome answer response log -> outboundCalls log = [] /\
  forall params, ~ In (ResponsesCreate params) log.
Proof.
  intros H. inversion H; subst; simpl; split; try reflexivity;
    intros params Hin; simpl in Hin;
    repeat (destruct Hin as [Hin | Hin]; [discriminate Hin|]); exact Hin.
Qed.

(** C2, as stated, fails when the provider credential is not configured:
    the route answers 500 before it looks at the request. *)
Lemma generate_malformed_image_unconfigured :
  ~ (forall key openai request,
       malformedImage request ->
       exists response trace,
         run (Generate.POST key openai request) = (inl response, trace) /\
         status response = 400%Z /\ outboundCalls trace = []).
Proof.
  intros H.
  destruct (H None (replying sampleReply)
              {| request_json := inl (JObj [(lit "imageDataUrl", JStr [])]) |})
    as [response [trace [Hrun [Hstatus _]]]].
  - intros s Hs. inversion Hs. left. reflexivity.
  - vm_compute in Hrun. inversion Hrun. subst response.
    discriminate Hstatus.
Qed.

(** C2 (amended): a request whose image payload is empty or lacks the
    [data:image/*;base64,] prefix is answered without any outbound call;
    the answer is the 400 validation error when the provider credential
    is configured, and the 500 configuration error when it is not. *)
Theorem generate_rejects_malformed_image
  (key : EnvVar) (openai : Generate.OpenAI) (request : Request) :
  malformedImage request ->
  exists response trace,
    run (Generate.POST key openai request) = (inl response, trace) /\
    outboundCalls trace = [] /\
    status response = (if truthy (envValue key) then 400 else 500)%Z /\
    exists message details, body response = ErrorBody message details.
Proof.
  intros Hbad.
  destruct (Generate_POST_run key openai request) as [response [trace [Hrun Hrel]]].
  exists response, trace. split; [exact Hrun|].
  inversion Hrel as [Hkey | error Hkey Hreq | body issues Hkey Hreq Hv Hne
                    | body data resp log Hkey Hreq Hv Hreply]; subst;
    try rewrite Hkey; simpl.
  - repeat split; eauto.
  - repeat split; eauto.
  - repeat split; eauto.
  - rewrite (malformed_request_invalid request body Hbad Hreq) in Hv. discriminate.
Qed.

Lemma generate_rejects_malformed_image_witness :
  malformedImage
    {| request_json := inl (JObj [(lit "imageDataUrl",
                                   JStr (lit "data:text/plain;base64,aGVsbG8="))]) |} /\
  exists response trace,
    run (Generate.POST sampleKey (replying sampleReply)
           {| request_json := inl (JObj [(lit "imageDataUrl",
                                   JStr (lit "data:text/plain;base64,aGVsbG8="))]) |})
    = (inl response, trace) /\
    outboundCalls trace = [] /\
    status response = (if truthy (envValue sampleKey) then 400 else 500)%Z /\
    exists message details, body response = ErrorBody message details.
Proof.
  assert (Hbad : malformedImage
    {| request_json := inl (JObj [(lit "imageDataUrl",
                                   JStr (lit "data:text/plain;base64,aGVsbG8="))]) |}).
  { intros s Hs. vm_compute in Hs. inversion Hs. right.
    intros [subtype [rest Heq]]. vm_compute in Heq. discriminate Heq. }
  split; [exact Hbad|].
  exact (generate_rejects_malformed_image sampleKey (replying sampleReply) _ Hbad).
Defined.

Lemma run_reply (key : EnvVar) (openai : Generate.OpenAI) (request : Request)
  (response : Response) (trace : list Effect) (raw : jsstring) :
  GenerateRun key openai request response trace ->
  modelReplied openai trace raw ->
  exists reply log,
    Generate.output_text reply = Some raw /\
    ReplyOutcome (inl reply) response log.
Proof.
  intros Hrel [params [reply [Hin [Hcall Hout]]]].
  inversion Hrel as [Hkey | error Hkey Hreq | body issues Hkey Hreq Hv Hne
                    | body data resp log Hkey Hreq Hv Hreply]; subst;
    simpl in Hin.
  - contradiction.
  - destruct Hin as [Hin | []]. discriminate.
  - destruct Hin as [Hin | []]. discriminate.
  - destruct Hin as [Hin | [Hin | Hin]]; [discriminate | |].
    + inversion Hin. subst params. rewrite Hcall in Hreply.
      exists reply, log. auto.
    + apply ReplyOutcome_log in Hreply. destruct Hreply as [_ Hno].
      exfalso. exact (Hno params Hin).
Qed.

Lemma reply_validated
  (key : EnvVar) (openai : Generate.OpenAI) (request : Request)
  (response : Response) (trace : list Effect) (raw : jsstring) (payload : JsValue) :
  GenerateRun key openai request response trace ->
  modelReplied openai trace raw ->
  JSON.parse raw = Some payload ->
  (resultWithinBounds payload = true ->
   response = {| status := 200; body := GenerationResult (declaredResult payload) |}) /\
  (resultWithinBounds payload = false ->
   exists issues,
     issues <> [] /\ response = errorResponse 500 (ZodErrorMessage issues) None).
Proof.
  intros Hrun Hreplied Hparse.
  destruct (run_reply _ _ _ _ _ _ Hrun Hreplied) as [reply [log [Hout Hreply]]].
  inversion Hreply as [ | r Hempty | r raw' Hout' Hne Hp
                      | r raw' payload' issues Hout' Hne Hp Hv Hiss
                      | r raw' payload' data Hout' Hne Hp Hv ]; subst.
  - destruct Hempty as [He | He]; rewrite He in Hout; inversion Hout.
    subst raw. vm_compute in Hparse. discriminate Hparse.
  - rewrite Hout in Hout'. inversion Hout'. subst raw'. congruence.
  - rewrite Hout in Hout'. inversion Hout'. subst raw'.
    rewrite Hparse in Hp. inversion Hp. subst payload'.
    rewrite validate_payload in Hv.
    destruct (resultWithinBounds payload); [discriminate Hv|].
    split; [discriminate|]. intros _. exists issues. auto.
  - rewrite Hout in Hout'. inversion Hout'. subst raw'.
    rewrite Hparse in Hp. inversion Hp. subst payload'.
    rewrite validate_payload in Hv.
    destruct (resultWithinBounds payload); [|discriminate Hv].
    inversion Hv. split; [reflexivity | discriminate].
Qed.

(** C1: a result the Generation Service returns has a summary of at
    least 10 characters and 3 to 5 recipes, each within the field bounds;
    it is the model's reply restricted to the declared fields, so nothing
    is truncated; and a reply that parses but has fewer than 3 recipes,
    more than 5, or a field out of bounds is answered with the
    validator's error instead. *)
Theorem generate_result_within_bounds
  (key : EnvVar) (openai : Generate.OpenAI) (request : Request)
  (response : Response) (trace : list Effect) :
  run (Generate.POST key openai request) = (inl response, trace) ->
  (forall result,
     body response = GenerationResult result ->
     status response = 200%Z /\ resultWithinBounds result = true) /\
  (forall raw payload,
     modelReplied openai trace raw ->
     JSON.parse raw = Some payload ->
     (resultWithinBounds payload = true ->
      response = {| status := 200; body := GenerationResult (declaredResult payload) |}) /\
     (resultWithinBounds payload = false ->
      exists issues,
        issues <> [] /\ response = errorResponse 500 (ZodErrorMessage issues) None)).
Proof.
  intros Hrun. apply Generate_POST_inv in Hrun. split.
  - intros result Hbody.
    inversion Hrun as [Hkey | error Hkey Hreq | body issues Hkey Hreq Hv Hne
                      | body data resp log Hkey Hreq Hv Hreply]; subst;
      try discriminate Hbody.
    inversion Hreply as [ | r Hempty | r raw' Hout' Hne Hp
                        | r raw' payload' issues Hout' Hne Hp Hv' Hiss
                        | r raw' payload' data' Hout' Hne Hp Hv' ]; subst;
      try discriminate Hbody.
    simpl in Hbody. inversion Hbody. subst result. split; [reflexivity|].
    rewrite validate_payload in Hv'.
    destruct (resultWithinBounds payload') eqn:Hb; [|discriminate Hv'].
    inversion Hv'. apply declaredResult_within. exact Hb.
  - intros raw payload. apply (reply_validated _ _ _ _ _ _ _ Hrun).
Qed.

Lemma sample_run (raw : jsstring) :
  exists response trace,
    run (Generate.POST sampleKey (replying raw) sampleRequest) = (inl response, trace) /\
    modelReplied (replying raw) trace raw.
Proof.
  destruct (Generate_POST_run sampleKey (replying raw) sampleRequest)
    as [response [trace [Hrun Hrel]]].
  exists response, trace. split; [exact Hrun|].
  inversion Hrel as [Hkey | error Hkey Hreq | body issues Hkey Hreq Hv Hne
                    | body data resp log Hkey Hreq Hv Hreply]; subst;
    try (vm_compute in Hkey; discriminate Hkey);
    try (vm_compute in Hreq; discriminate Hreq).
  - vm_compute in Hreq. inversion Hreq. subst body.
    vm_compute in Hv. discriminate Hv.
  - eexists _, _. split; [right; left; reflexivity|]. split; reflexivity.
Qed.

Lemma generate_result_within_bounds_witness :
  (exists response trace payload,
     run (Generate.POST sampleKey (replying sampleReply) sampleRequest)
     = (inl response, trace) /\
     JSON.parse sampleReply = Some payload /\
     resultWithinBounds payload = true /\
     response = {| status := 200; body := GenerationResult (declaredResult payload) |} /\
     resultWithinBounds (declaredResult payload) = true) /\
  (exists response trace payload issues,
     run (Generate.POST sampleKey (replying shortReply) sampleRequest)
     = (inl response, trace) /\
     JSON.parse shortReply = Some payload /\
     resultWithinBounds payload = false /\
     issues <> [] /\
     response = errorResponse 500 (ZodErrorMessage issues) None).
Proof.
  split.
  - destruct (sample_run sampleReply) as [response [trace [Hrun Hin]]].
    destruct (JSON.parse sampleReply) as [payload|] eqn:Hparse;
      [|vm_compute in Hparse; discriminate Hparse].
    assert (Hb : resultWithinBounds payload = true).
    { vm_compute in Hparse. inversion Hparse. vm_compute. reflexivity. }
    destruct (generate_result_within_bounds _ _ _ _ _ Hrun) as [Hres Hrej].
    destruct (Hrej sampleReply payload Hin Hparse) as [Hok _].
    specialize (Hok Hb).
    exists response, trace, payload.
    repeat split; try assumption.
    apply (Hres (declaredResult payload)). rewrite Hok. reflexivity.
  - destruct (sample_run shortReply) as [response [trace [Hrun Hin]]].
    destruct (JSON.parse shortReply) as [payload|] eqn:Hparse;
      [|vm_compute in Hparse; discriminate Hparse].
    assert (Hb : resultWithinBounds payload = false).
    { vm_compute in Hparse. inversion Hparse. vm_compute. reflexivity. }
    destruct (generate_result_within_bounds _ _ _ _ _ Hrun) as [_ Hrej].
    destruct (Hrej shortReply payload Hin Hparse) as [_ Hbad].
    destruct (Hbad Hb) as [issues [Hne Hresp]].
    exists response, trace, payload, issues. auto.
Defined.

(** C8, as stated, fails for a reply that is valid JSON but outside the
    schema (here: two recipes): the error surfaced is the validator's
    message, not the retry guidance. *)
Lemma generate_schema_failure_message :
  ~ (forall key openai request response trace raw,
       run (Generate.POST key openai request) = (inl response, trace) ->
       modelReplied openai trace raw ->
       (JSON.parse raw = None \/
        exists payload,
          JSON.parse raw = Some payload /\ resultWithinBounds payload = false) ->
       body response = ErrorBody (Message Generate.retakeMessage) None).
Proof.
  intros H.
  destruct (sample_run shortReply) as [response [trace [Hrun Hin]]].
  specialize (H _ _ _ _ _ _ Hrun Hin).
  pose proof Hrun as Hc. vm_compute in Hc. inversion Hc as [[Hresp Htrace]].
  rewrite <- Hresp in H. simpl in H.
  assert (Hfalse : ErrorBody (ZodErrorMessage
            [{| code := too_small 3 PTarray;
                path := [PathKey (lit "recipes")];
                message := None |}]) None
          = ErrorBody (Message Generate.retakeMessage) None).
  { apply H. right.
    destruct (JSON.parse shortReply) as [payload|] eqn:Hparse;
      [|vm_compute in Hparse; discriminate Hparse].
    exists payload. split; [reflexivity|].
    vm_compute in Hparse. inversion Hparse. vm_compute. reflexivity. }
  discriminate Hfalse.
Qed.

(** C8 (amended): when the model returns non-empty text that is not
    valid JSON, the error surfaced is the message asking to retake the
    photo (status 500); when the text is valid JSON outside the schema,
    the error surfaced is the validator's own message (status 500). *)
Theorem generate_unusable_reply_message
  (key : EnvVar) (openai : Generate.OpenAI) (request : Request)
  (response : Response) (trace : list Effect) (raw : jsstring) :
  run (Generate.POST key openai request) = (inl response, trace) ->
  modelReplied openai trace raw ->
  raw <> [] ->
  (JSON.parse raw = None ->
   response = errorResponse 500 (Message Generate.retakeMessage) None) /\
  (forall payload,
     JSON.parse raw = Some payload -> resultWithinBounds payload = false ->
     exists issues,
       issues <> [] /\ response = errorResponse 500 (ZodErrorMessage issues) None).
Proof.
  intros Hrun Hreplied Hraw. split.
  - intros Hparse. apply Generate_POST_inv in Hrun.
    destruct (run_reply _ _ _ _ _ _ Hrun Hreplied) as [reply [log [Hout Hreply]]].
    inversion Hreply as [ | r Hempty | r raw' Hout' Hne Hp
                        | r raw' payload' issues Hout' Hne Hp Hv Hiss
                        | r raw' payload' data Hout' Hne Hp Hv ]; subst.
    + destruct Hempty as [He | He]; rewrite He in Hout; inversion Hout.
      subst raw. contradiction.
    + reflexivity.
    + rewrite Hout in Hout'. inversion Hout'. subst raw'. congruence.
    + rewrite Hout in Hout'. inversion Hout'. subst raw'. congruence.
  - intros payload Hparse Hb.
    apply Generate_POST_inv in Hrun.
    destruct (reply_validated _ _ _ _ _ _ _ Hrun Hreplied Hparse) as [_ Hbad].
    exact (Hbad Hb).
Qed.

Lemma generate_unusable_reply_message_witness :
  exists response trace,
    run (Generate.POST sampleKey (replying (lit "Here are three recipes!")) sampleRequest)
    = (inl response, trace) /\
    JSON.parse (lit "Here are three recipes!") = None /\
    response = errorResponse 500 (Message Generate.retakeMessage) None.
Proof.
  destruct (sample_run (lit "Here are three recipes!")) as [response [trace [Hrun Hin]]].
  exists response, trace. split; [exact Hrun|]. split; [vm_compute; reflexivity|].
  assert (Hne : lit "Here are three recipes!" <> []) by discriminate.
  destruct (generate_unusable_reply_message _ _ _ _ _ _ Hrun Hin Hne) as [Hnot _].
  apply Hnot. vm_compute. reflexivity.
Defined.

(** ** The Delivery Service *)

Lemma jsonOrEmpty_run (r : WhatsApp.FetchResponse) (tr : list Effect) :
  WhatsApp.jsonOrEmpty r tr = (inl (bodyOf r), tr ++ [ResponseJson]).
Proof.
  unfold WhatsApp.jsonOrEmpty, tryCatch, perform, ret, bodyOf.
  destruct (WhatsApp.response_json r); reflexivity.
Qed.

Lemma WhatsApp_POST_run (env : WhatsApp.WhatsAppEnv) (fetch : WhatsApp.Network)
  (request : Request) :
  exists response trace,
    run (WhatsApp.POST env fetch request) = (inl response, trace) /\
    DeliverRun env fetch request response trace.
Proof.
  unfold WhatsApp.POST, run.
  destruct (configured env) eqn:Hconf.
  - pose proof Hconf as Hc. unfold configured in Hc.
    apply andb_true_iff in Hc. destruct Hc as [Ht Hp]. rewrite Ht, Hp. simpl.
    unfold bind, attempt, perform; simpl.
    destruct (request_json request) as [json|error] eqn:Hreq.
    + destruct (safeParse_cases WhatsApp.whatsappSchema json)
        as [[data [Hv Hs]] | [issues [Hv [Hne Hs]]]]; rewrite Hs.
      * fold (resolvedRecipient env data).
        destruct (truthy (resolvedRecipient env data)) eqn:Hrec; simpl.
        -- unfold tryCatch, bind, perform.
           destruct (fetch (WhatsApp.messagesUrl env)
                       (WhatsApp.messageInit env (resolvedRecipient env data) data))
             as [r|error] eqn:Hfetch.
           ++ destruct (WhatsApp.ok r) eqn:Hok; simpl.
              ** rewrite jsonOrEmpty_run.
                 eexists _, _. split; [reflexivity|].
                 eapply (DelSent _ _ _ json data _ [ResponseJson]); eauto.
                 rewrite Hfetch. apply SendAccepted. exact Hok.
              ** unfold throw, console_error, perform, ret.
                 rewrite jsonOrEmpty_run.
                 eexists _, _. split; [reflexivity|].
                 eapply (DelSent _ _ _ json data _ [ResponseJson; _]); eauto.
                 rewrite Hfetch. apply SendRefused. exact Hok.
           ++ simpl. eexists _, _. split; [reflexivity|].
              eapply (DelSent _ _ _ json data); eauto.
              rewrite Hfetch. apply SendRejected.
        -- eexists _, _. split; [reflexivity|]. eapply DelNoRecipient; eauto.
      * eexists _, _. split; [reflexivity|]. eapply DelInvalidRequest; eauto.
    + eexists _, _. split; [reflexivity|]. eapply DelInvalidJson; eauto.
  - pose proof Hconf as Hc. unfold configured in Hc.
    apply andb_false_iff in Hc.
    assert (Hguard : negb (truthy (envValue (WhatsApp.token env)))
                     || negb (truthy (envValue (WhatsApp.phoneId env))) = true).
    { destruct Hc as [-> | ->]; simpl; [reflexivity | apply orb_true_r]. }
    rewrite Hguard. eexists _, _. split; [reflexivity|].
    apply DelUnconfigured. exact Hconf.
Qed.

Lemma WhatsApp_POST_inv (env : WhatsApp.WhatsAppEnv) (fetch : WhatsApp.Network)
  (request : Request) (response : Response) (trace : list Effect) :
  run (WhatsApp.POST env fetch request) = (inl response, trace) ->
  DeliverRun env fetch request response trace.
Proof.
  intros H.
  destruct (WhatsApp_POST_run env fetch request) as [r [t [Hrun Hrel]]].
  destruct (run_functional _ _ _ _ _ Hrun H) as [Hr Ht].
  inversion Hr. subst. exact Hrel.
Qed.

Lemma validate_whatsapp (json data : JsValue) :
  validate WhatsApp.whatsappSchema json = Some data ->
  exists f m,
    json = JObj f /\
    getField (lit "message") f = JStr m /\ 10 <= length m /\
    optMember data (lit "message") = JStr m /\
    optMember data (lit "phoneNumber") = getField (lit "phoneNumber") f /\
    (getField (lit "phoneNumber") f = JUndefined \/
     exists p, getField (lit "phoneNumber") f = JStr p).
Proof.
  destruct json as [| | | | |items|f]; try discriminate.
  unfold WhatsApp.whatsappSchema, z.object.
  rewrite !validate_object_cons, validate_object_nil.
  cbn [z.min z.optional z.string_ app].
  rewrite validate_string_min.
  destruct (getField (lit "message") f) as [| | | |m| |] eqn:Em; try discriminate.
  unfold stringAtLeast.
  destruct (10 <=? length m) eqn:Hlen; [|discriminate].
  apply Nat.leb_le in Hlen.
  destruct (getField (lit "phoneNumber") f) as [| | | |p| |] eqn:Ep;
    cbn [validate forallb]; try discriminate;
    destruct (hasKey (lit "phoneNumber") f);
    rewrite ?orb_true_r; cbn [orb negb isUndefined];
    intros H; inversion H; exists f, m;
    repeat split; rewrite ?Ep; try assumption; try reflexivity;
    try (left; reflexivity); try (right; exists p; reflexivity).
Qed.

Lemma SendOutcome_log (answer : WhatsApp.FetchResponse + Thrown)
  (response : Response) (log : list Effect) :
  SendOutcome answer response log ->
  forall url init, ~ In (Fetch url init) log.
Proof.
  intros H url init Hin. inversion H; subst; simpl in Hin;
    repeat (destruct Hin as [Hin | Hin]; [discriminate Hin|]); exact Hin.
Qed.

Lemma unsent_no_outbound (env : WhatsApp.WhatsAppEnv) (fetch : WhatsApp.Network)
  (request : Request) (response : Response) (trace : list Effect) :
  DeliverRun env fetch request response trace ->
  (forall json data,
     request_json request = inl json ->
     validate WhatsApp.whatsappSchema json = Some data ->
     truthy (resolvedRecipient env data) = false) ->
  outboundCalls trace = [] /\
  status response = (if configured env then 400 else 500)%Z /\
  exists message details, body response = ErrorBody message details.
Proof.
  intros Hrel Hno.
  inversion Hrel as [Hc | error Hc Hreq | json issues Hc Hreq Hv Hne
                    | json data Hc Hreq Hv Hrec
                    | json data resp log Hc Hreq Hv Hrec Hsend]; subst;
    rewrite Hc; simpl; try (repeat split; eauto; fail).
  rewrite (Hno json data Hreq Hv) in Hrec. discriminate Hrec.
Qed.

(** C6: with either messaging credential absent the Delivery Service
    answers the 500 configuration error and makes no outbound call,
    whatever the request. *)
Theorem delivery_requires_credentials
  (env : WhatsApp.WhatsAppEnv) (fetch : WhatsApp.Network) (request : Request) :
  WhatsApp.token env = None \/ WhatsApp.phoneId env = None ->
  exists trace,
    run (WhatsApp.POST env fetch request)
    = (inl (errorResponse 500 (Message credentialsMessage) None), trace) /\
    outboundCalls trace = [].
Proof.
  intros Habsent.
  destruct (WhatsApp_POST_run env fetch request) as [response [trace [Hrun Hrel]]].
  assert (Hc : configured env = false).
  { unfold configured. destruct Habsent as [-> | ->]; simpl;
      [reflexivity | apply andb_false_r]. }
  inversion Hrel; subst; try congruence.
  exists []. split; [exact Hrun | reflexivity].
Qed.

Lemma delivery_requires_credentials_witness :
  exists trace,
    run (WhatsApp.POST
           {| WhatsApp.token := Some (lit "EAAG-token");
              WhatsApp.phoneId := None;
              WhatsApp.defaultRecipient := Some (lit "15550001111") |}
           (fun _ _ => inl {| WhatsApp.response_status := 200;
                              WhatsApp.response_json := inl (JObj []) |})
           {| request_json :=
                inl (JObj [(lit "message", JStr (lit "Three recipes for tonight"));
                           (lit "phoneNumber", JStr (lit "15552223333"))]) |})
    = (inl (errorResponse 500 (Message credentialsMessage) None), trace) /\
    outboundCalls trace = [].
Proof.
  apply delivery_requires_credentials. right. reflexivity.
Defined.

(** C10: the credentials are checked before the request body is read:
    with either credential absent the body is never read, and every
    request, be its body unreadable or outside the schema, gets the 500
    configuration error, not a 400. *)
Theorem delivery_checks_credentials_first
  (env : WhatsApp.WhatsAppEnv) (fetch : WhatsApp.Network) (request : Request) :
  WhatsApp.token env = None \/ WhatsApp.phoneId env = None ->
  exists response trace,
    run (WhatsApp.POST env fetch request) = (inl response, trace) /\
    ~ In RequestJson trace /\
    status response = 500%Z /\ status response <> 400%Z /\
    body response = ErrorBody (Message credentialsMessage) None.
Proof.
  intros Habsent.
  destruct (WhatsApp_POST_run env fetch request) as [response [trace [Hrun Hrel]]].
  assert (Hc : configured env = false).
  { unfold configured. destruct Habsent as [-> | ->]; simpl;
      [reflexivity | apply andb_false_r]. }
  inversion Hrel; subst; try congruence.
  eexists _, _. split; [exact Hrun|]. simpl.
  repeat split; try reflexivity; try discriminate. intros [].
Qed.

Lemma delivery_checks_credentials_first_witness :
  (exists response trace,
     run (WhatsApp.POST
            {| WhatsApp.token := None;
               WhatsApp.phoneId := Some (lit "106540352242922");
               WhatsApp.defaultRecipient := None |}
            (fun _ _ => inr (ThrownOther JNull))
            {| request_json := inr (ThrownError (Message (lit "Unexpected end of JSON input"))) |})
     = (inl response, trace) /\
     ~ In RequestJson trace /\
     status response = 500%Z /\ status response <> 400%Z /\
     body response = ErrorBody (Message credentialsMessage) None) /\
  (exists response trace,
     run (WhatsApp.POST
            {| WhatsApp.token := None;
               WhatsApp.phoneId := Some (lit "106540352242922");
               WhatsApp.defaultRecipient := None |}
            (fun _ _ => inr (ThrownOther JNull))
            {| request_json := inl (JObj [(lit "message", JNum 7)]) |})
     = (inl response, trace) /\
     ~ In RequestJson trace /\
     status response = 500%Z /\ status response <> 400%Z /\
     body response = ErrorBody (Message credentialsMessage) None).
Proof.
  split; apply delivery_checks_credentials_first; left; reflexivity.
Defined.

Lemma SendOutcome_outbound (answer : WhatsApp.FetchResponse + Thrown)
  (response : Response) (log : list Effect) :
  SendOutcome answer response log -> outboundCalls log = [].
Proof. intros H. inversion H; reflexivity. Qed.

Lemma validate_whatsapp_complete (f : list (jsstring * JsValue)) (m : jsstring) :
  getField (lit "message") f = JStr m -> 10 <= length m ->
  (getField (lit "phoneNumber") f = JUndefined \/
   exists p, getField (lit "phoneNumber") f = JStr p) ->
  exists data, validate WhatsApp.whatsappSchema (JObj f) = Some data.
Proof.
  intros Hm Hlen Hp.
  unfold WhatsApp.whatsappSchema, z.object.
  rewrite !validate_object_cons, validate_object_nil.
  cbn [z.min z.optional z.string_ app].
  rewrite validate_string_min, Hm. unfold stringAtLeast.
  apply Nat.leb_le in Hlen. rewrite Hlen.
  destruct Hp as [-> | [p ->]]; cbn [validate forallb]; eexists; reflexivity.
Qed.

Lemma resolved_supplied (env : WhatsApp.WhatsAppEnv) (request : Request)
  (json data : JsValue) :
  request_json request = inl json ->
  validate WhatsApp.whatsappSchema json = Some data ->
  resolvedRecipient env data
  = coalesce (suppliedRecipient request) (envValue (WhatsApp.defaultRecipient env)) /\
  (suppliedRecipient request = JUndefined \/
   exists p, suppliedRecipient request = JStr p).
Proof.
  intros Hreq Hv.
  destruct (validate_whatsapp json data Hv) as [f [m [-> [_ [_ [_ [Hp Hshape]]]]]]].
  unfold resolvedRecipient, suppliedRecipient. rewrite Hreq, Hp. auto.
Qed.

(** C3: every outbound messaging call carries in [to] the recipient the
    request supplies, whatever default is configured; the default is
    carried only when the request supplies none.  With the credentials
    configured and a message within bounds, a non-empty supplied
    recipient does reach the one outbound call. *)
Theorem delivery_recipient_verbatim
  (env : WhatsApp.WhatsAppEnv) (fetch : WhatsApp.Network) (request : Request)
  (response : Response) (trace : list Effect) :
  run (WhatsApp.POST env fetch request) = (inl response, trace) ->
  (forall url init,
     In (Fetch url init) trace ->
     match suppliedRecipient request with
     | JStr p => outboundTo init = JStr p
     | JUndefined => outboundTo init = envValue (WhatsApp.defaultRecipient env)
     | _ => False
     end) /\
  (forall f m p,
     configured env = true ->
     request_json request = inl (JObj f) ->
     getField (lit "message") f = JStr m -> 10 <= length m ->
     getField (lit "phoneNumber") f = JStr p -> p <> [] ->
     exists init,
       outboundCalls trace = [Fetch (WhatsApp.messagesUrl env) init] /\
       outboundTo init = JStr p).
Proof.
  intros Hrun. apply WhatsApp_POST_inv in Hrun. split.
  - intros url init Hin.
    inversion Hrun as [Hc | error Hc Hreq | json issues Hc Hreq Hv Hne
                      | json data Hc Hreq Hv Hrec
                      | json data resp log Hc Hreq Hv Hrec Hsend]; subst;
      simpl in Hin;
      try (repeat (destruct Hin as [Hin | Hin]; [discriminate Hin|]); contradiction).
    destruct Hin as [Hin | [Hin | Hin]]; [discriminate Hin | |].
    + inversion Hin. subst url init. unfold outboundTo. simpl.
      change (getField (lit "to") _)
        with (resolvedRecipient env data).
      destruct (resolved_supplied env request json data Hreq Hv) as [Heq Hshape].
      rewrite Heq. destruct Hshape as [-> | [p ->]]; reflexivity.
    + exfalso. exact (SendOutcome_log _ _ _ Hsend url init Hin).
  - intros f m p Hc Hreq Hm Hlen Hp Hne.
    destruct (validate_whatsapp_complete f m Hm Hlen) as [data Hv].
    { right. exists p. exact Hp. }
    destruct (resolved_supplied env request (JObj f) data Hreq Hv) as [Heq _].
    assert (Hsup : suppliedRecipient request = JStr p).
    { unfold suppliedRecipient. rewrite Hreq. exact Hp. }
    rewrite Hsup in Heq. simpl in Heq.
    inversion Hrun as [Hc' | error Hc' Hreq' | json issues Hc' Hreq' Hv' Hne'
                      | json data' Hc' Hreq' Hv' Hrec
                      | json data' resp log Hc' Hreq' Hv' Hrec Hsend]; subst;
      try congruence.
    + rewrite Hreq in Hreq'. inversion Hreq'. subst json.
      rewrite Hv in Hv'. inversion Hv'. subst data'.
      rewrite Heq in Hrec. destruct p; [contradiction | discriminate Hrec].
    + rewrite Hreq in Hreq'. inversion Hreq'. subst json.
      rewrite Hv in Hv'. inversion Hv'. subst data'.
      eexists. split.
      * unfold outboundCalls. simpl. fold (outboundCalls log).
        rewrite (SendOutcome_outbound _ _ _ Hsend). reflexivity.
      * unfold outboundTo. simpl.
        change (getField (lit "to") _) with (resolvedRecipient env data).
        exact Heq.
Qed.

Lemma delivery_recipient_verbatim_witness :
  exists response trace init,
    run (WhatsApp.POST sampleEnv (answering queuedBody)
           (deliveryRequest [(lit "message", sampleMessage);
                             (lit "phoneNumber", JStr (lit "15552223333"))]))
    = (inl response, trace) /\
    outboundCalls trace = [Fetch (WhatsApp.messagesUrl sampleEnv) init] /\
    outboundTo init = JStr (lit "15552223333") /\
    WhatsApp.defaultRecipient sampleEnv = Some (lit "15550001111").
Proof.
  destruct (WhatsApp_POST_run sampleEnv (answering queuedBody)
              (deliveryRequest [(lit "message", sampleMessage);
                                (lit "phoneNumber", JStr (lit "15552223333"))]))
    as [response [trace [Hrun _]]].
  destruct (delivery_recipient_verbatim _ _ _ _ _ Hrun) as [_ Hlive].
  destruct (Hlive [(lit "message", sampleMessage);
                   (lit "phoneNumber", JStr (lit "15552223333"))]
                  (lit "Three recipes for tonight") (lit "15552223333"))
    as [init [Hcalls Hto]];
    try reflexivity; try discriminate.
  { vm_compute. lia. }
  exists response, trace, init. auto.
Defined.

(** C4, as stated, fails when the messaging credentials are not
    configured: the answer is the 500 configuration error. *)
Lemma delivery_no_recipient_unconfigured :
  ~ (forall env fetch request,
       suppliedRecipient request = JUndefined ->
       WhatsApp.defaultRecipient env = None ->
       exists response trace,
         run (WhatsApp.POST env fetch request) = (inl response, trace) /\
         status response = 400%Z /\ outboundCalls trace = []).
Proof.
  intros H.
  destruct (H noCredentials (answering queuedBody)
              (deliveryRequest [(lit "message", sampleMessage)]))
    as [response [trace [Hrun [Hstatus _]]]]; try reflexivity.
  vm_compute in Hrun. inversion Hrun. subst response. discriminate Hstatus.
Qed.

(** C4 (amended): a request that supplies no recipient, under a
    configuration without default recipient, is answered without any
    outbound call; the answer is the 400 validation error when both
    messaging credentials are configured and the 500 configuration error
    when they are not. *)
Theorem delivery_rejects_missing_recipient
  (env : WhatsApp.WhatsAppEnv) (fetch : WhatsApp.Network) (request : Request) :
  suppliedRecipient request = JUndefined ->
  WhatsApp.defaultRecipient env = None ->
  exists response trace,
    run (WhatsApp.POST env fetch request) = (inl response, trace) /\
    outboundCalls trace = [] /\
    status response = (if configured env then 400 else 500)%Z /\
    exists message details, body response = ErrorBody message details.
Proof.
  intros Hsup Hdef.
  destruct (WhatsApp_POST_run env fetch request) as [response [trace [Hrun Hrel]]].
  exists response, trace. split; [exact Hrun|].
  apply (unsent_no_outbound env fetch request response trace Hrel).
  intros json data Hreq Hv.
  destruct (resolved_supplied env request json data Hreq Hv) as [-> _].
  rewrite Hsup, Hdef. reflexivity.
Qed.

Lemma delivery_rejects_missing_recipient_witness :
  exists response trace,
    run (WhatsApp.POST noDefault (answering queuedBody)
           (deliveryRequest [(lit "message", sampleMessage)]))
    = (inl response, trace) /\
    outboundCalls trace = [] /\
    status response = 400%Z /\
    exists message details, body response = ErrorBody message details.
Proof.
  apply (delivery_rejects_missing_recipient noDefault (answering queuedBody)
           (deliveryRequest [(lit "message", sampleMessage)])); reflexivity.
Defined.

(** C9, as stated, fails when the messaging credentials are not
    configured: the answer is the 500 configuration error. *)
Lemma delivery_empty_recipient_unconfigured :
  ~ (forall env fetch request,
       suppliedRecipient request = JStr [] ->
       exists response trace,
         run (WhatsApp.POST env fetch request) = (inl response, trace) /\
         status response = 400%Z /\ outboundCalls trace = []).
Proof.
  intros H.
  destruct (H noCredentials (answering queuedBody)
              (deliveryRequest [(lit "message", sampleMessage);
                                (lit "phoneNumber", JStr [])]))
    as [response [trace [Hrun [Hstatus _]]]]; try reflexivity.
  vm_compute in Hrun. inversion Hrun. subst response. discriminate Hstatus.
Qed.

(** C9 (amended): a request whose [phoneNumber] is the empty string is
    answered without any outbound call, whatever default recipient is
    configured: the empty string does not fall back to the default.  The
    answer is the 400 validation error when both messaging credentials
    are configured and the 500 configuration error when they are not. *)
Theorem delivery_rejects_empty_recipient
  (env : WhatsApp.WhatsAppEnv) (fetch : WhatsApp.Network) (request : Request) :
  suppliedRecipient request = JStr [] ->
  exists response trace,
    run (WhatsApp.POST env fetch request) = (inl response, trace) /\
    outboundCalls trace = [] /\
    status response = (if configured env then 400 else 500)%Z /\
    exists message details, body response = ErrorBody message details.
Proof.
  intros Hsup.
  destruct (WhatsApp_POST_run env fetch request) as [response [trace [Hrun Hrel]]].
  exists response, trace. split; [exact Hrun|].
  apply (unsent_no_outbound env fetch request response trace Hrel).
  intros json data Hreq Hv.
  destruct (resolved_supplied env request json data Hreq Hv) as [-> _].
  rewrite Hsup. reflexivity.
Qed.

Lemma delivery_rejects_empty_recipient_witness :
  WhatsApp.defaultRecipient sampleEnv = Some (lit "15550001111") /\
  exists response trace,
    run (WhatsApp.POST sampleEnv (answering queuedBody)
           (deliveryRequest [(lit "message", sampleMessage);
                             (lit "phoneNumber", JStr [])]))
    = (inl response, trace) /\
    outboundCalls trace = [] /\
    status response = 400%Z /\
    exists message details, body response = ErrorBody message details.
Proof.
  split; [reflexivity|].
  apply (delivery_rejects_empty_recipient sampleEnv (answering queuedBody)
           (deliveryRequest [(lit "message", sampleMessage);
                             (lit "phoneNumber", JStr [])])); reflexivity.
Defined.

Lemma answered_outcome (env : WhatsApp.WhatsAppEnv) (fetch : WhatsApp.Network)
  (request : Request) (response : Response) (trace : list Effect)
  (r : WhatsApp.FetchResponse) :
  DeliverRun env fetch request response trace ->
  messagingAnswered fetch trace r ->
  exists log, SendOutcome (inl r) response log.
Proof.
  intros Hrun [url [init [Hin Hfetch]]].
  inversion Hrun as [Hc | error Hc Hreq | json issues Hc Hreq Hv Hne
                    | json data Hc Hreq Hv Hrec
                    | json data resp log Hc Hreq Hv Hrec Hsend]; subst;
    simpl in Hin;
    try (repeat (destruct Hin as [Hin | Hin]; [discriminate Hin|]); contradiction).
  destruct Hin as [Hin | [Hin | Hin]]; [discriminate Hin | |].
  - inversion Hin. subst url init. rewrite Hfetch in Hsend. exists log. exact Hsend.
  - exfalso. exact (SendOutcome_log _ _ _ Hsend url init Hin).
Qed.

(** C5, as stated, fails for a successful response whose [messages] is
    not an array but is truthy (here a string): the route reports
    [queued], where the claim says [sent]. *)
Lemma delivery_state_truthy_messages :
  ~ (forall env fetch request response trace r,
       run (WhatsApp.POST env fetch request) = (inl response, trace) ->
       messagingAnswered fetch trace r ->
       WhatsApp.ok r = true ->
       body response
       = DeliveryOutcome (specifiedState (bodyOf r)) (specifiedId (bodyOf r))).
Proof.
  intros H.
  pose (rb := JObj [(lit "messages", JStr (lit "accepted"))]).
  pose (request := deliveryRequest [(lit "message", sampleMessage)]).
  destruct (WhatsApp_POST_run sampleEnv (answering rb) request)
    as [response [trace [Hrun Hrel]]].
  specialize (H sampleEnv (answering rb) request response trace
                {| WhatsApp.response_status := 200;
                   WhatsApp.response_json := inl rb |} Hrun).
  pose proof Hrun as Hc. vm_compute in Hc. inversion Hc as [[Hresp Htrace]].
  rewrite <- Hresp in H.
  assert (Hfalse :
    DeliveryOutcome (lit "queued") JNull = DeliveryOutcome (lit "sent") JNull).
  { apply H; [|reflexivity].
    rewrite <- Htrace.
    eexists _, _. split; [right; left; reflexivity | reflexivity]. }
  vm_compute in Hfalse. discriminate Hfalse.
Qed.

(** C5 (amended): on a successful messaging-API response the Delivery
    Service answers 200 and reports [queued] exactly when the [messages]
    property of the response body is truthy, and [sent] otherwise.  In
    particular a [messages] array yields [queued] with the identifier of
    its first element (null when the array is empty or that element has
    no identifier), and a body without [messages] yields [sent] with a
    null identifier. *)
Theorem delivery_reports_outcome
  (env : WhatsApp.WhatsAppEnv) (fetch : WhatsApp.Network) (request : Request)
  (response : Response) (trace : list Effect) (r : WhatsApp.FetchResponse) :
  run (WhatsApp.POST env fetch request) = (inl response, trace) ->
  messagingAnswered fetch trace r ->
  WhatsApp.ok r = true ->
  let messages := optMember (bodyOf r) (lit "messages") in
  exists state id,
    response = {| status := 200; body := DeliveryOutcome state id |} /\
    state = (if truthy messages then lit "queued" else lit "sent") /\
    (isArray messages = true ->
     state = lit "queued" /\ id = specifiedId (bodyOf r)) /\
    (messages = JUndefined -> state = lit "sent" /\ id = JNull).
Proof.
  intros Hrun Hans Hok messages.
  apply WhatsApp_POST_inv in Hrun.
  destruct (answered_outcome _ _ _ _ _ _ Hrun Hans) as [log Hsend].
  inversion Hsend as [ | r' Hok' | r' Hok' ]; subst; [congruence|].
  exists (reportedState (bodyOf r)), (reportedId (bodyOf r)).
  split; [reflexivity|]. split; [reflexivity|].
  unfold reportedState, reportedId, specifiedId. fold messages.
  split.
  - destruct messages as [| | | | |items|f]; try discriminate.
    intros _. split; [reflexivity|].
    destruct items as [|first items]; reflexivity.
  - intros ->. split; reflexivity.
Qed.

Lemma delivery_reports_outcome_witness :
  exists response trace,
    run (WhatsApp.POST sampleEnv (answering queuedBody)
           (deliveryRequest [(lit "message", sampleMessage)]))
    = (inl response, trace) /\
    response = {| status := 200;
                  body := DeliveryOutcome (lit "queued") (JStr (lit "wamid.HBgL")) |}.
Proof.
  destruct (WhatsApp_POST_run sampleEnv (answering queuedBody)
              (deliveryRequest [(lit "message", sampleMessage)]))
    as [response [trace [Hrun _]]].
  exists response, trace. split; [exact Hrun|].
  assert (Hans : messagingAnswered (answering queuedBody) trace
                   {| WhatsApp.response_status := 200;
                      WhatsApp.response_json := inl queuedBody |}).
  { pose proof Hrun as Hc. vm_compute in Hc. inversion Hc.
    eexists _, _. split; [right; left; reflexivity | reflexivity]. }
  destruct (delivery_reports_outcome _ _ _ _ _ _ Hrun Hans eq_refl)
    as [state [id [Hresp [_ [Harr _]]]]].
  destruct (Harr eq_refl) as [-> ->]. exact Hresp.
Defined.

(** ** The transcript *)

Lemma forEachFrom_ext {A St : Type} (f g : A -> nat -> St -> St) (l : list A) :
  (forall x i st, f x i st = g x i st) ->
  forall i st, Page.forEachFrom f i l st = Page.forEachFrom g i l st.
Proof.
  intros Hfg. induction l as [|x l IH]; intros i st; simpl.
  - reflexivity.
  - rewrite Hfg. apply IH.
Qed.

Lemma forEachFrom_push {A : Type} (g : nat -> A -> jsstring) (l : list A) :
  forall i lines,
    Page.forEachFrom (fun x index lines => Page.push (g index x) lines) i l lines
    = lines ++ mapiFrom g i l.
Proof.
  induction l as [|x l IH]; intros i lines; simpl.
  - rewrite app_nil_r. reflexivity.
  - rewrite IH. unfold Page.push. rewrite <- app_assoc. reflexivity.
Qed.

Lemma mapiFrom_map {A B : Type} (g : A -> B) (l : list A) (i : nat) :
  mapiFrom (fun _ x => g x) i l = map g l.
Proof.
  revert i. induction l as [|x l IH]; intros i; simpl; [reflexivity|].
  rewrite IH. reflexivity.
Qed.

Lemma mapiFrom_numbered (steps : list jsstring) (i : nat) :
  mapiFrom (fun stepIndex step => ofNat (stepIndex + 1) ++ lit ". " ++ step) i steps
  = numbered (S i) steps.
Proof.
  revert i. induction steps as [|step steps IH]; intros i; simpl; [reflexivity|].
  rewrite IH. replace (i + 1) with (S i) by lia. reflexivity.
Qed.

Lemma forEachFrom_blocks (recipes : list Page.Recipe) :
  forall i lines,
    Page.forEachFrom (fun recipe index lines => lines ++ recipeBlock (index + 1) recipe)
      i recipes lines
    = lines ++ recipeBlocks (S i) recipes.
Proof.
  induction recipes as [|r recipes IH]; intros i lines; simpl.
  - rewrite app_nil_r. reflexivity.
  - rewrite IH. replace (i + 1) with (S i) by lia.
    rewrite <- app_assoc. reflexivity.
Qed.

Lemma combinedMessage_lines (recipes : list Page.Recipe) (summary : option jsstring) :
  recipes <> [] ->
  Page.combinedMessage recipes summary
  = trim (join newline (transcriptLines recipes summary)).
Proof.
  intros Hne. unfold Page.combinedMessage.
  destruct recipes as [|r0 rest]; [contradiction|].
  change (length (r0 :: rest) =? 0) with false. cbv iota.
  f_equal. f_equal. unfold Page.forEach, transcriptLines.
  rewrite (forEachFrom_ext _
             (fun recipe index lines => lines ++ recipeBlock (index + 1) recipe)).
  - rewrite forEachFrom_blocks. reflexivity.
  - intros recipe index lines. unfold Page.forEach.
    rewrite (forEachFrom_push (fun _ ingredient => Page.bullet ++ lit " " ++ ingredient)).
    rewrite (forEachFrom_push
               (fun stepIndex step => ofNat (stepIndex + 1) ++ lit ". " ++ step)).
    rewrite mapiFrom_map, mapiFrom_numbered.
    unfold Page.push, recipeBlock, heading, bulleted.
    repeat rewrite <- app_assoc. reflexivity.
Qed.

Lemma recipeBlocks_app (before after : list Page.Recipe) (i : nat) :
  recipeBlocks i (before ++ after)
  = recipeBlocks i before ++ recipeBlocks (i + length before) after.
Proof.
  revert i. induction before as [|r before IH]; intros i;
    cbn [recipeBlocks length app].
  - rewrite Nat.add_0_r. reflexivity.
  - rewrite IH, <- app_assoc.
    replace (S i + length before) with (i + S (length before)) by lia.
    reflexivity.
Qed.

Lemma transcript_starts_with_title (recipes : list Page.Recipe)
  (summary : option jsstring) :
  trim (join newline (transcriptLines recipes summary))
  = trimEnd (join newline (transcriptLines recipes summary)).
Proof.
  unfold trim, transcriptLines. reflexivity.
Qed.

(** C7: the transcript is a function of the recipe list and the summary,
    and for a non-empty list it is the newline-joined sequence of: the
    title, the summary line, and one block per recipe in the order
    supplied, less the whitespace at its very end.  The recipe at 1-based
    position i has its block right after those of the recipes before it,
    headed by [*i. name*], then the description, one bullet line per
    ingredient in order and one numbered line per step in order. *)
Theorem transcript_in_order (recipes : list Page.Recipe) (summary : option jsstring) :
  (forall recipes' summary',
     recipes' = recipes -> summary' = summary ->
     Page.combinedMessage recipes' summary' = Page.combinedMessage recipes summary) /\
  (recipes <> [] ->
   Page.combinedMessage recipes summary
   = trim (join newline (transcriptLines recipes summary)) /\
   exists trailing,
     join newline (transcriptLines recipes summary)
     = Page.combinedMessage recipes summary ++ trailing /\
     forallb isWhiteSpace trailing = true) /\
  (forall before r after,
     recipes = before ++ r :: after ->
     transcriptLines recipes summary
     = [Page.title; summaryLine summary]
       ++ recipeBlocks 1 before
       ++ ([heading (S (length before)) r; Page.description r; lit "_Ingredients_:"]
           ++ map bulleted (Page.ingredients r)
           ++ [lit "_Steps_:"]
           ++ numbered 1 (Page.steps r)
           ++ [[]])
       ++ recipeBlocks (S (S (length before))) after).
Proof.
  split; [|split].
  - intros recipes' summary' -> ->. reflexivity.
  - intros Hne. split; [apply combinedMessage_lines; exact Hne|].
    rewrite (combinedMessage_lines recipes summary Hne),
      transcript_starts_with_title.
    apply trimEnd_suffix.
  - intros before r after ->. unfold transcriptLines.
    rewrite recipeBlocks_app. simpl. reflexivity.
Qed.

Lemma transcript_in_order_witness :
  Page.combinedMessage [pasta; bruschetta; pesto] (Some (lit "Detected tomatoes, pasta, basil"))
  = trim (join newline
            (transcriptLines [pasta; bruschetta; pesto]
               (Some (lit "Detected tomatoes, pasta, basil")))) /\
  transcriptLines [pasta; bruschetta; pesto] (Some (lit "Detected tomatoes, pasta, basil"))
  = [Page.title; summaryLine (Some (lit "Detected tomatoes, pasta, basil"))]
    ++ recipeBlocks 1 [pasta]
    ++ ([heading 2 bruschetta; Page.description bruschetta; lit "_Ingredients_:"]
        ++ map bulleted (Page.ingredients bruschetta)
        ++ [lit "_Steps_:"]
        ++ numbered 1 (Page.steps bruschetta)
        ++ [[]])
    ++ recipeBlocks 3 [pesto].
Proof.
  destruct (transcript_in_order [pasta; bruschetta; pesto]
              (Some (lit "Detected tomatoes, pasta, basil"))) as [_ [Htext Hpos]].
  split.
  - apply Htext. discriminate.
  - apply (Hpos [pasta] bruschetta [pesto]). reflexivity.
Defined.

(** The example of the specification: the transcript of three recipes
    led by the pasta. *)
Example transcript_example :
  Page.combinedMessage [pasta; bruschetta; pesto] (Some (lit "Detected tomatoes, pasta, basil"))
  = join newline
      [Page.fryingPan ++ lit " *Kitchen Remix AI Recipes*";
       lit "Detected tomatoes, pasta, basil";
       [];
       lit "*1. Quick Tomato Basil Pasta*";
       lit "A fast weeknight pasta.";
       lit "_Ingredients_:";
       Page.bullet ++ lit " 200g pasta";
       Page.bullet ++ lit " 2 tomatoes";
       Page.bullet ++ lit " basil";
       lit "_Steps_:";
       lit "1. Boil pasta";
       lit "2. Saute tomatoes";
       lit "3. Combine";
       [];
       lit "*2. Tomato Bruschetta*";
       lit "Toasted bread with tomato.";
       lit "_Ingredients_:";
       Page.bullet ++ lit " 4 slices bread";
       Page.bullet ++ lit " 2 tomatoes";
       Page.bullet ++ lit " olive oil";
       lit "_Steps_:";
       lit "1. Toast bread";
       lit "2. Dice tomatoes";
       lit "3. Top and serve";
       [];
       lit "*3. Basil Pesto*";
       lit "A quick pesto for the pasta.";
       lit "_Ingredients_:";
       Page.bullet ++ lit " basil";
       Page.bullet ++ lit " olive oil";
       Page.bullet ++ lit " garlic";
       lit "_Steps_:";
       lit "1. Chop basil";
       lit "2. Blend with oil";
       lit "3. Season"].
Proof. vm_compute. reflexivity. Qed.

(** * Further properties of the code *)

(** ** The image pattern *)

Lemma dropPrefix_self (p r : jsstring) : dropPrefix p (p ++ r) = Some r.
Proof.
  induction p as [|c p IH]; simpl; [reflexivity|].
  rewrite N.eqb_refl. exact IH.
Qed.

Lemma dropWhile_run (f : N -> bool) (t r : jsstring) :
  forallb f t = true ->
  match r with c :: _ => f c = false | [] => True end ->
  dropWhile f (t ++ r) = r.
Proof.
  intros Hall Hstop. induction t as [|c t IH]; simpl in *.
  - destruct r as [|c r]; [reflexivity|]. simpl. rewrite Hstop. reflexivity.
  - apply andb_true_iff in Hall. destruct Hall as [Hc Hall].
    rewrite Hc. apply IH. exact Hall.
Qed.

Lemma dataUrlRegex_parts (s : jsstring) :
  Generate.dataUrlRegex s = true ->
  exists subtype rest,
    subtype <> [] /\ forallb Generate.isSubtypeChar subtype = true /\
    s = lit "data:image/" ++ subtype ++ lit ";base64," ++ rest.
Proof.
  unfold Generate.dataUrlRegex.
  destruct (dropPrefix (lit "data:image/") s) as [r|] eqn:Hp; [|discriminate].
  apply dropPrefix_app in Hp.
  intros H. apply andb_true_iff in H. destruct H as [Hlen H].
  destruct (dropPrefix (lit ";base64,") (dropWhile Generate.isSubtypeChar r))
    as [rest|] eqn:Hb; [|discriminate].
  apply dropPrefix_app in Hb.
  destruct (dropWhile_suffix Generate.isSubtypeChar r) as [subtype [Hsub Hall]].
  exists subtype, rest. split; [|split].
  - intros ->. simpl in Hsub. rewrite <- Hsub in Hlen.
    apply Nat.ltb_lt in Hlen. lia.
  - exact Hall.
  - rewrite Hp, Hsub at 1. rewrite Hb. reflexivity.
Qed.

Lemma dataUrlRegex_length (s : jsstring) :
  Generate.dataUrlRegex s = true -> 20 <= length s.
Proof.
  intros H. apply dataUrlRegex_parts in H.
  destruct H as [subtype [rest [Hne [_ ->]]]].
  rewrite !List.length_app. destruct subtype; [contradiction|]. simpl length. lia.
Qed.

(** X1: [dataUrlRegex] accepts exactly the strings that read
    [data:image/], then one or more of the letters and [+], then
    [;base64,], then anything. *)
Theorem dataUrlRegex_language (s : jsstring) :
  Generate.dataUrlRegex s = true <->
  exists subtype rest,
    subtype <> [] /\ forallb Generate.isSubtypeChar subtype = true /\
    s = lit "data:image/" ++ subtype ++ lit ";base64," ++ rest.
Proof.
  split; [apply dataUrlRegex_parts|].
  intros [subtype [rest [Hne [Hall ->]]]]. unfold Generate.dataUrlRegex.
  rewrite dropPrefix_self.
  rewrite (dropWhile_run Generate.isSubtypeChar subtype (lit ";base64," ++ rest) Hall)
    by reflexivity.
  rewrite dropPrefix_self, andb_true_r.
  apply Nat.ltb_lt. rewrite (List.length_app subtype).
  destruct subtype; [contradiction | simpl length; lia].
Qed.

(** X2: the 10-character minimum of [requestSchema] never decides: an
    image string that matches the pattern has 20 code units or more, so
    a string the minimum rejects is rejected by the pattern as well. *)
Theorem image_minimum_subsumed (s : jsstring) :
  Generate.dataUrlRegex s = true ->
  20 <= length s /\ passes s (CheckMin 10 (Some (lit "Image payload missing."))) = true.
Proof.
  intros H. apply dataUrlRegex_length in H.
  split; [exact H|]. unfold passes. apply Nat.leb_le. lia.
Qed.

Lemma image_minimum_subsumed_witness :
  20 <= length sampleImage /\
  passes sampleImage (CheckMin 10 (Some (lit "Image payload missing."))) = true.
Proof. apply image_minimum_subsumed. vm_compute. reflexivity. Defined.

(** ** More on the Generation Service *)

Lemma validate_request_members (f : list (jsstring * JsValue)) (data : JsValue) :
  validate Generate.requestSchema (JObj f) = Some data ->
  optMember data (lit "imageDataUrl") = getField (lit "imageDataUrl") f /\
  optMember data (lit "notes") = getField (lit "notes") f /\
  stringOrAbsent (getField (lit "notes") f) = true.
Proof.
  unfold Generate.requestSchema, z.object.
  rewrite !validate_object_cons, validate_object_nil.
  destruct (getField (lit "imageDataUrl") f) as [| | | |s| |] eqn:Ei;
    try discriminate.
  cbn [validate z.regex z.min z.string_ z.optional app forallb passes].
  destruct ((10 <=? length s) && (Generate.dataUrlRegex s && true)); [|discriminate].
  destruct (getField (lit "notes") f) as [| | | |n| |] eqn:En;
    cbn [validate forallb]; try discriminate;
    destruct (hasKey (lit "notes") f);
    rewrite ?orb_true_r; cbn [orb negb isUndefined];
    intros H; inversion H; repeat split; reflexivity.
Qed.

Lemma validate_request_complete (f : list (jsstring * JsValue)) (s : jsstring) :
  getField (lit "imageDataUrl") f = JStr s ->
  Generate.dataUrlRegex s = true ->
  stringOrAbsent (getField (lit "notes") f) = true ->
  exists data, validate Generate.requestSchema (JObj f) = Some data.
Proof.
  intros Hi Hre Hn.
  assert (Hmin : (10 <=? length s) = true).
  { apply Nat.leb_le. apply dataUrlRegex_length in Hre. lia. }
  unfold Generate.requestSchema, z.object.
  rewrite !validate_object_cons, validate_object_nil, Hi.
  cbn [validate z.regex z.min z.string_ z.optional app forallb passes].
  rewrite Hmin, Hre. cbn [andb].
  destruct (getField (lit "notes") f); try discriminate;
    cbn [validate forallb]; eexists; reflexivity.
Qed.

Lemma request_accepted (request : Request) (body : JsValue) :
  request_json request = inl body ->
  acceptableRequest request = true <->
  exists data, validate Generate.requestSchema body = Some data.
Proof.
  intros Hreq. unfold acceptableRequest. rewrite Hreq. split.
  - destruct body as [| | | | |items|f]; try discriminate.
    destruct (getField (lit "imageDataUrl") f) as [| | | |s| |] eqn:Ei;
      try discriminate.
    intros H. apply andb_true_iff in H. destruct H as [Hre Hn].
    exact (validate_request_complete f s Ei Hre Hn).
  - intros [data Hv].
    destruct (validate_request body data Hv) as [f [s [-> [Hi [_ Hre]]]]].
    destruct (validate_request_members f data Hv) as [_ [_ Hn]].
    rewrite Hi, Hre, Hn. reflexivity.
Qed.

Lemma ReplyOutcome_logged (answer : Generate.ModelResponse + Thrown)
  (response : Response) (log : list Effect) :
  ReplyOutcome answer response log ->
  (status response = 200%Z /\ log = []) \/
  (status response = 500%Z /\ exists e, log = [ConsoleError generationFailed e]).
Proof.
  intros H. inversion H; subst; simpl; try (right; split; [reflexivity | eexists; reflexivity]).
  left. split; reflexivity.
Qed.

Ltac shape_error :=
  let H := fresh "Hshape" in
  let r := fresh "r" in
  simpl; split;
  [ auto
  | split;
    [ split; [intros H; discriminate H | intros [r H]; discriminate H]
    | split; [intros _; eexists _, _; reflexivity | intros _ H; discriminate H] ] ].

Ltac shape_ok :=
  let H := fresh "Hshape" in
  let m := fresh "m" in
  let d := fresh "d" in
  simpl; split;
  [ auto
  | split;
    [ split; [intros _; eexists; reflexivity | reflexivity]
    | split; [intros H; exfalso; apply H; reflexivity
             | intros [m [d H]]; discriminate H] ] ].

(** X3: the Generation Service answers every request and lets no
    exception escape; the status is 200, 400 or 500; a 200 carries a
    generation result and every other status an error body. *)
Theorem generate_always_answers
  (key : EnvVar) (openai : Generate.OpenAI) (request : Request) :
  exists response trace,
    run (Generate.POST key openai request) = (inl response, trace) /\
    (status response = 200 \/ status response = 400 \/ status response = 500)%Z /\
    (status response = 200%Z <-> exists result, body response = GenerationResult result) /\
    (status response <> 200%Z <->
     exists message details, body response = ErrorBody message details).
Proof.
  destruct (Generate_POST_run key openai request) as [response [trace [Hrun Hrel]]].
  exists response, trace. split; [exact Hrun|].
  inversion Hrel as [Hkey | error Hkey Hreq | body issues Hkey Hreq Hv Hne
                    | body data resp log Hkey Hreq Hv Hreply]; subst;
    try shape_error.
  inversion Hreply; subst; try shape_error. shape_ok.
Qed.

(** X4: the Generation Service calls the model at most once, and exactly
    when the credential is set and the request is acceptable; the call
    then carries the request's image unchanged, the fixed model name,
    output bound and image detail, and the instruction passage followed
    by the notes line, where empty notes read like absent ones. *)
Theorem generate_model_call
  (key : EnvVar) (openai : Generate.OpenAI) (request : Request)
  (response : Response) (trace : list Effect) :
  run (Generate.POST key openai request) = (inl response, trace) ->
  if truthy (envValue key) && acceptableRequest request
  then exists params,
         outboundCalls trace = [ResponsesCreate params] /\
         image_url params = imagePayload request /\
         input_text params
         = Generate.systemPrompt ++ newline ++ newline ++ notesLine (requestNotes request) /\
         model params = lit "gpt-4o-mini" /\
         max_output_tokens params = 1400%Z /\
         detail params = lit "high"
  else outboundCalls trace = [].
Proof.
  intros Hrun. apply Generate_POST_inv in Hrun.
  inversion Hrun as [Hkey | error Hkey Hreq | body issues Hkey Hreq Hv Hne
                    | body data resp log Hkey Hreq Hv Hreply]; subst;
    rewrite Hkey; cbn [andb].
  - reflexivity.
  - unfold acceptableRequest. rewrite Hreq. reflexivity.
  - destruct (acceptableRequest request) eqn:Hacc; [|reflexivity].
    apply (request_accepted request body Hreq) in Hacc.
    destruct Hacc as [data Hv']. congruence.
  - assert (Hacc : acceptableRequest request = true).
    { apply (request_accepted request body Hreq). exists data. exact Hv. }
    rewrite Hacc.
    destruct (validate_request body data Hv) as [f [s [-> _]]].
    destruct (validate_request_members f data Hv) as [Hi [Hn _]].
    exists (Generate.createParams data).
    destruct (ReplyOutcome_log _ _ _ Hreply) as [Hout _].
    split; [|split; [|split]].
    + unfold outboundCalls. simpl. fold (outboundCalls log). rewrite Hout. reflexivity.
    + unfold imagePayload. rewrite Hreq. simpl. exact Hi.
    + unfold requestNotes. rewrite Hreq.
      unfold Generate.createParams. cbn [input_text].
      rewrite Hn. reflexivity.
    + repeat split.
Qed.

Lemma generate_model_call_witness :
  exists response trace params,
    run (Generate.POST sampleKey (replying sampleReply)
           {| request_json :=
                inl (JObj [(lit "imageDataUrl", JStr sampleImage);
                           (lit "notes", JStr []);
                           (lit "debug", JBool true)]) |})
    = (inl response, trace) /\
    outboundCalls trace = [ResponsesCreate params] /\
    image_url params = JStr sampleImage /\
    input_text params
    = Generate.systemPrompt ++ newline ++ newline ++ lit "No additional notes provided.".
Proof.
  destruct (Generate_POST_run sampleKey (replying sampleReply)
              {| request_json :=
                   inl (JObj [(lit "imageDataUrl", JStr sampleImage);
                              (lit "notes", JStr []);
                              (lit "debug", JBool true)]) |})
    as [response [trace [Hrun _]]].
  pose proof (generate_model_call _ _ _ _ _ Hrun) as H.
  change (truthy (envValue sampleKey) && acceptableRequest _) with true in H.
  destruct H as [params [Hcalls [Himg [Htext _]]]].
  exists response, trace, params. auto.
Defined.

Lemma run_answer (key : EnvVar) (openai : Generate.OpenAI) (request : Request)
  (response : Response) (trace : list Effect)
  (answer : Generate.ModelResponse + Thrown) :
  GenerateRun key openai request response trace ->
  modelAnswered openai trace answer ->
  exists data log,
    trace = [RequestJson; ResponsesCreate (Generate.createParams data)] ++ log /\
    ReplyOutcome answer response log.
Proof.
  intros Hrel [params [Hin Hcall]].
  inversion Hrel as [Hkey | error Hkey Hreq | body issues Hkey Hreq Hv Hne
                    | body data resp log Hkey Hreq Hv Hreply]; subst;
    simpl in Hin;
    try (repeat (destruct Hin as [Hin | Hin]; [discriminate Hin|]); contradiction).
  destruct Hin as [Hin | [Hin | Hin]]; [discriminate Hin | |].
  - inversion Hin. subst params. exists data, log. auto.
  - apply ReplyOutcome_log in Hreply. destruct Hreply as [_ Hno].
    exfalso. exact (Hno params Hin).
Qed.

(** X5: the Generation Service leaves no trace (it reads no body and
    calls nothing) exactly when the provider credential is missing or
    empty, and it then answers the 500 configuration error. *)
Theorem generate_requires_credential
  (key : EnvVar) (openai : Generate.OpenAI) (request : Request)
  (response : Response) (trace : list Effect) :
  run (Generate.POST key openai request) = (inl response, trace) ->
  (unset key <-> trace = []) /\
  (unset key ->
   response
   = errorResponse 500 (Message (lit "OPENAI_API_KEY is not set on the server.")) None).
Proof.
  intros Hrun. apply Generate_POST_inv in Hrun.
  assert (Hunset : unset key <-> truthy (envValue key) = false).
  { unfold unset. destruct key as [[|c k]|]; simpl; split; intros Hx;
      try reflexivity; try discriminate; auto.
    destruct Hx as [Hx | Hx]; discriminate Hx. }
  inversion Hrun as [Hkey | error Hkey Hreq | body issues Hkey Hreq Hv Hne
                    | body data resp log Hkey Hreq Hv Hreply]; subst;
    (split; [split|]); intros Hx; try reflexivity; try discriminate Hx;
    try (apply Hunset; exact Hkey);
    apply Hunset in Hx; congruence.
Qed.

Lemma generate_requires_credential_witness :
  exists response trace,
    run (Generate.POST (getenv [(lit "OPENAI_API_KEY", [])] (lit "OPENAI_API_KEY"))
           (replying sampleReply) sampleRequest)
    = (inl response, trace) /\
    trace = [] /\
    response
    = errorResponse 500 (Message (lit "OPENAI_API_KEY is not set on the server.")) None.
Proof.
  exists (errorResponse 500 (Message (lit "OPENAI_API_KEY is not set on the server.")) None), [].
  split; [reflexivity|]. split; [reflexivity|].
  apply (generate_requires_credential (Some []) (replying sampleReply) sampleRequest _ []);
    [reflexivity | right; reflexivity].
Defined.

(** X6: the Generation Service answers 400 [Invalid JSON body.] exactly
    when the credential is set and the body of the request cannot be
    read as JSON; the answer then carries the reader's error as details,
    the body was read once and the model was not called. *)
Theorem generate_unreadable_body
  (key : EnvVar) (openai : Generate.OpenAI) (request : Request)
  (response : Response) (trace : list Effect) :
  run (Generate.POST key openai request) = (inl response, trace) ->
  ((status response = 400%Z /\
    exists details, body response = ErrorBody (Message (lit "Invalid JSON body.")) details)
   <-> truthy (envValue key) = true /\ exists error, request_json request = inr error) /\
  (forall error,
     truthy (envValue key) = true -> request_json request = inr error ->
     response = errorResponse 400 (Message (lit "Invalid JSON body."))
                  (Some (DetailsString error)) /\
     trace = [RequestJson]).
Proof.
  intros Hrun. apply Generate_POST_inv in Hrun.
  inversion Hrun as [Hkey | error Hkey Hreq | body issues Hkey Hreq Hv Hne
                    | body data resp log Hkey Hreq Hv Hreply]; subst.
  - split; [split|].
    + intros [Hst _]. discriminate Hst.
    + intros [Hk _]. congruence.
    + intros e Hk. congruence.
  - split; [split|].
    + intros _. split; [exact Hkey | exists error; exact Hreq].
    + intros _. split; [reflexivity | eexists; reflexivity].
    + intros e _ He. rewrite Hreq in He. inversion He. split; reflexivity.
  - split; [split|].
    + intros [_ [d Hd]]. discriminate Hd.
    + intros [_ [e He]]. congruence.
    + intros e _ He. congruence.
  - split; [split|].
    + intros [Hst _]. exfalso.
      inversion Hreply; subst; discriminate Hst.
    + intros [_ [e He]]. congruence.
    + intros e _ He. congruence.
Qed.

Lemma generate_unreadable_body_witness :
  exists response trace,
    run (Generate.POST sampleKey (replying sampleReply)
           {| request_json := inr (ThrownError (Message (lit "Unexpected end of JSON input"))) |})
    = (inl response, trace) /\
    response
    = errorResponse 400 (Message (lit "Invalid JSON body."))
        (Some (DetailsString (ThrownError (Message (lit "Unexpected end of JSON input"))))) /\
    trace = [RequestJson].
Proof.
  exists (errorResponse 400 (Message (lit "Invalid JSON body."))
            (Some (DetailsString (ThrownError (Message (lit "Unexpected end of JSON input")))))),
         [RequestJson].
  split; [reflexivity|].
  apply (generate_unreadable_body sampleKey (replying sampleReply)
           {| request_json := inr (ThrownError (Message (lit "Unexpected end of JSON input"))) |}
           _ [RequestJson]); reflexivity.
Defined.

(** X7: when the call to the model provider fails, the Generation Service
    answers 500 with the message of the error it caught, or with
    [Recipe generation failed unexpectedly.] when what it caught is not
    an error object, and writes that failure to the console once. *)
Theorem generate_upstream_failure
  (key : EnvVar) (openai : Generate.OpenAI) (request : Request)
  (response : Response) (trace : list Effect) (error : Thrown) :
  run (Generate.POST key openai request) = (inl response, trace) ->
  modelAnswered openai trace (inr error) ->
  response
  = errorResponse 500
      (match error with
       | ThrownError m => m
       | ThrownOther _ => Message (lit "Recipe generation failed unexpectedly.")
       end) None /\
  logged trace = [ConsoleError (lit "Recipe generation failed") error].
Proof.
  intros Hrun Hans. apply Generate_POST_inv in Hrun.
  destruct (run_answer _ _ _ _ _ _ Hrun Hans) as [data [log [-> Hreply]]].
  inversion Hreply; subst. split; reflexivity.
Qed.

Lemma generate_upstream_failure_witness :
  exists response trace,
    run (Generate.POST sampleKey
           (fun _ => inr (ThrownError (Message (lit "429 Rate limit reached"))))
           sampleRequest)
    = (inl response, trace) /\
    response = errorResponse 500 (Message (lit "429 Rate limit reached")) None /\
    logged trace
    = [ConsoleError (lit "Recipe generation failed")
         (ThrownError (Message (lit "429 Rate limit reached")))].
Proof.
  destruct (Generate_POST_run sampleKey
              (fun _ => inr (ThrownError (Message (lit "429 Rate limit reached"))))
              sampleRequest) as [response [trace [Hrun _]]].
  exists response, trace. split; [exact Hrun|].
  apply (generate_upstream_failure _ _ _ _ _
           (ThrownError (Message (lit "429 Rate limit reached"))) Hrun).
  pose proof Hrun as Hc. vm_compute in Hc. inversion Hc.
  eexists. split; [right; left; reflexivity | reflexivity].
Defined.

(** X8: when the model answers without text (none, or the empty string)
    the Generation Service answers 500 [Model response was empty.]. *)
Theorem generate_empty_reply
  (key : EnvVar) (openai : Generate.OpenAI) (request : Request)
  (response : Response) (trace : list Effect) (reply : Generate.ModelResponse) :
  run (Generate.POST key openai request) = (inl response, trace) ->
  modelAnswered openai trace (inl reply) ->
  Generate.output_text reply = None \/ Generate.output_text reply = Some [] ->
  response = errorResponse 500 (Message (lit "Model response was empty.")) None.
Proof.
  intros Hrun Hans Hempty. apply Generate_POST_inv in Hrun.
  destruct (run_answer _ _ _ _ _ _ Hrun Hans) as [data [log [-> Hreply]]].
  inversion Hreply as [ | r He | r raw Hout Hne Hp
                      | r raw payload issues Hout Hne Hp Hv Hiss
                      | r raw payload d Hout Hne Hp Hv ]; subst;
    try reflexivity;
    destruct Hempty as [He | He]; rewrite He in Hout; inversion Hout;
    subst raw; contradiction.
Qed.

Lemma generate_empty_reply_witness :
  exists response trace,
    run (Generate.POST sampleKey (fun _ => inl {| Generate.output_text := None |})
           sampleRequest)
    = (inl response, trace) /\
    response = errorResponse 500 (Message (lit "Model response was empty.")) None.
Proof.
  destruct (Generate_POST_run sampleKey
              (fun _ => inl {| Generate.output_text := None |}) sampleRequest)
    as [response [trace [Hrun _]]].
  exists response, trace. split; [exact Hrun|].
  apply (generate_empty_reply _ _ _ _ _ {| Generate.output_text := None |} Hrun).
  - pose proof Hrun as Hc. vm_compute in Hc. inversion Hc.
    eexists. split; [right; left; reflexivity | reflexivity].
  - left. reflexivity.
Defined.

(** X9: the Generation Service writes to the console exactly when it
    called the model and answers 500, and then once; the validation
    errors (400) and the configuration error are not logged. *)
Theorem generate_logs_failures
  (key : EnvVar) (openai : Generate.OpenAI) (request : Request)
  (response : Response) (trace : list Effect) :
  run (Generate.POST key openai request) = (inl response, trace) ->
  match outboundCalls trace, (status response =? 500)%Z with
  | _ :: _, true =>
      exists error, logged trace = [ConsoleError (lit "Recipe generation failed") error]
  | _, _ => logged trace = []
  end.
Proof.
  intros Hrun. apply Generate_POST_inv in Hrun.
  inversion Hrun as [Hkey | error Hkey Hreq | body issues Hkey Hreq Hv Hne
                    | body data resp log Hkey Hreq Hv Hreply]; subst;
    try reflexivity.
  destruct (ReplyOutcome_logged _ _ _ Hreply) as [[-> ->] | [-> [e ->]]]; simpl.
  - reflexivity.
  - exists e. reflexivity.
Qed.

Lemma generate_logs_failures_witness :
  exists response trace error,
    run (Generate.POST sampleKey (replying shortReply) sampleRequest)
    = (inl response, trace) /\
    logged trace = [ConsoleError (lit "Recipe generation failed") error].
Proof.
  destruct (Generate_POST_run sampleKey (replying shortReply) sampleRequest)
    as [response [trace [Hrun _]]].
  pose proof (generate_logs_failures _ _ _ _ _ Hrun) as H.
  pose proof Hrun as Hc. vm_compute in Hc. inversion Hc as [[Hresp Htrace]].
  rewrite <- Hresp, <- Htrace in H. simpl in H.
  destruct H as [error H].
  exists response, trace, error. split; [exact Hrun|].
  rewrite <- Htrace. exact H.
Defined.

(** ** More on the Delivery Service *)

Lemma delivery_accepted (request : Request) (body : JsValue) :
  request_json request = inl body ->
  wellFormedDelivery request = true <->
  exists data, validate WhatsApp.whatsappSchema body = Some data.
Proof.
  intros Hreq. unfold wellFormedDelivery, requestMessage, suppliedRecipient.
  rewrite Hreq. split.
  - destruct body as [| | | | |items|f]; try discriminate.
    intros H. apply andb_true_iff in H. destruct H as [Hm Hp].
    destruct (getField (lit "message") f) as [| | | |m| |] eqn:Em; try discriminate.
    apply Nat.leb_le in Hm.
    apply (validate_whatsapp_complete f m Em Hm).
    destruct (getField (lit "phoneNumber") f); try discriminate;
      [left; reflexivity | right; eexists; reflexivity].
  - intros [data Hv].
    destruct (validate_whatsapp body data Hv)
      as [f [m [-> [Hm [Hlen [_ [_ Hshape]]]]]]].
    rewrite Hm. unfold stringAtLeast. apply Nat.leb_le in Hlen. rewrite Hlen.
    destruct Hshape as [-> | [p ->]]; reflexivity.
Qed.


Lemma SendOutcome_logged (answer : WhatsApp.FetchResponse + Thrown)
  (response : Response) (log : list Effect) :
  SendOutcome answer response log ->
  (status response = 200%Z /\ logged log = []) \/
  (status response = 502%Z /\ exists e, logged log = [ConsoleError sendFailed e]).
Proof.
  intros H. inversion H; subst; simpl.
  - right. split; [reflexivity | eexists; reflexivity].
  - right. split; [reflexivity | eexists; reflexivity].
  - left. split; reflexivity.
Qed.

(** X10: the Delivery Service answers every request and lets no exception
    escape; the status is 200, 400, 500 or 502; a 200 carries an outcome
    whose state is [queued] or [sent] and whose identifier is never
    undefined, and every other status an error body. *)
Theorem delivery_always_answers
  (env : WhatsApp.WhatsAppEnv) (fetch : WhatsApp.Network) (request : Request) :
  exists response trace,
    run (WhatsApp.POST env fetch request) = (inl response, trace) /\
    (status response = 200 \/ status response = 400 \/
     status response = 500 \/ status response = 502)%Z /\
    (status response = 200%Z <->
     exists state id,
       body response = DeliveryOutcome state id /\
       (state = lit "queued" \/ state = lit "sent") /\ id <> JUndefined) /\
    (status response <> 200%Z <->
     exists message details, body response = ErrorBody message details).
Proof.
  destruct (WhatsApp_POST_run env fetch request) as [response [trace [Hrun Hrel]]].
  exists response, trace. split; [exact Hrun|].
  assert (Herr : forall st m d,
            (st = 400 \/ st = 500 \/ st = 502)%Z ->
            (status (errorResponse st m d) = 200 \/ status (errorResponse st m d) = 400 \/
             status (errorResponse st m d) = 500 \/ status (errorResponse st m d) = 502)%Z /\
            (status (errorResponse st m d) = 200%Z <->
             exists state id,
               body (errorResponse st m d) = DeliveryOutcome state id /\
               (state = lit "queued" \/ state = lit "sent") /\ id <> JUndefined) /\
            (status (errorResponse st m d) <> 200%Z <->
             exists message details,
               body (errorResponse st m d) = ErrorBody message details)).
  { intros st m d Hst. simpl. split; [tauto|]. split; split.
    - intros ->. destruct Hst as [Hst | [Hst | Hst]]; discriminate Hst.
    - intros [state [id [Hb _]]]. discriminate Hb.
    - intros _. eexists _, _. reflexivity.
    - intros _ ->. destruct Hst as [Hst | [Hst | Hst]]; discriminate Hst. }
  inversion Hrel as [Hc | error Hc Hreq | json issues Hc Hreq Hv Hne
                    | json data Hc Hreq Hv Hrec
                    | json data resp log Hc Hreq Hv Hrec Hsend]; subst;
    try (apply Herr; auto; fail).
  inversion Hsend as [ e | r Hok | r Hok ]; subst;
    try (apply Herr; auto; fail).
  simpl. split; [auto|]. split; split.
  - intros _. eexists _, _. split; [reflexivity|]. split.
    + unfold reportedState.
      destruct (truthy (optMember (bodyOf r) (lit "messages")));
        [left | right]; reflexivity.
    + unfold reportedId, coalesce.
      destruct (optMember (optIndex (optMember (bodyOf r) (lit "messages")) 0) (lit "id"));
        discriminate.
  - reflexivity.
  - intros Hneq. exfalso. apply Hneq. reflexivity.
  - intros [m [d Hbody]]. discriminate Hbody.
Qed.



(** X12: the Delivery Service calls the messaging API at most once, and
    exactly when the credentials are set, the body is well formed and
    the recipient (the supplied one, else the default) is not empty.
    The call is a POST to the messages URL of the configured sender,
    authorised with the bearer token, and its payload carries that
    recipient and the request's message unchanged, as a text message
    with link previews off. *)
Theorem delivery_outbound_call
  (env : WhatsApp.WhatsAppEnv) (fetch : WhatsApp.Network) (request : Request)
  (response : Response) (trace : list Effect) :
  run (WhatsApp.POST env fetch request) = (inl response, trace) ->
  if configured env && wellFormedDelivery request
     && truthy (requestRecipient env request)
  then outboundCalls trace
       = [Fetch (lit "https://graph.facebook.com/v19.0/"
                 ++ WhatsApp.template (WhatsApp.phoneId env) ++ lit "/messages")
            {| method := lit "POST";
               headers :=
                 [(lit "Content-Type", lit "application/json");
                  (lit "Authorization",
                   lit "Bearer " ++ WhatsApp.template (WhatsApp.token env))];
               payload :=
                 JObj [(lit "messaging_product", JStr (lit "whatsapp"));
                       (lit "to", requestRecipient env request);
                       (lit "type", JStr (lit "text"));
                       (lit "text",
                        JObj [(lit "preview_url", JBool false);
                              (lit "body", requestMessage request)])] |}]
  else outboundCalls trace = [].
Proof.
  intros Hrun. apply WhatsApp_POST_inv in Hrun.
  inversion Hrun as [Hc | error Hc Hreq | json issues Hc Hreq Hv Hne
                    | json data Hc Hreq Hv Hrec
                    | json data resp log Hc Hreq Hv Hrec Hsend]; subst;
    rewrite Hc; cbn [andb].
  - reflexivity.
  - unfold wellFormedDelivery. rewrite Hreq. reflexivity.
  - destruct (wellFormedDelivery request) eqn:Hwf; [|reflexivity].
    apply (delivery_accepted request json Hreq) in Hwf.
    destruct Hwf as [data Hv']. congruence.
  - destruct (resolved_supplied env request json data Hreq Hv) as [Heq _].
    unfold requestRecipient. rewrite <- Heq, Hrec.
    rewrite andb_false_r. reflexivity.
  - assert (Hwf : wellFormedDelivery request = true).
    { apply (delivery_accepted request json Hreq). exists data. exact Hv. }
    destruct (resolved_supplied env request json data Hreq Hv) as [Heq _].
    destruct (validate_whatsapp json data Hv) as [f [m [-> [Hm [_ [Hdm _]]]]]].
    unfold requestRecipient. rewrite Hwf, <- Heq, Hrec. cbn [andb].
    unfold outboundCalls. simpl. fold (outboundCalls log).
    rewrite (SendOutcome_outbound _ _ _ Hsend).
    unfold WhatsApp.messagesUrl, WhatsApp.messageInit, requestMessage.
    rewrite Hreq, Hdm, Hm. reflexivity.
Qed.

Lemma delivery_outbound_call_witness :
  exists response trace init,
    run (WhatsApp.POST sampleEnv (answering queuedBody)
           (deliveryRequest [(lit "message", sampleMessage)]))
    = (inl response, trace) /\
    outboundCalls trace
    = [Fetch (lit "https://graph.facebook.com/v19.0/106540352242922/messages") init] /\
    outboundTo init = JStr (lit "15550001111") /\
    headers init = [(lit "Content-Type", lit "application/json");
                    (lit "Authorization", lit "Bearer EAAG-token")].
Proof.
  destruct (WhatsApp_POST_run sampleEnv (answering queuedBody)
              (deliveryRequest [(lit "message", sampleMessage)]))
    as [response [trace [Hrun _]]].
  pose proof (delivery_outbound_call _ _ _ _ _ Hrun) as H.
  change (configured sampleEnv && wellFormedDelivery _ && truthy _) with true in H.
  eexists response, trace, _. split; [exact Hrun|].
  split; [exact H|]. split; reflexivity.
Defined.

(** X13: with the credentials set, a body that is not an object, or whose
    message is not a string of 10 code units or more, or whose
    [phoneNumber] is present but not a string (JSON [null] included), is
    answered 400 [Request validation failed.] without any outbound
    call, whatever default recipient is configured. *)
Theorem delivery_invalid_request
  (env : WhatsApp.WhatsAppEnv) (fetch : WhatsApp.Network) (request : Request)
  (body : JsValue) :
  configured env = true ->
  request_json request = inl body ->
  wellFormedDelivery request = false ->
  exists issues,
    issues <> [] /\
    run (WhatsApp.POST env fetch request)
    = (inl (errorResponse 400 (Message (lit "Request validation failed."))
              (Some (DetailsFlatten issues))),
       [RequestJson]).
Proof.
  intros Hc Hreq Hwf.
  destruct (WhatsApp_POST_run env fetch request) as [response [trace [Hrun Hrel]]].
  assert (Hnone : validate WhatsApp.whatsappSchema body = None).
  { destruct (validate WhatsApp.whatsappSchema body) as [data|] eqn:Hv; [|reflexivity].
    assert (wellFormedDelivery request = true)
      by (apply (delivery_accepted request body Hreq); exists data; exact Hv).
    congruence. }
  inversion Hrel as [Hc' | error Hc' Hreq' | json issues Hc' Hreq' Hv Hne
                    | json data Hc' Hreq' Hv Hrec
                    | json data resp log Hc' Hreq' Hv Hrec Hsend]; subst;
    try congruence.
  exists issues. split; [exact Hne | exact Hrun].
Qed.

Lemma delivery_invalid_request_witness :
  exists issues,
    issues <> [] /\
    run (WhatsApp.POST sampleEnv (answering queuedBody)
           (deliveryRequest [(lit "message", sampleMessage);
                             (lit "phoneNumber", JNull)]))
    = (inl (errorResponse 400 (Message (lit "Request validation failed."))
              (Some (DetailsFlatten issues))),
       [RequestJson]).
Proof.
  apply (delivery_invalid_request sampleEnv (answering queuedBody)
           (deliveryRequest [(lit "message", sampleMessage);
                             (lit "phoneNumber", JNull)])
           (JObj [(lit "message", sampleMessage); (lit "phoneNumber", JNull)]));
    reflexivity.
Defined.

(** X14: when the messaging API answers outside the 2xx range the
    Delivery Service answers 502 with an upstream error that carries the
    upstream status and the upstream body, or the empty object when
    that body cannot be read, and logs it once. *)
Theorem delivery_upstream_refusal
  (env : WhatsApp.WhatsAppEnv) (fetch : WhatsApp.Network) (request : Request)
  (response : Response) (trace : list Effect) (r : WhatsApp.FetchResponse) :
  run (WhatsApp.POST env fetch request) = (inl response, trace) ->
  messagingResult fetch trace (inl r) ->
  (WhatsApp.response_status r < 200 \/ 299 < WhatsApp.response_status r)%Z ->
  response
  = errorResponse 502
      (WhatsAppApiError (WhatsApp.response_status r)
         (match WhatsApp.response_json r with
          | inl errorPayload => errorPayload
          | inr _ => JObj []
          end)) None /\
  exists e, logged trace = [ConsoleError (lit "WhatsApp send failed") e].
Proof.
  intros Hrun Hres Hstatus. apply WhatsApp_POST_inv in Hrun.
  assert (Hok : WhatsApp.ok r = false).
  { unfold WhatsApp.ok. apply andb_false_iff.
    destruct Hstatus; [left; apply Z.leb_gt | right; apply Z.leb_gt]; assumption. }
  destruct Hres as [url [init [Hin Hfetch]]].
  inversion Hrun as [Hc | error Hc Hreq | json issues Hc Hreq Hv Hne
                    | json data Hc Hreq Hv Hrec
                    | json data resp log Hc Hreq Hv Hrec Hsend]; subst;
    simpl in Hin;
    try (repeat (destruct Hin as [Hin | Hin]; [discriminate Hin|]); contradiction).
  destruct Hin as [Hin | [Hin | Hin]]; [discriminate Hin | |].
  - inversion Hin. subst url init. rewrite Hfetch in Hsend.
    inversion Hsend; subst; [|congruence].
    split; [reflexivity|]. eexists. reflexivity.
  - exfalso. exact (SendOutcome_log _ _ _ Hsend url init Hin).
Qed.

Lemma delivery_upstream_refusal_witness :
  exists response trace,
    run (WhatsApp.POST sampleEnv
           (fun _ _ => inl {| WhatsApp.response_status := 401;
                              WhatsApp.response_json :=
                                inr (ThrownError (Message (lit "Unexpected token <"))) |})
           (deliveryRequest [(lit "message", sampleMessage)]))
    = (inl response, trace) /\
    response = errorResponse 502 (WhatsAppApiError 401 (JObj [])) None.
Proof.
  destruct (WhatsApp_POST_run sampleEnv
              (fun _ _ => inl {| WhatsApp.response_status := 401;
                                 WhatsApp.response_json :=
                                   inr (ThrownError (Message (lit "Unexpected token <"))) |})
              (deliveryRequest [(lit "message", sampleMessage)]))
    as [response [trace [Hrun _]]].
  exists response, trace. split; [exact Hrun|].
  apply (delivery_upstream_refusal _ _ _ _ _
           {| WhatsApp.response_status := 401;
              WhatsApp.response_json :=
                inr (ThrownError (Message (lit "Unexpected token <"))) |} Hrun).
  - pose proof Hrun as Hc. vm_compute in Hc. inversion Hc.
    eexists _, _. split; [right; left; reflexivity | reflexivity].
  - right. reflexivity.
Defined.

(** X15: when the call to the messaging API itself fails, the Delivery
    Service answers 502 with the message of the error it caught, or with
    [WhatsApp delivery failed unexpectedly.] when what it caught is not
    an error object; the response body is never read. *)
Theorem delivery_network_failure
  (env : WhatsApp.WhatsAppEnv) (fetch : WhatsApp.Network) (request : Request)
  (response : Response) (trace : list Effect) (error : Thrown) :
  run (WhatsApp.POST env fetch request) = (inl response, trace) ->
  messagingResult fetch trace (inr error) ->
  response
  = errorResponse 502
      (match error with
       | ThrownError m => m
       | ThrownOther _ => Message (lit "WhatsApp delivery failed unexpectedly.")
       end) None /\
  ~ In ResponseJson trace /\
  logged trace = [ConsoleError (lit "WhatsApp send failed") error].
Proof.
  intros Hrun Hres. apply WhatsApp_POST_inv in Hrun.
  destruct Hres as [url [init [Hin Hfetch]]].
  inversion Hrun as [Hc | err Hc Hreq | json issues Hc Hreq Hv Hne
                    | json data Hc Hreq Hv Hrec
                    | json data resp log Hc Hreq Hv Hrec Hsend]; subst;
    simpl in Hin;
    try (repeat (destruct Hin as [Hin | Hin]; [discriminate Hin|]); contradiction).
  destruct Hin as [Hin | [Hin | Hin]]; [discriminate Hin | |].
  - inversion Hin. subst url init. rewrite Hfetch in Hsend.
    inversion Hsend; subst.
    split; [reflexivity|]. split; [|reflexivity].
    simpl. intros [H | [H | [H | []]]]; discriminate H.
  - exfalso. exact (SendOutcome_log _ _ _ Hsend url init Hin).
Qed.

Lemma delivery_network_failure_witness :
  exists response trace,
    run (WhatsApp.POST sampleEnv (fun _ _ => inr (ThrownOther (JStr (lit "offline"))))
           (deliveryRequest [(lit "message", sampleMessage)]))
    = (inl response, trace) /\
    response
    = errorResponse 502 (Message (lit "WhatsApp delivery failed unexpectedly.")) None.
Proof.
  destruct (WhatsApp_POST_run sampleEnv
              (fun _ _ => inr (ThrownOther (JStr (lit "offline"))))
              (deliveryRequest [(lit "message", sampleMessage)]))
    as [response [trace [Hrun _]]].
  exists response, trace. split; [exact Hrun|].
  apply (delivery_network_failure _ _ _ _ _ (ThrownOther (JStr (lit "offline"))) Hrun).
  pose proof Hrun as Hc. vm_compute in Hc. inversion Hc.
  eexists _, _. split; [right; left; reflexivity | reflexivity].
Defined.

(** X16: the Delivery Service writes to the console exactly when it
    answers 502, and then once; validation and configuration errors are
    not logged. *)
Theorem delivery_logs_failures
  (env : WhatsApp.WhatsAppEnv) (fetch : WhatsApp.Network) (request : Request)
  (response : Response) (trace : list Effect) :
  run (WhatsApp.POST env fetch request) = (inl response, trace) ->
  if (status response =? 502)%Z
  then exists error, logged trace = [ConsoleError (lit "WhatsApp send failed") error]
  else logged trace = [].
Proof.
  intros Hrun. apply WhatsApp_POST_inv in Hrun.
  inversion Hrun as [Hc | error Hc Hreq | json issues Hc Hreq Hv Hne
                    | json data Hc Hreq Hv Hrec
                    | json data resp log Hc Hreq Hv Hrec Hsend]; subst;
    try reflexivity.
  unfold logged. simpl. fold (logged log).
  destruct (SendOutcome_logged _ _ _ Hsend) as [[-> ->] | [-> [e ->]]]; simpl.
  - reflexivity.
  - exists e. reflexivity.
Qed.

Lemma delivery_logs_failures_witness :
  exists response trace error,
    run (WhatsApp.POST sampleEnv (fun _ _ => inr (ThrownOther (JStr (lit "offline"))))
           (deliveryRequest [(lit "message", sampleMessage)]))
    = (inl response, trace) /\
    logged trace = [ConsoleError (lit "WhatsApp send failed") error].
Proof.
  destruct (WhatsApp_POST_run sampleEnv
              (fun _ _ => inr (ThrownOther (JStr (lit "offline"))))
              (deliveryRequest [(lit "message", sampleMessage)]))
    as [response [trace [Hrun _]]].
  pose proof (delivery_logs_failures _ _ _ _ _ Hrun) as H.
  pose proof Hrun as Hc. vm_compute in Hc. inversion Hc as [[Hresp Htrace]].
  rewrite <- Hresp, <- Htrace in H. simpl in H.
  destruct H as [error H].
  exists response, trace, error. split; [exact Hrun|].
  rewrite <- Htrace. exact H.
Defined.

(** ** More on the transcript *)

Lemma dropWhile_stop (f : N -> bool) (a b : jsstring) (c : N) :
  f c = false -> dropWhile f (a ++ c :: b) = dropWhile f a ++ c :: b.
Proof.
  intros Hc. induction a as [|x a IH]; simpl.
  - rewrite Hc. reflexivity.
  - destruct (f x); [exact IH | reflexivity].
Qed.

(** [trimEnd] keeps everything up to a code unit that is not whitespace. *)
Lemma trimEnd_keep (p rest : jsstring) (c : N) :
  isWhiteSpace c = false ->
  trimEnd (p ++ c :: rest) = p ++ c :: trimEnd rest.
Proof.
  intros Hc. unfold trimEnd.
  rewrite rev_app_distr. simpl. rewrite <- app_assoc. simpl.
  rewrite (dropWhile_stop isWhiteSpace (rev rest) (rev p) c Hc).
  rewrite rev_app_distr. simpl. rewrite rev_involutive, <- app_assoc. reflexivity.
Qed.

Lemma dropWhile_head (f : N -> bool) (s r : jsstring) (c : N) :
  dropWhile f s = c :: r -> f c = false.
Proof.
  induction s as [|x s IH]; simpl; [discriminate|].
  destruct (f x) eqn:Hx; [exact IH|].
  intros H. inversion H. subst. exact Hx.
Qed.

Lemma trimEnd_last (s init : jsstring) (c : N) :
  trimEnd s = init ++ [c] -> isWhiteSpace c = false.
Proof.
  unfold trimEnd. intros H.
  apply (f_equal (@rev N)) in H. rewrite rev_involutive, rev_app_distr in H.
  simpl in H. exact (dropWhile_head _ _ _ _ H).
Qed.

Lemma transcript_from_title (recipes : list Page.Recipe) (summary : option jsstring) :
  recipes <> [] ->
  exists rest,
    Page.combinedMessage recipes summary = Page.title ++ rest /\
    Page.combinedMessage recipes summary
    = trimEnd (join newline (transcriptLines recipes summary)).
Proof.
  intros Hne.
  rewrite (combinedMessage_lines recipes summary Hne), transcript_starts_with_title.
  unfold transcriptLines.
  change (join newline (Page.title :: summaryLine summary :: recipeBlocks 1 recipes))
    with ((Page.fryingPan ++ lit " *Kitchen Remix AI Recipes")
          ++ 42%N :: newline ++ join newline (summaryLine summary :: recipeBlocks 1 recipes)).
  rewrite trimEnd_keep by reflexivity.
  eexists. split; [|reflexivity].
  change Page.title with ((Page.fryingPan ++ lit " *Kitchen Remix AI Recipes") ++ [42%N]).
  rewrite <- app_assoc. reflexivity.
Qed.

(** X17: the transcript is empty exactly when there are no recipes, so the
    send control, which is disabled on an empty transcript, is enabled
    exactly when recipes are shown. *)
Theorem transcript_empty_iff (recipes : list Page.Recipe) (summary : option jsstring) :
  Page.combinedMessage recipes summary = [] <-> recipes = [].
Proof.
  split.
  - intros Hempty. destruct recipes as [|r rest]; [reflexivity|].
    destruct (transcript_from_title (r :: rest) summary) as [tail [Heq _]];
      [discriminate|].
    rewrite Hempty in Heq. discriminate Heq.
  - intros ->. reflexivity.
Qed.

(** X18: a transcript of one recipe or more begins with the title line,
    never ends in whitespace, and has 29 code units or more, so it always
    meets the 10-character minimum the Delivery Service puts on a
    message. *)
Theorem transcript_shape (recipes : list Page.Recipe) (summary : option jsstring) :
  recipes <> [] ->
  (exists rest, Page.combinedMessage recipes summary = Page.title ++ rest) /\
  (forall init c,
     Page.combinedMessage recipes summary = init ++ [c] -> isWhiteSpace c = false) /\
  29 <= length (Page.combinedMessage recipes summary) /\
  stringAtLeast 10 (JStr (Page.combinedMessage recipes summary)) = true.
Proof.
  intros Hne.
  destruct (transcript_from_title recipes summary Hne) as [rest [Heq Htrim]].
  assert (Hlen : 29 <= length (Page.combinedMessage recipes summary)).
  { rewrite Heq, List.length_app. simpl length. lia. }
  split; [exists rest; exact Heq|]. split; [|split].
  - intros init c H. rewrite Htrim in H. exact (trimEnd_last _ _ _ H).
  - exact Hlen.
  - unfold stringAtLeast. apply Nat.leb_le. lia.
Qed.

Lemma transcript_shape_witness :
  (exists rest, Page.combinedMessage [pasta] None = Page.title ++ rest) /\
  (forall init c,
     Page.combinedMessage [pasta] None = init ++ [c] -> isWhiteSpace c = false) /\
  29 <= length (Page.combinedMessage [pasta] None) /\
  stringAtLeast 10 (JStr (Page.combinedMessage [pasta] None)) = true.
Proof. apply transcript_shape. discriminate. Defined.

(** ** The page *)

Lemma react_keeps_preview (st : HomePage.State) (e : Event) :
  HomePage.imagePreview st = HomePage.imageDataUrl st ->
  HomePage.imagePreview (react st e) = HomePage.imageDataUrl (react st e).
Proof.
  intros Hst. destruct e as [file | result | v | v | fetch | fetch];
    unfold react.
  - unfold HomePage.handleFileChange. destruct file as [f|]; [|reflexivity].
    destruct (dropPrefix (lit "image/") (HomePage.type f)); exact Hst.
  - destruct result; [reflexivity | exact Hst].
  - exact Hst.
  - exact Hst.
  - unfold finalState, HomePage.runFrom, HomePage.handleGenerate.
    destruct (HomePage.imageDataUrl st) as [[|c image]|] eqn:Himg;
      try (cbn; congruence).
    unfold HomePage.andThen, HomePage.set, HomePage.tryCatchFinally, HomePage.await.
    cbn beta iota.
    destruct (fetch _ _) as [[status json | [data | err]] | err]; cbn;
      congruence.
  - unfold finalState, HomePage.runFrom, HomePage.handleSendToWhatsApp.
    destruct (HomePage.combinedMessage st) as [|c message]; [exact Hst|].
    unfold HomePage.andThen, HomePage.set, HomePage.tryCatchFinally, HomePage.await.
    cbn beta iota.
    destruct (fetch _ _) as [[status json | [data | err]] | err]; cbn;
      try exact Hst.
    unfold HomePage.member. destruct (nullish data); cbn; exact Hst.
Qed.

(** X19: whatever happens to the page, the preview shows the image that a
    submit would send: the two image cells always hold the same value.
    A file that is not an image leaves the earlier selection in place. *)
Theorem preview_is_submitted_image (events : list Event) :
  HomePage.imagePreview (after events) = HomePage.imageDataUrl (after events).
Proof.
  unfold after.
  assert (Hinv : forall st,
            HomePage.imagePreview st = HomePage.imageDataUrl st ->
            HomePage.imagePreview (fold_left react events st)
            = HomePage.imageDataUrl (fold_left react events st)).
  { induction events as [|e events IH]; intros st Hst; [exact Hst|].
    simpl. apply IH. apply react_keeps_preview. exact Hst. }
  apply Hinv. reflexivity.
Qed.

Ltac run_handler :=
  unfold HomePage.runFrom, HomePage.handleGenerate, HomePage.handleSendToWhatsApp,
    HomePage.andThen, HomePage.set, HomePage.tryCatchFinally, HomePage.await,
    HomePage.jsonOrEmpty, HomePage.raise, HomePage.pure, HomePage.member.

(** X20: a submit without a selected image (none, or an empty one) sends
    nothing and only raises the banner that asks for a photo; with an
    image it sends exactly one POST to [/api/generate], whose body holds
    the image and the notes with the whitespace around them removed,
    never throws, and leaves the page not loading and without an
    earlier delivery confirmation. *)
Theorem submit_request (fetch : HomePage.Api GenerateResponse.t) (st : HomePage.State) :
  match HomePage.imageDataUrl st with
  | Some (c :: image) =>
      exists st' trace,
        HomePage.runFrom (HomePage.handleGenerate fetch) st = (inl tt, st', trace) /\
        outboundCalls trace
        = [Fetch (lit "/api/generate") (generateInit (c :: image) (HomePage.notes st))] /\
        HomePage.loading st' = false /\
        HomePage.whatsAppResult st' = None /\
        HomePage.imageDataUrl st' = HomePage.imageDataUrl st /\
        HomePage.notes st' = HomePage.notes st /\
        HomePage.sendPhone st' = HomePage.sendPhone st
  | _ =>
      HomePage.runFrom (HomePage.handleGenerate fetch) st
      = (inl tt,
         HomePage.setError
           (Some (HomePage.text "Upload a photo of your leftovers first.")) st,
         [])
  end.
Proof.
  destruct (HomePage.imageDataUrl st) as [[|c image]|] eqn:Himg;
    run_handler; rewrite Himg; try reflexivity.
  cbn beta iota.
  change (fetch (lit "/api/generate") _)
    with (fetch (lit "/api/generate") (generateInit (c :: image) (HomePage.notes st))).
  destruct (fetch (lit "/api/generate") (generateInit (c :: image) (HomePage.notes st)))
    as [[status [body | err] | [data | err]] | err]; cbn;
    eexists _, _; (split; [reflexivity|]); repeat split; auto.
Qed.

(** X21: after a submit with an image, the recipes on the page are those
    of the answer or none at all, never the earlier ones.  A 2xx answer
    puts its recipes and summary on the page and leaves no error; any
    other outcome leaves no recipes, no summary and an error: the
    [error] text of a non-2xx body when it has one, else
    [Unable to generate recipes.], or the message of what was thrown. *)
Theorem submit_outcome (fetch : HomePage.Api GenerateResponse.t) (st : HomePage.State)
  (image : jsstring) :
  HomePage.imageDataUrl st = Some image -> image <> [] ->
  let st' := finalState (HomePage.runFrom (HomePage.handleGenerate fetch) st) in
  match fetch (lit "/api/generate") (generateInit image (HomePage.notes st)) with
  | inl (HomePage.Accepted (inl data)) =>
      HomePage.recipes st' = GenerateResponse.recipes data /\
      HomePage.summary st' = Some (GenerateResponse.summary data) /\
      HomePage.error st' = None
  | inl (HomePage.Refused _ json) =>
      HomePage.recipes st' = [] /\ HomePage.summary st' = None /\
      HomePage.error st'
      = Some (match json with
              | inl body =>
                  match optMember body (lit "error") with
                  | JUndefined | JNull => HomePage.text "Unable to generate recipes."
                  | JStr s => HomePage.Said (Message s)
                  | v => HomePage.StringOf v
                  end
              | inr _ => HomePage.text "Unable to generate recipes."
              end)
  | inl (HomePage.Accepted (inr err)) | inr err =>
      HomePage.recipes st' = [] /\ HomePage.summary st' = None /\
      HomePage.error st'
      = Some (match err with
              | ThrownError m => HomePage.Said m
              | ThrownOther _ =>
                  HomePage.text "Something went wrong while generating recipes."
              end)
  end.
Proof.
  intros Himg Hne. destruct image as [|c image]; [contradiction|].
  unfold finalState. run_handler. rewrite Himg. cbn beta iota.
  change (fetch (lit "/api/generate") _)
    with (fetch (lit "/api/generate") (generateInit (c :: image) (HomePage.notes st))).
  destruct (fetch (lit "/api/generate") (generateInit (c :: image) (HomePage.notes st)))
    as [[status [body | err] | [data | err]] | err]; cbn;
    repeat split; try reflexivity;
    try (match goal with
         | |- context [optMember body ?k] => destruct (optMember body k)
         end; reflexivity);
    try (destruct err; reflexivity).
Qed.

Lemma submit_outcome_witness :
  let fetch : HomePage.Api GenerateResponse.t :=
    always (inl (HomePage.Refused 500
                   (inl (JObj [(lit "error", JStr (lit "Model response was empty."))])))) in
  let st := HomePage.setRecipes [pasta] (withImage sampleImage) in
  let st' := finalState (HomePage.runFrom (HomePage.handleGenerate fetch) st) in
  HomePage.recipes st' = [] /\ HomePage.summary st' = None /\
  HomePage.error st' = Some (HomePage.text "Model response was empty.").
Proof.
  exact (submit_outcome
           (always (inl (HomePage.Refused 500
                           (inl (JObj [(lit "error",
                                        JStr (lit "Model response was empty."))])))))
           (HomePage.setRecipes [pasta] (withImage sampleImage))
           sampleImage eq_refl ltac:(discriminate)).
Defined.

(** X22: a click on send with an empty transcript does nothing at all;
    otherwise it sends exactly one POST to [/api/whatsapp] with the
    transcript as message and the phone field without the whitespace
    around it, or no [phoneNumber] when that field is blank.  It never
    throws, ends with the sending flag down, and leaves the image, the
    notes, the recipes, the summary and the phone field as they were. *)
Theorem send_request (fetch : HomePage.Api JsValue) (st : HomePage.State) :
  match HomePage.combinedMessage st with
  | [] => HomePage.runFrom (HomePage.handleSendToWhatsApp fetch) st = (inl tt, st, [])
  | message =>
      exists st' trace,
        HomePage.runFrom (HomePage.handleSendToWhatsApp fetch) st = (inl tt, st', trace) /\
        outboundCalls trace
        = [Fetch (lit "/api/whatsapp") (sendInit message (HomePage.sendPhone st))] /\
        HomePage.sendingToWhatsApp st' = false /\
        HomePage.recipes st' = HomePage.recipes st /\
        HomePage.summary st' = HomePage.summary st /\
        HomePage.imageDataUrl st' = HomePage.imageDataUrl st /\
        HomePage.notes st' = HomePage.notes st /\
        HomePage.sendPhone st' = HomePage.sendPhone st /\
        HomePage.loading st' = HomePage.loading st
  end.
Proof.
  destruct (HomePage.combinedMessage st) as [|c message] eqn:Hmsg;
    run_handler; rewrite Hmsg; [reflexivity|].
  cbn beta iota.
  change (fetch (lit "/api/whatsapp") _)
    with (fetch (lit "/api/whatsapp") (sendInit (c :: message) (HomePage.sendPhone st))).
  destruct (fetch (lit "/api/whatsapp") (sendInit (c :: message) (HomePage.sendPhone st)))
    as [[status [body | err] | [data | err]] | err]; cbn;
    try (eexists _, _; (split; [reflexivity|]); repeat split; auto; fail).
  destruct (nullish data); cbn;
    eexists _, _; (split; [reflexivity|]); repeat split; auto.
Qed.

(** X23: after a send, the page confirms [queued] only for a 2xx answer
    whose body has [status] equal to the string [queued], and [sent]
    for any other 2xx body that is not [null]; a [null] body, a non-2xx
    answer or a failed call leave no confirmation and raise an error:
    the [error] text of the non-2xx body when it has one, else
    [Failed to send WhatsApp message.], or the message of what was
    thrown. *)
Theorem send_outcome (fetch : HomePage.Api JsValue) (st : HomePage.State)
  (message : jsstring) :
  HomePage.combinedMessage st = message -> message <> [] ->
  let st' := finalState (HomePage.runFrom (HomePage.handleSendToWhatsApp fetch) st) in
  match fetch (lit "/api/whatsapp") (sendInit message (HomePage.sendPhone st)) with
  | inl (HomePage.Accepted (inl data)) =>
      if nullish data
      then HomePage.whatsAppResult st' = None /\
           HomePage.error st' = Some (HomePage.CannotRead (lit "status") data)
      else HomePage.error st' = None /\
           HomePage.whatsAppResult st'
           = Some (if match optMember data (lit "status") with
                      | JStr s => JsString.eqb s (lit "queued")
                      | _ => false
                      end
                   then lit "WhatsApp message queued successfully!"
                   else lit "WhatsApp message sent.")
  | inl (HomePage.Refused _ json) =>
      HomePage.whatsAppResult st' = None /\
      HomePage.error st'
      = Some (match json with
              | inl body =>
                  match optMember body (lit "error") with
                  | JUndefined | JNull => HomePage.text "Failed to send WhatsApp message."
                  | JStr s => HomePage.Said (Message s)
                  | v => HomePage.StringOf v
                  end
              | inr _ => HomePage.text "Failed to send WhatsApp message."
              end)
  | inl (HomePage.Accepted (inr err)) | inr err =>
      HomePage.whatsAppResult st' = None /\
      HomePage.error st'
      = Some (match err with
              | ThrownError m => HomePage.Said m
              | ThrownOther _ =>
                  HomePage.text "Something went wrong while sending WhatsApp message."
              end)
  end.
Proof.
  intros Hmsg Hne. destruct message as [|c message]; [contradiction|].
  unfold finalState. run_handler. rewrite Hmsg. cbn beta iota.
  change (fetch (lit "/api/whatsapp") _)
    with (fetch (lit "/api/whatsapp") (sendInit (c :: message) (HomePage.sendPhone st))).
  destruct (fetch (lit "/api/whatsapp") (sendInit (c :: message) (HomePage.sendPhone st)))
    as [[status [body | err] | [data | err]] | err]; cbn;
    try (repeat split; try reflexivity;
         try (match goal with
         | |- context [optMember body ?k] => destruct (optMember body k)
         end; reflexivity);
         try (destruct err; reflexivity); fail).
  destruct (nullish data); cbn; split; try reflexivity.
  match goal with
  | |- context [optMember data ?k] => destruct (optMember data k) as [| | | |s| |]
  end; try reflexivity.
Qed.

Lemma send_outcome_witness :
  let fetch : HomePage.Api JsValue :=
    always (inl (HomePage.Accepted
                   (inl (JObj [(lit "status", JStr (lit "queued")); (lit "id", JNull)])))) in
  let st := HomePage.setRecipes [pasta] HomePage.initialState in
  let st' := finalState (HomePage.runFrom (HomePage.handleSendToWhatsApp fetch) st) in
  HomePage.error st' = None /\
  HomePage.whatsAppResult st' = Some (lit "WhatsApp message queued successfully!").
Proof.
  exact (send_outcome
           (always (inl (HomePage.Accepted
                           (inl (JObj [(lit "status", JStr (lit "queued"));
                                       (lit "id", JNull)])))))
           (HomePage.setRecipes [pasta] HomePage.initialState)
           (HomePage.combinedMessage (HomePage.setRecipes [pasta] HomePage.initialState))
           eq_refl ltac:(vm_compute; discriminate)).
Defined.

(** ** The page and the routes together *)

Lemma received_send (message sendPhone : jsstring) :
  received (sendInit message sendPhone)
  = deliveryRequest
      ((lit "message", JStr message)
       :: match trim sendPhone with
          | [] => []
          | c :: phone => [(lit "phoneNumber", JStr (c :: phone))]
          end).
Proof.
  unfold received, sendInit, phoneField, deliveryRequest. simpl.
  destruct (trim sendPhone); reflexivity.
Qed.

(** X24: the request the page sends to the Delivery Service always passes
    that service's validation when there are recipes on the page.  With
    the credentials configured, a phone field that holds more than
    whitespace becomes the recipient, trimmed; a blank one falls back to
    the configured default; and only a blank field without default is
    turned down, with the 400 that asks for a phone number. *)
Theorem page_to_delivery
  (st : HomePage.State) (env : WhatsApp.WhatsAppEnv) (fetch : WhatsApp.Network)
  (response : Response) (trace : list Effect) :
  HomePage.recipes st <> [] ->
  configured env = true ->
  run (WhatsApp.POST env fetch
         (received (sendInit (HomePage.combinedMessage st) (HomePage.sendPhone st))))
  = (inl response, trace) ->
  let recipient :=
    match trim (HomePage.sendPhone st) with
    | [] => envValue (WhatsApp.defaultRecipient env)
    | phone => JStr phone
    end in
  if truthy recipient
  then exists init,
         outboundCalls trace = [Fetch (WhatsApp.messagesUrl env) init] /\
         outboundTo init = recipient /\
         optMember (optMember (payload init) (lit "text")) (lit "body")
         = JStr (HomePage.combinedMessage st)
  else response
       = errorResponse 400
           (Message (lit "Provide a phoneNumber in the request or configure WHATSAPP_RECIPIENT."))
           None /\
       trim (HomePage.sendPhone st) = [] /\
       outboundCalls trace = [].
Proof.
  intros Hrecipes Hconf Hrun recipient.
  apply WhatsApp_POST_inv in Hrun. rewrite received_send in Hrun.
  set (fields := (lit "message", JStr (HomePage.combinedMessage st))
                 :: match trim (HomePage.sendPhone st) with
                    | [] => []
                    | c :: phone => [(lit "phoneNumber", JStr (c :: phone))]
                    end) in *.
  assert (Hmsg : getField (lit "message") fields = JStr (HomePage.combinedMessage st))
    by reflexivity.
  assert (Hphone : getField (lit "phoneNumber") fields
                   = match trim (HomePage.sendPhone st) with
                     | [] => JUndefined
                     | phone => JStr phone
                     end).
  { unfold fields. destruct (trim (HomePage.sendPhone st)); reflexivity. }
  assert (Hlen : 10 <= length (HomePage.combinedMessage st)).
  { destruct (transcript_from_title (HomePage.recipes st) (HomePage.summary st) Hrecipes)
      as [rest [Heq _]].
    unfold HomePage.combinedMessage. rewrite Heq, List.length_app. simpl length. lia. }
  destruct (validate_whatsapp_complete fields _ Hmsg Hlen) as [data Hv].
  { rewrite Hphone. destruct (trim (HomePage.sendPhone st));
      [left; reflexivity | right; eexists; reflexivity]. }
  destruct (resolved_supplied env (deliveryRequest fields) (JObj fields) data eq_refl Hv)
    as [Hres _].
  assert (Hrecipient : resolvedRecipient env data = recipient).
  { rewrite Hres. unfold suppliedRecipient, deliveryRequest, recipient. simpl request_json.
    cbv iota beta. rewrite Hphone. destruct (trim (HomePage.sendPhone st)); reflexivity. }
  destruct (validate_whatsapp (JObj fields) data Hv)
    as [f [m [Hf [Hm' [_ [Hdm _]]]]]].
  inversion Hf. subst f. rewrite Hmsg in Hm'. inversion Hm'. subst m.
  inversion Hrun as [Hc | error Hc Hreq | json issues Hc Hreq Hv' Hne
                    | json data' Hc Hreq Hv' Hrec
                    | json data' resp log Hc Hreq Hv' Hrec Hsend]; subst;
    try congruence; try discriminate Hreq;
    inversion Hreq; subst json; try congruence;
    rewrite Hv in Hv'; inversion Hv'; subst data'; rewrite Hrecipient in Hrec;
    rewrite Hrec.
  - split; [reflexivity|]. split; [|reflexivity].
    unfold recipient in Hrec. destruct (trim (HomePage.sendPhone st)); [reflexivity|].
    discriminate Hrec.
  - eexists. split; [|split].
    + unfold outboundCalls. simpl. fold (outboundCalls log).
      rewrite (SendOutcome_outbound _ _ _ Hsend). reflexivity.
    + unfold outboundTo. simpl.
      change (getField (lit "to") _) with (resolvedRecipient env data).
      exact Hrecipient.
    + simpl. exact Hdm.
Qed.

Lemma page_to_delivery_witness :
  exists trace init,
    fst (run (WhatsApp.POST sampleEnv (answering queuedBody)
                (received (sendInit
                             (HomePage.combinedMessage
                                (HomePage.setRecipes [pasta] HomePage.initialState))
                             (lit "   ")))))
    = inl {| status := 200;
             body := DeliveryOutcome (lit "queued") (JStr (lit "wamid.HBgL")) |} /\
    outboundCalls trace = [Fetch (WhatsApp.messagesUrl sampleEnv) init] /\
    outboundTo init = JStr (lit "15550001111").
Proof.
  pose (st := HomePage.setSendPhone (lit "   ")
                (HomePage.setRecipes [pasta] HomePage.initialState)).
  destruct (WhatsApp_POST_run sampleEnv (answering queuedBody)
              (received (sendInit (HomePage.combinedMessage st) (HomePage.sendPhone st))))
    as [response [trace [Hrun _]]].
  assert (Hne : HomePage.recipes st <> []) by discriminate.
  pose proof (page_to_delivery st sampleEnv (answering queuedBody) response trace
                Hne eq_refl Hrun) as H.
  cbv zeta in H.
  change (truthy _) with true in H. cbv iota in H.
  destruct H as [init [Hcalls [Hto _]]].
  exists trace, init. split; [vm_compute; reflexivity|].
  split; [exact Hcalls | exact Hto].
Defined.

Lemma received_generate (image notes : jsstring) :
  received (generateInit image notes)
  = {| request_json :=
         inl (JObj [(lit "imageDataUrl", JStr image); (lit "notes", JStr (trim notes))]) |}.
Proof. reflexivity. Qed.

(** X25: the request the page sends to the Generation Service is turned
    down only for its image: with the credential configured, the model
    is called exactly when the image matches the data-URL pattern, and
    then with that image and with the page's notes trimmed; notes that
    are blank are passed as no notes.  An image outside the pattern gets
    the 400 [Request validation failed.]. *)
Theorem page_to_generation
  (image notes : jsstring) (key : EnvVar) (openai : Generate.OpenAI)
  (response : Response) (trace : list Effect) :
  truthy (envValue key) = true ->
  run (Generate.POST key openai (received (generateInit image notes)))
  = (inl response, trace) ->
  if Generate.dataUrlRegex image
  then exists params,
         outboundCalls trace = [ResponsesCreate params] /\
         image_url params = JStr image /\
         input_text params
         = Generate.systemPrompt ++ newline ++ newline
           ++ match trim notes with
              | [] => lit "No additional notes provided."
              | said => lit "Notes from the cook: " ++ said
              end
  else exists issues,
         issues <> [] /\
         response = errorResponse 400 (Message (lit "Request validation failed."))
                      (Some (DetailsFlatten issues)) /\
         trace = [RequestJson].
Proof.
  intros Hkey Hrun. apply Generate_POST_inv in Hrun.
  rewrite received_generate in Hrun.
  set (request := {| request_json :=
                       inl (JObj [(lit "imageDataUrl", JStr image);
                                  (lit "notes", JStr (trim notes))]) |}) in *.
  assert (Hacc : acceptableRequest request = Generate.dataUrlRegex image).
  { unfold acceptableRequest, request. simpl. apply andb_true_r. }
  inversion Hrun as [Hkey' | error Hkey' Hreq | body issues Hkey' Hreq Hv Hne
                    | body data resp log Hkey' Hreq Hv Hreply]; subst;
    try congruence; try discriminate Hreq.
  - assert (Hno : acceptableRequest request = false).
    { destruct (acceptableRequest request) eqn:E; [|reflexivity].
      apply (request_accepted request body Hreq) in E. destruct E as [d Hd].
      congruence. }
    rewrite <- Hacc, Hno. exists issues. auto.
  - assert (Hyes : acceptableRequest request = true).
    { apply (request_accepted request body Hreq). exists data. exact Hv. }
    rewrite <- Hacc, Hyes.
    inversion Hreq. subst body.
    destruct (validate_request_members _ data Hv) as [Hi [Hn _]].
    exists (Generate.createParams data).
    destruct (ReplyOutcome_log _ _ _ Hreply) as [Hout _].
    split; [|split].
    + unfold outboundCalls. simpl. fold (outboundCalls log). rewrite Hout. reflexivity.
    + simpl. exact Hi.
    + unfold Generate.createParams. cbn [input_text]. rewrite Hn.
      change (getField (lit "notes") _) with (JStr (trim notes)).
      destruct (trim notes); reflexivity.
Qed.

Lemma page_to_generation_witness :
  exists response trace params,
    run (Generate.POST sampleKey (replying sampleReply)
           (received (generateInit sampleImage (lit "  no dairy  "))))
    = (inl response, trace) /\
    outboundCalls trace = [ResponsesCreate params] /\
    image_url params = JStr sampleImage /\
    input_text params
    = Generate.systemPrompt ++ newline ++ newline ++ lit "Notes from the cook: no dairy".
Proof.
  destruct (Generate_POST_run sampleKey (replying sampleReply)
              (received (generateInit sampleImage (lit "  no dairy  "))))
    as [response [trace [Hrun _]]].
  pose proof (page_to_generation sampleImage (lit "  no dairy  ") sampleKey
                (replying sampleReply) response trace eq_refl Hrun) as H.
  change (Generate.dataUrlRegex sampleImage) with true in H. cbv iota in H.
  destruct H as [params [Hcalls [Himg Htext]]].
  exists response, trace, params. repeat split; assumption.
Defined.

Lemma subtype_run (sub b64 : jsstring) :
  ~ In 59%N sub ->
  match dropPrefix (lit ";base64,")
          (dropWhile Generate.isSubtypeChar (sub ++ lit ";base64," ++ b64)) with
  | Some _ => forallb Generate.isSubtypeChar sub = true
  | None => forallb Generate.isSubtypeChar sub = false
  end.
Proof.
  induction sub as [|c sub IH]; intros Hno.
  - reflexivity.
  - cbn [app dropWhile forallb].
    destruct (Generate.isSubtypeChar c) eqn:Hc.
    + apply IH. intros Hin. apply Hno. right. exact Hin.
    + change (dropPrefix (lit ";base64,") (c :: sub ++ lit ";base64," ++ b64))
        with (if N.eqb 59 c
              then dropPrefix (lit "base64,") (sub ++ lit ";base64," ++ b64)
              else None).
      destruct (N.eqb 59 c) eqn:E.
      * apply N.eqb_eq in E. exfalso. apply Hno. left. symmetry. exact E.
      * reflexivity.
Qed.

(** X26: the page takes every file whose type begins with [image/], but
    the Generation Service takes the data URL of such a file only when
    the rest of the type consists of letters and [+].  A file of a type
    like [image/x-icon] is previewed and submitted by the page and then
    turned down by the service with a 400. *)
Theorem image_type_gap (sub b64 notes : jsstring) (st : HomePage.State) :
  ~ In 59%N sub ->
  let file := {| HomePage.type := lit "image/" ++ sub |} in
  let image := lit "data:" ++ HomePage.type file ++ lit ";base64," ++ b64 in
  HomePage.handleFileChange (Some file) st = (st, Some file) /\
  HomePage.imageDataUrl (HomePage.onload (Some image) st) = Some image /\
  (acceptableRequest (received (generateInit image notes)) = true <->
   sub <> [] /\ forallb Generate.isSubtypeChar sub = true).
Proof.
  intros Hno file image. split; [|split].
  - unfold HomePage.handleFileChange, file. cbn [HomePage.type].
    rewrite dropPrefix_self. reflexivity.
  - reflexivity.
  - rewrite received_generate. unfold acceptableRequest. simpl request_json.
    cbv iota beta.
    change (getField (lit "imageDataUrl") _) with (JStr image).
    change (getField (lit "notes") _) with (JStr (trim notes)).
    cbn [stringOrAbsent]. rewrite andb_true_r.
    unfold image, file. cbn [HomePage.type].
    change (lit "data:" ++ (lit "image/" ++ sub) ++ lit ";base64," ++ b64)
      with (lit "data:image/" ++ sub ++ lit ";base64," ++ b64).
    unfold Generate.dataUrlRegex. rewrite dropPrefix_self.
    pose proof (subtype_run sub b64 Hno) as Hrun.
    destruct (dropPrefix (lit ";base64,")
                (dropWhile Generate.isSubtypeChar (sub ++ lit ";base64," ++ b64)))
      as [rest|] eqn:Hdrop.
    + rewrite andb_true_r.
      rewrite (dropWhile_run Generate.isSubtypeChar sub (lit ";base64," ++ b64) Hrun)
        by reflexivity.
      rewrite (List.length_app sub). split.
      * intros H. apply Nat.ltb_lt in H. split; [|exact Hrun].
        intros ->. simpl length in H. lia.
      * intros [Hne _]. apply Nat.ltb_lt.
        destruct sub; [contradiction | simpl length; lia].
    + rewrite andb_false_r. split; [discriminate|].
      intros [_ Hall]. congruence.
Qed.

Lemma image_type_gap_witness :
  let file := {| HomePage.type := lit "image/x-icon" |} in
  let image := lit "data:image/x-icon;base64,AAABAAEAEBA=" in
  HomePage.handleFileChange (Some file) HomePage.initialState
  = (HomePage.initialState, Some file) /\
  acceptableRequest (received (generateInit image [])) = false.
Proof.
  destruct (image_type_gap (lit "x-icon") (lit "AAABAAEAEBA=") [] HomePage.initialState)
    as [Hpage [_ Hiff]].
  - vm_compute. intros H.
    repeat (destruct H as [H | H]; [discriminate H|]). exact H.
  - split; [exact Hpage|].
    destruct (acceptableRequest
                (received (generateInit (lit "data:image/x-icon;base64,AAABAAEAEBA=") [])))
      eqn:E; [|reflexivity].
    apply Hiff in E. destruct E as [_ E]. vm_compute in E. discriminate E.
Defined.

Lemma traverse_Forall2 {A B : Type} (f : A -> option B) (P : B -> Prop) (Q : A -> bool)
  (l : list A) :
  (forall x, Q x = true -> exists y, f x = Some y /\ P y) ->
  forallb Q l = true ->
  exists l', traverse f l = Some l' /\ length l' = length l /\ Forall P l'.
Proof.
  intros Hf. induction l as [|x l IH]; simpl; intros Hall.
  - exists []. repeat split. constructor.
  - apply andb_true_iff in Hall. destruct Hall as [Hx Hl].
    destruct (Hf x Hx) as [y [Hy Py]]. destruct (IH Hl) as [l' [Ht [Hlen HP]]].
    rewrite Hy, Ht. exists (y :: l'). simpl. repeat split; [lia | constructor; assumption].
Qed.

Lemma asStrings_within (n k : nat) (v : JsValue) :
  arrayAtLeast n (stringAtLeast k) v = true ->
  exists l, asStrings v = Some l /\ n <= length l /\ Forall (fun s => k <= length s) l.
Proof.
  destruct v as [| | | | |items|f]; try discriminate. simpl.
  intros H. apply andb_true_iff in H. destruct H as [Hn Hall].
  destruct (traverse_Forall2 asString (fun s => k <= length s) (stringAtLeast k) items)
    as [l [Ht [Hlen HP]]]; [|exact Hall|].
  - intros x Hx. destruct x; try discriminate. exists s. split; [reflexivity|].
    apply Nat.leb_le. exact Hx.
  - exists l. apply Nat.leb_le in Hn. repeat split; [exact Ht | lia | exact HP].
Qed.

Lemma asRecipe_within (v : JsValue) :
  recipeWithinBounds v = true -> exists r, asRecipe v = Some r /\ recipeBounds r.
Proof.
  destruct v as [| | | | |items|f]; try discriminate. unfold recipeWithinBounds, asRecipe.
  intros H.
  apply andb_true_iff in H. destruct H as [H Hs].
  apply andb_true_iff in H. destruct H as [H Hi].
  apply andb_true_iff in H. destruct H as [Hn Hd].
  destruct (getField (lit "name") f) as [| | | |n| |]; try discriminate.
  destruct (getField (lit "description") f) as [| | | |d| |]; try discriminate.
  destruct (asStrings_within 3 2 _ Hi) as [i [Ei [Hil HiP]]].
  destruct (asStrings_within 3 5 _ Hs) as [s [Es [Hsl HsP]]].
  rewrite Ei, Es. cbn [asString]. eexists. split; [reflexivity|].
  unfold recipeBounds. cbn.
  apply Nat.leb_le in Hn. apply Nat.leb_le in Hd. repeat split; assumption.
Qed.

Lemma asGenerateResponse_within (v : JsValue) :
  resultWithinBounds v = true ->
  exists data,
    asGenerateResponse v = Some data /\
    3 <= length (GenerateResponse.recipes data) <= 5 /\
    Forall recipeBounds (GenerateResponse.recipes data) /\
    10 <= length (GenerateResponse.summary data).
Proof.
  destruct v as [| | | | |items|f]; try discriminate.
  unfold resultWithinBounds, asGenerateResponse.
  intros H. apply andb_true_iff in H. destruct H as [Hs H].
  destruct (getField (lit "summary") f) as [| | | |s| |]; try discriminate.
  destruct (getField (lit "recipes") f) as [| | | | |recipes|]; try discriminate.
  apply andb_true_iff in H. destruct H as [H Hall].
  apply andb_true_iff in H. destruct H as [Hlo Hhi].
  destruct (traverse_Forall2 asRecipe recipeBounds recipeWithinBounds recipes
              asRecipe_within Hall) as [rs [Ht [Hlen HP]]].
  cbn [asString]. rewrite Ht. eexists. split; [reflexivity|]. cbn.
  apply Nat.leb_le in Hlo. apply Nat.leb_le in Hhi. apply Nat.leb_le in Hs.
  repeat split; try assumption; lia.
Qed.

(** X27: a result the Generation Service answers with reads, at the type
    the page gives it, as a summary and 3 to 5 recipes within the bounds
    of the data model.  When the page receives it, those recipes and no
    error are on the page, and the transcript is not empty, so the send
    control is enabled. *)
Theorem generated_menu_on_page
  (key : EnvVar) (openai : Generate.OpenAI) (request : Request)
  (response : Response) (trace : list Effect) (result : JsValue) :
  run (Generate.POST key openai request) = (inl response, trace) ->
  body response = GenerationResult result ->
  exists data,
    asGenerateResponse result = Some data /\
    3 <= length (GenerateResponse.recipes data) <= 5 /\
    Forall recipeBounds (GenerateResponse.recipes data) /\
    10 <= length (GenerateResponse.summary data) /\
    forall (fetch : HomePage.Api GenerateResponse.t) (st : HomePage.State) (image : jsstring),
      HomePage.imageDataUrl st = Some image -> image <> [] ->
      fetch (lit "/api/generate") (generateInit image (HomePage.notes st))
      = inl (HomePage.Accepted (inl data)) ->
      let st' := finalState (HomePage.runFrom (HomePage.handleGenerate fetch) st) in
      HomePage.recipes st' = GenerateResponse.recipes data /\
      HomePage.summary st' = Some (GenerateResponse.summary data) /\
      HomePage.error st' = None /\
      HomePage.combinedMessage st' <> [].
Proof.
  intros Hrun Hbody. apply Generate_POST_inv in Hrun.
  assert (Hwithin : resultWithinBounds result = true).
  { inversion Hrun as [Hkey | error Hkey Hreq | body issues Hkey Hreq Hv Hne
                      | body data resp log Hkey Hreq Hv Hreply]; subst;
      try discriminate Hbody.
    inversion Hreply as [ | r Hempty | r raw' Hout' Hne Hp
                        | r raw' payload' issues Hout' Hne Hp Hv' Hiss
                        | r raw' payload' data' Hout' Hne Hp Hv' ]; subst;
      try discriminate Hbody.
    simpl in Hbody. inversion Hbody. subst result.
    rewrite validate_payload in Hv'.
    destruct (resultWithinBounds payload') eqn:Hb; [|discriminate Hv'].
    inversion Hv'. apply declaredResult_within. exact Hb. }
  destruct (asGenerateResponse_within result Hwithin)
    as [data [Hread [Hcount [Hbounds Hsummary]]]].
  exists data. repeat split; try assumption; try lia.
  - unfold finalState. run_handler. rewrite H. destruct image as [|c image];
      [contradiction|]. cbn beta iota.
    change (fetch (lit "/api/generate") _)
      with (fetch (lit "/api/generate") (generateInit (c :: image) (HomePage.notes st))).
    rewrite H1. reflexivity.
  - unfold finalState. run_handler. rewrite H. destruct image as [|c image];
      [contradiction|]. cbn beta iota.
    change (fetch (lit "/api/generate") _)
      with (fetch (lit "/api/generate") (generateInit (c :: image) (HomePage.notes st))).
    rewrite H1. reflexivity.
  - unfold finalState. run_handler. rewrite H. destruct image as [|c image];
      [contradiction|]. cbn beta iota.
    change (fetch (lit "/api/generate") _)
      with (fetch (lit "/api/generate") (generateInit (c :: image) (HomePage.notes st))).
    rewrite H1. reflexivity.
  - unfold finalState. run_handler. rewrite H. destruct image as [|c image];
      [contradiction|]. cbn beta iota.
    change (fetch (lit "/api/generate") _)
      with (fetch (lit "/api/generate") (generateInit (c :: image) (HomePage.notes st))).
    rewrite H1. cbn. unfold HomePage.combinedMessage. cbn.
    intros Hempty.
    destruct (GenerateResponse.recipes data) as [|r0 rest] eqn:Hrs;
      [simpl in Hcount; lia|].
    destruct (transcript_from_title (r0 :: rest) (Some (GenerateResponse.summary data)))
      as [tail [Heq _]]; [discriminate|].
    rewrite Hempty in Heq. discriminate Heq.
Qed.

Lemma generated_menu_on_page_witness :
  exists response trace result data,
    run (Generate.POST sampleKey (replying sampleReply) sampleRequest)
    = (inl response, trace) /\
    body response = GenerationResult result /\
    asGenerateResponse result = Some data /\
    GenerateResponse.recipes data = [pasta; bruschetta; pesto] /\
    HomePage.recipes
      (finalState (HomePage.runFrom
                     (HomePage.handleGenerate (always (inl (HomePage.Accepted (inl data)))))
                     (withImage sampleImage)))
    = GenerateResponse.recipes data.
Proof.
  destruct (Generate_POST_run sampleKey (replying sampleReply) sampleRequest)
    as [response [trace [Hrun _]]].
  assert (Hbody : exists result, body response = GenerationResult result /\
                    asGenerateResponse result
                    = Some {| GenerateResponse.recipes := [pasta; bruschetta; pesto];
                              GenerateResponse.summary :=
                                lit "Detected tomatoes, pasta, basil" |}).
  { pose proof Hrun as Hc. vm_compute in Hc. inversion Hc.
    eexists. split; [reflexivity|]. vm_compute. reflexivity. }
  destruct Hbody as [result [Hbody Hread]].
  destruct (generated_menu_on_page _ _ _ _ _ _ Hrun Hbody)
    as [data [Hread' [_ [_ [_ Hpage]]]]].
  rewrite Hread in Hread'. inversion Hread'. subst data.
  exists response, trace, result.
  eexists. split; [exact Hrun|]. split; [exact Hbody|]. split; [exact Hread|].
  split; [reflexivity|].
  apply (Hpage (always (inl (HomePage.Accepted (inl _)))) (withImage sampleImage)
           sampleImage); [reflexivity | discriminate | reflexivity].
Defined.
